(** * AgFin AI service: tool handlers, tool registry, orchestrator loop and
      conversation history, as a shallow embedding of the Python sources.

    Sources embedded here:
    - [src/conversation/history.py]  (module [History])
    - [src/tools/update_module.py], [src/tools/request_audit.py],
      [src/tools/certify_application.py], [src/tools/extract_fields.py]
      (module [Tools])
    - [src/tools/registry.py]  (module [Registry])
    - [src/claude/client.py]   (module [Client])

    Conventions.  A Python [dict] whose insertion order is observable is an
    association list; the [applications] table, which is only ever read by
    primary key, is a [gmap].  Every handler is a function from its
    arguments and the store to a payload and the new store.  Clock readings
    ([datetime.utcnow()], [NOW()], [time.time()]) are explicit inputs.  Every
    SQL statement runs on its own through the pool; a statement that the
    database refuses raises in the handler and ends in its [except] clause,
    with what was written before left in place. *)

From stdpp Require Import base strings list gmap pretty.
From Stdlib Require Import ZArith QArith.
Close Scope Q_scope.
Set Warnings "-register-all".

(** ** Python and JSON values *)

(** One type serves for Python values and for JSONB column contents: JSON
    [null] and Python [None] are [VNone]; a Python float ([time.time()]
    differences, [confidence_score]) is carried as a rational. *)
Inductive value : Type :=
| VNone
| VBool (b : bool)
| VInt (z : Z)
| VFloat (q : Q)
| VStr (s : string)
| VList (l : list value)
| VDict (d : list (string * value)).

(** A dict in insertion order. *)
Abbreviation dict := (list (string * value)).

(** [d.get(k)] *)
Fixpoint dict_get (k : string) (d : dict) : option value :=
  match d with
  | [] => None
  | (k', v) :: d' => if String.eqb k k' then Some v else dict_get k d'
  end.

(** [k in d] *)
Definition dict_has (k : string) (d : dict) : bool :=
  match dict_get k d with Some _ => true | None => false end.

(** [d[k] = v]: overwrite in place when the key exists, else append. *)
Fixpoint dict_set (k : string) (v : value) (d : dict) : dict :=
  match d with
  | [] => [(k, v)]
  | (k', v') :: d' =>
      if String.eqb k k' then (k, v) :: d' else (k', v') :: dict_set k v d'
  end.

(** [d.get(k) == s] for a string [s] *)
Definition is_str (v : option value) (s : string) : bool :=
  match v with
  | Some (VStr s') => String.eqb s' s
  | _ => false
  end.

(** [list(d.keys())] *)
Definition dict_keys {A} (d : list (string * A)) : list string := d.*1.

(** Python truthiness of an optional string ([None] and [''] are falsy). *)
Definition truthy (o : option string) : bool :=
  match o with
  | Some s => negb (String.eqb s "")
  | None => false
  end.

(** [sep.join(parts)] *)
Fixpoint join (sep : string) (parts : list string) : string :=
  match parts with
  | [] => ""
  | [p] => p
  | p :: rest => p +:+ sep +:+ join sep rest
  end.

(** The line feed character, for [E'\n'] and ['\n'] literals. *)
Definition LF : string := String (Ascii.ascii_of_nat 10) EmptyString.

(** Exceptions that the embedded code raises or lets through. *)
Inductive exn : Type :=
| ValueError (msg : string)
| RuntimeError (msg : string)
| TypeError (msg : string)
| OtherError (msg : string).

(** ** Conversation history ([src/conversation/history.py]) *)

Module History.

(** A message dict.  A key that is absent from the dict is [None] here, so
    that [msg.get("role")] and [msg.get("content", "")] can be told apart
    from a present value. *)
Record Message := mkMessage {
  msg_role : option string;
  msg_content : option string;
  msg_id : option string;
  msg_created_at : option string
}.

(** [ConversationHistory]: [max_tokens] is the configured budget and
    [tokens_of_chars] stands for [int(total_chars * self.tokens_per_char)],
    whatever the configured float ratio is. *)
Record ConversationHistory := mkHistory {
  max_tokens : Z;
  tokens_of_chars : Z → Z
}.

(** [DEFAULT_MAX_TOKENS = 150000], [tokens_per_char = 1.0 / 4]: the product
    with 0.25 is exact and [int] truncates. *)
Definition DEFAULT_MAX_TOKENS : Z := 150000.
Definition TOKENS_PER_MESSAGE_ESTIMATE : Z := 4.
Definition default_history : ConversationHistory :=
  mkHistory DEFAULT_MAX_TOKENS (λ total_chars, total_chars `quot` TOKENS_PER_MESSAGE_ESTIMATE)%Z.

(** [msg.get("content", "")] *)
Definition content_or_empty (msg : Message) : string :=
  default "" (msg_content msg).

(** [sum(len(msg.get("content", "")) for msg in messages)] *)
Definition total_chars (messages : list Message) : Z :=
  foldr (λ msg acc, Z.of_nat (String.length (content_or_empty msg)) + acc)%Z 0%Z messages.

Definition estimate_tokens (h : ConversationHistory) (messages : list Message) : Z :=
  tokens_of_chars h (total_chars messages).

(** Python slice bounds: a negative index counts from the end, and the
    result is clamped to [0, len]. *)
Definition slice_bound (i : Z) (len : nat) : nat :=
  if (i <? 0)%Z then Z.to_nat (Z.max 0 (Z.of_nat len + i))
  else Nat.min (Z.to_nat i) len.

(** [l[i:]] *)
Definition slice_from {A} (i : Z) (l : list A) : list A :=
  drop (slice_bound i (length l)) l.

(** [l[:i]] *)
Definition slice_to {A} (i : Z) (l : list A) : list A :=
  take (slice_bound i (length l)) l.

(** The [for msg in reversed(remaining_messages)] loop; [older] is the
    reversed list, [truncated] the accumulator; [break] returns it. *)
Fixpoint prepend_older (h : ConversationHistory)
    (older truncated : list Message) : list Message :=
  match older with
  | [] => truncated
  | msg :: older' =>
      let test_history := msg :: truncated in
      let tokens := estimate_tokens h test_history in
      if (tokens <=? max_tokens h)%Z
      then prepend_older h older' test_history
      else truncated
  end.

Definition truncate_to_fit (h : ConversationHistory)
    (messages : list Message) (keep_most_recent : Z) : list Message :=
  match messages with
  | [] => []
  | _ =>
      let total_tokens := estimate_tokens h messages in
      if (total_tokens <=? max_tokens h)%Z then messages
      else
        let longer := (Z.of_nat (length messages) >? keep_most_recent)%Z in
        let kept_messages :=
          if longer then slice_from (- keep_most_recent) messages else messages in
        let remaining_messages :=
          if longer then slice_to (- keep_most_recent) messages else [] in
        prepend_older h (reverse remaining_messages) kept_messages
  end.

(** [role not in ["user", "assistant"]] *)
Definition valid_role (role : option string) : bool :=
  bool_decide (role = Some "user") || bool_decide (role = Some "assistant").

(** [format_for_claude]: keeps the messages with a valid role, reduced to
    role and content (plus id and timestamp under [include_metadata]). *)
Fixpoint format_for_claude (messages : list Message) (include_metadata : bool)
    : list Message :=
  match messages with
  | [] => []
  | msg :: rest =>
      let role := msg_role msg in
      let content := content_or_empty msg in
      if negb (valid_role role) then format_for_claude rest include_metadata
      else
        let formatted_msg :=
          if include_metadata
          then mkMessage role (Some content) (msg_id msg) (msg_created_at msg)
          else mkMessage role (Some content) None None in
        formatted_msg :: format_for_claude rest include_metadata
  end.

(** How an f-string renders a role: the string itself, or [None]. *)
Definition show_role (role : option string) : string := default "None" role.

(** The [for idx, msg in enumerate(messages)] loop of
    [validate_alternation]; [None] means the loop ran to its end. *)
Fixpoint alternation_loop (idx : nat) (prev_role : option string)
    (messages : list Message) : option string :=
  match messages with
  | [] => None
  | msg :: rest =>
      let role := msg_role msg in
      if negb (valid_role role) then
        Some ("Invalid role '" +:+ show_role role +:+ "' at index " +:+ pretty idx)
      else if bool_decide (prev_role ≠ None) && bool_decide (role = prev_role) then
        Some ("Non-alternating roles at index " +:+ pretty idx +:+ ": "
              +:+ show_role prev_role +:+ " -> " +:+ show_role role)
      else alternation_loop (S idx) role rest
  end.

Definition validate_alternation (messages : list Message) : bool * option string :=
  match messages with
  | [] => (true, None)
  | first :: _ =>
      match alternation_loop 0 None messages with
      | Some err => (false, Some err)
      | None =>
          if bool_decide (msg_role first ≠ Some "user")
          then (false, Some "Conversation must start with user message")
          else (true, None)
      end
  end.

(** [prepare_for_api]; [keep_most_recent] is left at its default 10 by the
    call [self.truncate_to_fit(messages)]. *)
Definition prepare_for_api (h : ConversationHistory) (messages : list Message)
    (new_user_message : option string) (auto_truncate : bool)
    : exn + list Message :=
  let messages := if auto_truncate then truncate_to_fit h messages 10 else messages in
  let formatted := format_for_claude messages false in
  let formatted :=
    if truthy new_user_message
    then formatted ++ [mkMessage (Some "user") new_user_message None None]
    else formatted in
  match validate_alternation formatted with
  | (true, _) => inr formatted
  | (false, error) =>
      inl (ValueError ("Invalid message sequence: " +:+ default "None" error))
  end.

(** The property of the specification, stated without reference to the
    validator: the roles read user, assistant, user, ... *)
Fixpoint alternates_from (expected : string) (messages : list Message) : Prop :=
  match messages with
  | [] => True
  | msg :: rest =>
      msg_role msg = Some expected ∧
      alternates_from (if String.eqb expected "user" then "assistant" else "user") rest
  end.

Definition strictly_alternates (messages : list Message) : Prop :=
  alternates_from "user" messages.

End History.

(** ** Tool handlers ([src/tools/*.py]) *)

Module Tools.

(** [bool(x)] for a dict: the empty dict is falsy. *)
Definition dict_truthy (d : option dict) : bool :=
  match d with
  | Some (_ :: _) => true
  | _ => false
  end.

(** [session_context.get(key)], read as a string.  Session contexts carry
    [user_id] and [application_id] as strings; an absent key, [None], or a
    value of another type is read as [None]. *)
Definition ctx_get (key : string) (session_context : option dict) : option string :=
  match session_context with
  | Some d => match dict_get key d with Some (VStr s) => Some s | _ => None end
  | None => None
  end.

(** Modelled from the spec: the SQL schema is not among the sources, and the
    handlers disagree on column names ([module_name]/[field_name]/
    [field_value] in [update_module], [module_number]/[field_id]/[value] in
    [request_audit] and [certify_application]; [ocr_status] in
    [extract_fields], [extraction_status] elsewhere).  Following the data
    model of the specification, a module field has one module attribute
    (number, with the name derived from it by [MODULE_NAMES]), one field
    identifier and one value; a document has one extraction status and one
    metadata object.  SQL [NULL] in a JSONB column is [VNone] in a module
    value and [None] in the metadata of a document. *)
Record Application := mkApplication {
  app_user_id : string;
  app_status : string;
  app_certification_type : string;
  app_notes : option string;
  app_updated_at : string
}.

Record Document := mkDocument {
  doc_id : string;
  doc_application_id : string;
  doc_document_type : string;
  doc_file_name : string;
  doc_extraction_status : option string;
  doc_metadata : option dict
}.

Record ModuleField := mkModuleField {
  mf_id : Z;
  mf_application_id : string;
  mf_module_number : Z;
  mf_field_id : string;
  mf_value : value;
  mf_data_source : string;
  mf_confidence_score : Q;
  mf_updated_at : string
}.

Record AuditEntry := mkAuditEntry {
  at_application_id : string;
  at_user_id : string;
  at_action : string;
  at_field_id : option string;
  at_new_value : string;
  at_created_at : string
}.

(** The store: [applications] by primary key, the other tables as row
    lists in storage order ([fetchrow] returns the first match). *)
Record Store := mkStore {
  applications : gmap string Application;
  documents : list Document;
  module_data : list ModuleField;
  audit_trail : list AuditEntry
}.

Definition set_applications (apps : gmap string Application) (st : Store) : Store :=
  mkStore apps (documents st) (module_data st) (audit_trail st).
Definition set_documents (docs : list Document) (st : Store) : Store :=
  mkStore (applications st) docs (module_data st) (audit_trail st).
Definition set_module_data (rows : list ModuleField) (st : Store) : Store :=
  mkStore (applications st) (documents st) rows (audit_trail st).
Definition set_audit_trail (entries : list AuditEntry) (st : Store) : Store :=
  mkStore (applications st) (documents st) (module_data st) entries.

(** [UPDATE applications SET updated_at = NOW() WHERE id = $1] *)
Definition touch_application (now : string) (id : string) (st : Store) : Store :=
  set_applications
    (alter (λ a, mkApplication (app_user_id a) (app_status a)
                   (app_certification_type a) (app_notes a) now) id (applications st))
    st.

Definition error_payload (code message : string) : dict :=
  [("error", VStr code); ("message", VStr message)].

(** [status in ["approved", "rejected"]] *)
Definition is_terminal (status : string) : bool :=
  String.eqb status "approved" || String.eqb status "rejected".

(** The common prologue: explicit argument, else the session's
    application.  [None] stands for a falsy result. *)
Definition resolve_application_id (application_id : option string)
    (session_context : option dict) : option string :=
  let target_application_id := application_id in
  let target_application_id :=
    if negb (truthy target_application_id) && dict_truthy session_context
    then ctx_get "application_id" session_context
    else target_application_id in
  if truthy target_application_id then target_application_id else None.

(** [user_id and str(app_row["user_id"]) != user_id] *)
Definition not_owner (user_id : option string) (app_row : Application) : bool :=
  truthy user_id && negb (bool_decide (Some (app_user_id app_row) = user_id)).

(** *** update_module *)

Definition MODULE_NAMES : list (Z * string) :=
  [(1, "financial"); (2, "compliance"); (3, "operations");
   (4, "sustainability"); (5, "risk")]%Z.

Definition module_name_of (module_number : Z) : option string :=
  snd <$> List.find (λ p, Z.eqb (fst p) module_number) MODULE_NAMES.

(** The key of a module field row. *)
Definition has_key (application_id : string) (module_number : Z)
    (field_id : string) (row : ModuleField) : bool :=
  String.eqb (mf_application_id row) application_id
  && Z.eqb (mf_module_number row) module_number
  && String.eqb (mf_field_id row) field_id.

(** The id that the database gives to an inserted row: one not in use. *)
Definition next_id (rows : list ModuleField) : Z :=
  foldr (λ row acc, Z.max (mf_id row + 1) acc) 1%Z rows.

(** Python truthiness of a stored value, for ['updated' if old_value]. *)
Definition value_truthy (v : value) : bool :=
  match v with
  | VNone => false
  | VBool b => b
  | VInt z => negb (Z.eqb z 0)
  | VFloat q => negb (Qeq_bool q 0)
  | VStr s => negb (String.eqb s "")
  | VList l => match l with [] => false | _ => true end
  | VDict d => match d with [] => false | _ => true end
  end.

Definition update_module (now : string) (module_number : Z)
    (field_id value : string) (application_id : option string)
    (session_context : option dict) (st : Store) : dict * Store :=
  match module_name_of module_number with
  | None =>
      (error_payload "invalid_module"
         ("Module number must be between 1 and 5. Got: " +:+ pretty module_number), st)
  | Some module_name =>
  match resolve_application_id application_id session_context with
  | None =>
      (error_payload "application_id_required"
         "No application_id provided and no application linked to current session. Please provide an application_id or link an application to this conversation.", st)
  | Some target_application_id =>
  let user_id := if dict_truthy session_context
                 then ctx_get "user_id" session_context else None in
  match applications st !! target_application_id with
  | None =>
      (error_payload "application_not_found"
         ("Application " +:+ target_application_id +:+ " not found."), st)
  | Some app_row =>
  if not_owner user_id app_row then
    (error_payload "unauthorized"
       "You do not have permission to update this application.", st)
  else if is_terminal (app_status app_row) then
    (error_payload "application_locked"
       ("Cannot update fields in a " +:+ app_status app_row
        +:+ " application. Application is locked."), st)
  else
    let existing_row :=
      List.find (has_key target_application_id module_number field_id)
                (module_data st) in
    let '(old_value, data_source, rows) :=
      match existing_row with
      | Some row =>
          (mf_value row, "proxy_edited",
           (λ r, if Z.eqb (mf_id r) (mf_id row)
                 then mkModuleField (mf_id r) (mf_application_id r)
                        (mf_module_number r) (mf_field_id r)
                        (VStr value) "proxy_edited" 1%Q now
                 else r) <$> module_data st)
      | None =>
          (VNone, "proxy_entered",
           module_data st ++
           [mkModuleField (next_id (module_data st)) target_application_id
              module_number field_id (VStr value) "proxy_entered" 1%Q now])
      end in
    let st := set_module_data rows st in
    let st := touch_application now target_application_id st in
    ([("success", VBool true);
      ("field_id", VStr field_id);
      ("module_name", VStr module_name);
      ("module_number", VInt module_number);
      ("old_value", old_value);
      ("new_value", VStr value);
      ("data_source", VStr data_source);
      ("message",
       VStr ("Successfully "
             +:+ (if value_truthy old_value then "updated" else "created")
             +:+ " field '" +:+ field_id +:+ "' in " +:+ module_name
             +:+ " module (Module " +:+ pretty module_number +:+ ")."))],
     st)
  end end end.

(** *** request_audit *)

(** [bool(field_ids)]: [None] and the empty list are falsy. *)
Definition list_truthy {A} (l : option (list A)) : bool :=
  match l with
  | Some (_ :: _) => true
  | _ => false
  end.

(** The double quote, for the texts of PostgreSQL. *)
Definition DQ : string := String (Ascii.ascii_of_nat 34) EmptyString.

(** The document [UPDATE] assigns [metadata] three times in one [SET].
    PostgreSQL refuses such a statement when it is prepared, whatever the
    row: [fetchrow] raises an [asyncpg.PostgresError] with this text and no
    document is changed. *)
Definition update_doc_query_error : string :=
  "multiple assignments to same column " +:+ DQ +:+ "metadata" +:+ DQ.

(** The field [UPDATE] hands [$1] and [$2] to [jsonb_build_object], whose
    arguments may be of any type: the types of the two parameters cannot be
    determined, so this statement cannot be prepared either, whatever the
    stored value: [fetchrow] raises an [asyncpg.PostgresError] with this
    text and no row is changed. *)
Definition update_field_query_error : string :=
  "could not determine data type of parameter $1".

(** The payload of [except asyncpg.PostgresError]. *)
Definition database_error (e : string) : dict :=
  error_payload "database_error"
    ("Database error while flagging items for audit: " +:+ e).

(** [for field_id in field_ids]: a name without a row is passed over; at
    the first name with a row the [UPDATE] raises.  [inl] carries the text
    of the exception. *)
Fixpoint flag_fields (target_application_id : string) (rows : list ModuleField)
    (field_ids : list string) : string + unit :=
  match field_ids with
  | [] => inr tt
  | field_id :: rest =>
      let field_row :=
        List.find (λ r, String.eqb (mf_application_id r) target_application_id
                        && String.eqb (mf_field_id r) field_id) rows in
      match field_row with
      | Some _ => inl update_field_query_error
      | None => flag_fields target_application_id rows rest
      end
  end.

(** Every statement runs on its own through the pool, outside a
    transaction; the two [UPDATE]s that fail are the first writes of the
    call, so a call that ends in [database_error] has written nothing. *)
Definition request_audit (now : string) (reason : string)
    (application_id document_id : option string)
    (field_ids : option (list string))
    (session_context : option dict) (st : Store) : dict * Store :=
  match resolve_application_id application_id session_context with
  | None =>
      (error_payload "application_id_required"
         "No application_id provided and no application linked to current session. Please provide an application_id or link an application to this conversation.", st)
  | Some target_application_id =>
  if negb (truthy document_id) && negb (list_truthy field_ids) then
    (error_payload "no_targets_specified"
       "Must specify either document_id or field_ids (or both) to flag for audit.", st)
  else
  let user_id := if dict_truthy session_context
                 then ctx_get "user_id" session_context else None in
  match applications st !! target_application_id with
  | None =>
      (error_payload "application_not_found"
         ("Application " +:+ target_application_id +:+ " not found."), st)
  | Some app_row =>
  if not_owner user_id app_row then
    (error_payload "unauthorized"
       "You do not have permission to flag items in this application.", st)
  else
    (* Flag document if specified *)
    let doc_step : dict + unit :=
      if truthy document_id then
        let did := default "" document_id in
        let doc_row :=
          List.find (λ d, String.eqb (doc_id d) did
                          && String.eqb (doc_application_id d) target_application_id)
                    (documents st) in
        match doc_row with
        | None =>
            inl (error_payload "document_not_found"
                   ("Document " +:+ did +:+ " not found in application "
                    +:+ target_application_id +:+ "."))
        | Some _ => inl (database_error update_doc_query_error)
        end
      else inr tt in
    match doc_step with
    | inl err => (err, st)
    | inr _ =>
    (* Flag fields if specified *)
    let field_step :=
      if list_truthy field_ids
      then flag_fields target_application_id (module_data st) (default [] field_ids)
      else inr tt in
    match field_step with
    | inl e => (database_error e, st)
    | inr _ =>
    (* Reached with no document named and no named field stored. *)
    let flagged_fields_count := 0%Z in
    let flagged_document := false in
    let audit_details : list string := [] in
    (* Create audit trail entry *)
    let st3 :=
      match user_id with
      | Some uid =>
          if truthy user_id then
            let field_list :=
              if list_truthy field_ids
              then Some (join ", " (default [] field_ids)) else None in
            set_audit_trail
              (audit_trail st ++
               [mkAuditEntry target_application_id uid "audit_requested"
                  field_list reason now]) st
          else st
      | None => st
      end in
    let st4 := touch_application now target_application_id st3 in
    ([("success", VBool true);
      ("flagged_fields_count", VInt flagged_fields_count);
      ("flagged_document", VBool flagged_document);
      ("reason", VStr reason);
      ("details", VList (VStr <$> audit_details));
      ("message",
       VStr ("Successfully flagged " +:+ pretty flagged_fields_count
             +:+ " field(s) and " +:+ (if flagged_document then "1" else "0")
             +:+ " document(s) for manual audit review. Reason: " +:+ reason))],
     st4)
    end
    end
  end end.

(** *** certify_application *)

(** [doc_status_dict.get(status, 0)]: the number of the application's
    documents in that extraction status (the [GROUP BY] count). *)
Definition doc_status_count (target_application_id status : string)
    (docs : list Document) : nat :=
  length (filter (λ d, doc_application_id d = target_application_id
                       ∧ doc_extraction_status d = Some status) docs).

(** [SELECT DISTINCT module_number ... ORDER BY module_number], as far as
    membership goes. *)
Definition module_numbers (target_application_id : string)
    (rows : list ModuleField) : list Z :=
  mf_module_number <$>
    filter (λ r, mf_application_id r = target_application_id) rows.

Definition required_modules : list Z := [1; 2; 3; 4; 5]%Z.

Definition module_names : list (Z * string) :=
  [(1, "Financial Information"); (2, "Compliance Records");
   (3, "Operations Data"); (4, "Sustainability Practices");
   (5, "Risk Management")]%Z.

Definition module_title (m : Z) : string :=
  default "" (snd <$> List.find (λ p, Z.eqb (fst p) m) module_names).

(** The [WHERE] clause of the flagged-fields count: the value is an object
    whose [_audit_flagged] reads as the text [true] (a JSON [true] or the
    string ["true"]), or contains [{"_audit_flagged": true}]. *)
Definition audit_flagged (v : value) : bool :=
  match v with
  | VDict d =>
      match dict_get "_audit_flagged" d with
      | Some (VBool true) => true
      | Some (VStr s) => String.eqb s "true"
      | _ => false
      end
  | _ => false
  end.

Definition flagged_count (target_application_id : string)
    (rows : list ModuleField) : nat :=
  length (filter (λ r, mf_application_id r = target_application_id
                       ∧ audit_flagged (mf_value r) = true) rows).

Definition total_docs (target_application_id : string)
    (docs : list Document) : nat :=
  length (filter (λ d, doc_application_id d = target_application_id) docs).

(** Check 1: the three document statuses that block certification. *)
Definition document_failures (target_application_id : string) (st : Store)
    : list string :=
  let pending := doc_status_count target_application_id "pending" (documents st) in
  let processing := doc_status_count target_application_id "processing" (documents st) in
  let error := doc_status_count target_application_id "error" (documents st) in
  (if (0 <? pending)%nat
   then [pretty pending +:+ " document(s) still pending processing"] else [])
  ++ (if (0 <? processing)%nat
      then [pretty processing +:+ " document(s) currently being processed"] else [])
  ++ (if (0 <? error)%nat
      then [pretty error +:+ " document(s) failed processing"] else []).

(** Check 2 *)
Definition missing_modules (target_application_id : string) (st : Store) : list Z :=
  filter (λ m, m ∉ module_numbers target_application_id (module_data st))
         required_modules.

Definition module_failures (target_application_id : string) (st : Store)
    : list string :=
  match missing_modules target_application_id st with
  | [] => []
  | missing =>
      let missing_names :=
        (λ m, "Module " +:+ pretty m +:+ " (" +:+ module_title m +:+ ")") <$> missing in
      ["Missing required modules: " +:+ join ", " missing_names]
  end.

(** Check 3 *)
Definition flagged_failures (target_application_id : string) (st : Store)
    : list string :=
  let flagged := flagged_count target_application_id (module_data st) in
  if (0 <? flagged)%nat
  then [pretty flagged
        +:+ " field(s) flagged for audit - must be reviewed before certification"]
  else [].

(** Check 4 *)
Definition upload_failures (target_application_id : string) (st : Store)
    : list string :=
  if (total_docs target_application_id (documents st) =? 0)%nat
  then ["No documents uploaded - at least one document is required"]
  else [].

(** The list built by the successive [validation_failures.append] calls. *)
Definition validation_failures (target_application_id : string) (st : Store)
    : list string :=
  document_failures target_application_id st
  ++ module_failures target_application_id st
  ++ flagged_failures target_application_id st
  ++ upload_failures target_application_id st.

Definition certify_application (now : string) (certification_confirmed : bool)
    (application_id : option string) (session_context : option dict)
    (st : Store) : dict * Store :=
  if negb certification_confirmed then
    (error_payload "confirmation_required"
       "Certification requires explicit confirmation. Set certification_confirmed=true to proceed. This action is irreversible and will lock the application.", st)
  else
  match resolve_application_id application_id session_context with
  | None =>
      (error_payload "application_id_required"
         "No application_id provided and no application linked to current session.", st)
  | Some target_application_id =>
  let user_id := if dict_truthy session_context
                 then ctx_get "user_id" session_context else None in
  match applications st !! target_application_id with
  | None =>
      (error_payload "application_not_found"
         ("Application " +:+ target_application_id +:+ " not found."), st)
  | Some app_row =>
  if not_owner user_id app_row then
    (error_payload "unauthorized"
       "You do not have permission to certify this application.", st)
  else if is_terminal (app_status app_row) then
    (error_payload "already_certified"
       ("Application is already " +:+ app_status app_row
        +:+ " and cannot be re-certified."), st)
  else
  match validation_failures target_application_id st with
  | (_ :: _) as failures =>
      ([("error", VStr "validation_failed");
        ("message", VStr "Application does not meet certification requirements. Please resolve the following issues:");
        ("validation_failures", VList (VStr <$> failures));
        ("application_id", VStr target_application_id);
        ("current_status", VStr (app_status app_row))], st)
  | [] =>
      let certified_at := now in
      (* Update application status to approved *)
      let updated_app :=
        mkApplication (app_user_id app_row) "approved"
          (app_certification_type app_row)
          (Some (default "" (app_notes app_row)
                 +:+ LF +:+ LF +:+ "Certified at: " +:+ certified_at))
          certified_at in
      let st1 :=
        set_applications (<[target_application_id := updated_app]> (applications st)) st in
      (* Create audit trail entry *)
      let st2 :=
        match user_id with
        | Some uid =>
            if truthy user_id then
              set_audit_trail
                (audit_trail st1 ++
                 [mkAuditEntry target_application_id uid "application_certified"
                    None
                    ("Application certified for " +:+ app_certification_type app_row)
                    certified_at]) st1
            else st1
        | None => st1
        end in
      let pdf_url :=
        "/api/applications/" +:+ target_application_id +:+ "/certificate.pdf" in
      ([("success", VBool true);
        ("application_id", VStr target_application_id);
        ("status", VStr (app_status updated_app));
        ("certification_type", VStr (app_certification_type app_row));
        ("certified_at", VStr certified_at);
        ("pdf_url", VStr pdf_url);
        ("message",
         VStr ("Application successfully certified and locked. Status: "
               +:+ app_status updated_app
               +:+ ". Certificate PDF will be generated and available at "
               +:+ pdf_url));
        ("note", VStr "This application is now locked and cannot be edited. It has entered the final review queue.")],
       st2)
  end
  end end.

(** *** extract_fields *)

(** The pool is created without a JSON codec ([DatabaseClient.connect]),
    so a JSONB column arrives in Python as its text: [extraction_metadata]
    is [None] for [NULL] and otherwise a non-empty [str], which is truthy
    whatever it holds (the empty object included) and has no [get]. *)
Definition text_truthy (column : option dict) : bool :=
  match column with
  | Some _ => true
  | None => false
  end.

(** The payload of [except Exception], and the text of the
    [AttributeError] that [extraction_metadata.get] raises. *)
Definition internal_error (e : string) : dict :=
  error_payload "internal_error" ("Unexpected error: " +:+ e).

Definition str_has_no_get : string := "'str' object has no attribute 'get'".

Definition extract_fields (document_id : string)
    (field_hints : option (list string)) (session_context : option dict)
    (st : Store) : dict * Store :=
  (* documents d JOIN applications a ON a.id = d.application_id *)
  let document :=
    List.find (λ d, String.eqb (doc_id d) document_id
                    && bool_decide (is_Some (applications st !! doc_application_id d)))
              (documents st) in
  match document with
  | None =>
      (error_payload "document_not_found"
         ("Document " +:+ document_id +:+ " not found."), st)
  | Some document =>
  let owner := default "" (app_user_id <$> applications st !! doc_application_id document) in
  let user_id := if dict_truthy session_context
                 then ctx_get "user_id" session_context else None in
  if truthy user_id && negb (bool_decide (Some owner = user_id)) then
    (error_payload "unauthorized"
       "You do not have permission to access this document.", st)
  else
  let ocr_status := doc_extraction_status document in
  let extraction_metadata := doc_metadata document in
  if bool_decide (ocr_status = Some "completed") && text_truthy extraction_metadata then
    (* extraction_metadata.get("fields", []) raises *)
    (internal_error str_has_no_get, st)
  else if bool_decide (ocr_status = Some "processing") then
    ([("document_id", VStr (doc_id document));
      ("file_name", VStr (doc_file_name document));
      ("ocr_status", VStr "processing");
      ("message", VStr "Document is currently being processed. Please check back in a few moments.");
      ("estimated_time", VStr "30-60 seconds")], st)
  else if bool_decide (ocr_status = Some "failed") then
    if text_truthy extraction_metadata then
      (* extraction_metadata.get("error") raises *)
      (internal_error str_has_no_get, st)
    else
      let error_message := "Unknown error" in
      ([("error", VStr "ocr_failed");
        ("message", VStr ("OCR processing failed for this document: " +:+ error_message));
        ("document_id", VStr (doc_id document));
        ("file_name", VStr (doc_file_name document))], st)
  else if bool_decide (ocr_status = Some "pending") || bool_decide (ocr_status = None) then
    (* UPDATE documents SET ocr_status = 'processing' WHERE id = $1 *)
    let st' :=
      set_documents
        ((λ d, if String.eqb (doc_id d) document_id
               then mkDocument (doc_id d) (doc_application_id d)
                      (doc_document_type d) (doc_file_name d)
                      (Some "processing") (doc_metadata d)
               else d) <$> documents st) st in
    ([("document_id", VStr (doc_id document));
      ("file_name", VStr (doc_file_name document));
      ("ocr_status", VStr "processing");
      ("message", VStr "Document processing has been initiated. This typically takes 30-60 seconds.");
      ("action_required", VStr "poll_for_completion");
      ("estimated_time", VStr "30-60 seconds");
      ("field_hints", VList (VStr <$> (if list_truthy field_hints
                                       then default [] field_hints else [])));
      ("note", VStr "In production, this would integrate with Docling OCR service. For now, this is a stub implementation.")],
     st')
  else
    (error_payload "unknown_status"
       ("Document has unknown OCR status: " +:+ default "None" ocr_status), st)
  end.

End Tools.

(** ** Tool registry ([src/tools/registry.py]) *)

Module Registry.
Import Tools.

(** What awaiting a handler does: it returns a payload or raises. *)
Inductive Outcome : Type :=
| Returns (result : dict)
| Raises (e : exn).

(** A registered handler, called with the entries of [tool_input] as
    keyword arguments, and with [session_context=session_context] when the
    context is truthy: the second argument is the keyword dict, the third
    the session context when the registry passes one.  The first argument
    is the handler's clock. *)
Definition Handler : Type :=
  string → dict → option dict → Store → Outcome * Store.

Record Tool := mkTool {
  handler : Handler;
  definition : dict
}.

(** [self._tools], in insertion order. *)
Abbreviation ToolRegistry := (list (string * Tool)).

(** [self._tools.get(tool_name)] *)
Fixpoint get_tool (tool_name : string) (tools : ToolRegistry) : option Tool :=
  match tools with
  | [] => None
  | (name, tool) :: rest =>
      if String.eqb tool_name name then Some tool else get_tool tool_name rest
  end.

(** [register_tool]: raises [ValueError] on a definition without name or
    input schema or with another name; else stores the tool, overwriting
    in place an earlier registration.  A definition name that is not a
    string differs from every registry name; the message then omits it. *)
Fixpoint store_tool (name : string) (tool : Tool) (tools : ToolRegistry) : ToolRegistry :=
  match tools with
  | [] => [(name, tool)]
  | (name', tool') :: rest =>
      if String.eqb name name' then (name, tool) :: rest
      else (name', tool') :: store_tool name tool rest
  end.

Definition register_tool (name : string) (h : Handler) (defn : dict)
    (tools : ToolRegistry) : exn + ToolRegistry :=
  if negb (dict_has "name" defn) || negb (dict_has "input_schema" defn) then
    inl (ValueError ("Invalid tool definition for '" +:+ name
                     +:+ "': missing name or input_schema"))
  else
    match dict_get "name" defn with
    | Some (VStr n) =>
        if String.eqb n name then inr (store_tool name (mkTool h defn) tools)
        else inl (ValueError ("Tool name mismatch: registry name '" +:+ name
                              +:+ "' vs definition name '" +:+ n +:+ "'"))
    | _ => inl (ValueError ("Tool name mismatch: registry name '" +:+ name
                            +:+ "' vs definition name"))
    end.

(** The clock readings of one [execute_tool] call: [time.time()] at the
    start and when the result is built, the handler's own clock, and
    [datetime.utcnow().isoformat()]. *)
Record Clock := mkClock {
  start_time : Q;
  end_time : Q;
  handler_now : string;
  utc_now : string
}.

(** [str(e)] *)
Definition exn_message (e : exn) : string :=
  match e with
  | ValueError m | RuntimeError m | TypeError m | OtherError m => m
  end.

Definition execute_tool (tools : ToolRegistry) (clock : Clock)
    (tool_name : string) (tool_input : dict) (session_context : option dict)
    (st : Store) : dict * Store :=
  let elapsed := VFloat (end_time clock - start_time clock)%Q in
  match get_tool tool_name tools with
  | None =>
      ([("success", VBool false);
        ("error",
         VDict [("type", VStr "tool_not_found");
                ("message", VStr ("Tool '" +:+ tool_name +:+ "' not found in registry"));
                ("available_tools", VList (VStr <$> dict_keys tools))]);
        ("execution_time", elapsed);
        ("tool_name", VStr tool_name)], st)
  | Some tool =>
      let tool_handler := handler tool in
      let awaited :=
        if dict_truthy session_context
        then tool_handler (handler_now clock) tool_input session_context st
        else tool_handler (handler_now clock) tool_input None st in
      match awaited with
      | (Returns result, st') =>
          ([("success", VBool (negb (dict_has "error" result)));
            ("result", VDict result);
            ("execution_time", elapsed);
            ("tool_name", VStr tool_name);
            ("timestamp", VStr (utc_now clock))], st')
      | (Raises (TypeError e), st') =>
          ([("success", VBool false);
            ("error",
             VDict [("type", VStr "invalid_input");
                    ("message", VStr ("Invalid input parameters for tool '"
                                      +:+ tool_name +:+ "': " +:+ e));
                    ("details", VStr e)]);
            ("execution_time", elapsed);
            ("tool_name", VStr tool_name);
            ("timestamp", VStr (utc_now clock))], st')
      | (Raises e, st') =>
          ([("success", VBool false);
            ("error",
             VDict [("type", VStr "execution_error");
                    ("message", VStr ("Unexpected error executing tool '"
                                      +:+ tool_name +:+ "': " +:+ exn_message e));
                    ("details", VStr (exn_message e))]);
            ("execution_time", elapsed);
            ("tool_name", VStr tool_name);
            ("timestamp", VStr (utc_now clock))], st')
      end
  end.

(** Binding the keyword arguments of a call to a signature with the given
    required and optional parameter names (all handlers also accept
    [session_context]).  The result is the [TypeError] message, if any. *)
Definition quoted (name : string) : string := "'" +:+ name +:+ "'".

Fixpoint missing_list_tail (names : list string) : string :=
  match names with
  | [] => ""
  | [a] => "and " +:+ quoted a
  | a :: rest => quoted a +:+ ", " +:+ missing_list_tail rest
  end.

Definition missing_list (names : list string) : string :=
  match names with
  | [] => ""
  | [a] => quoted a
  | [a; b] => quoted a +:+ " and " +:+ quoted b
  | names => missing_list_tail names
  end.

Definition bind_error (fname : string) (required optional : list string)
    (kwargs : dict) (passed_context : option dict) : option string :=
  if bool_decide (is_Some passed_context) && dict_has "session_context" kwargs then
    Some (fname +:+ "() got multiple values for keyword argument 'session_context'")
  else
    let accepted := required ++ optional ++ ["session_context"] in
    match filter (λ k, k ∉ accepted) (dict_keys kwargs) with
    | k :: _ => Some (fname +:+ "() got an unexpected keyword argument " +:+ quoted k)
    | [] =>
        match filter (λ r, dict_has r kwargs = false) required with
        | [] => None
        | [r] => Some (fname +:+ "() missing 1 required positional argument: "
                       +:+ quoted r)
        | missing =>
            Some (fname +:+ "() missing " +:+ pretty (length missing)
                  +:+ " required positional arguments: " +:+ missing_list missing)
        end
    end.

(** A JSON argument read at the type the tool schema declares for it. *)
Definition as_string (v : option value) : option string :=
  match v with Some (VStr s) => Some s | _ => None end.

Definition as_dict (v : option value) : option dict :=
  match v with Some (VDict d) => Some d | _ => None end.

(** [certify_application] as the registry calls it.  The handler only tests
    the truthiness of [certification_confirmed]; an [application_id] that
    is not a string is read as absent. *)
Definition call_certify_application : Handler :=
  λ now kwargs passed_context st,
    match bind_error "certify_application" ["certification_confirmed"]
            ["application_id"] kwargs passed_context with
    | Some e => (Raises (TypeError e), st)
    | None =>
        let session_context :=
          match passed_context with
          | Some c => Some c
          | None => as_dict (dict_get "session_context" kwargs)
          end in
        let '(result, st') :=
          certify_application now
            (value_truthy (default VNone (dict_get "certification_confirmed" kwargs)))
            (as_string (dict_get "application_id" kwargs))
            session_context st in
        (Returns result, st')
    end.

(** The part of [TOOL_DEFINITION] that registration looks at. *)
Definition certify_application_definition : dict :=
  [("name", VStr "certify_application");
   ("input_schema",
    VDict [("type", VStr "object");
           ("required", VList [VStr "certification_confirmed"])])].

End Registry.

(** ** LLM client and tool loop ([src/claude/client.py]) *)

Module Client.

Record ClaudeClient := mkClient {
  model : string;
  max_tokens : Z;
  temperature : Q
}.

Definition DEFAULT_MODEL : string := "claude-sonnet-4-5".
Definition DEFAULT_MAX_TOKENS : Z := 4096.
Definition DEFAULT_TEMPERATURE : Q := 1.

(** Python type names, for the messages of [AttributeError] and [TypeError]. *)
Definition type_name (v : value) : string :=
  match v with
  | VNone => "NoneType"
  | VBool _ => "bool"
  | VInt _ => "int"
  | VFloat _ => "float"
  | VStr _ => "str"
  | VList _ => "list"
  | VDict _ => "dict"
  end.

Section WithTransport.

(** The outside world: [http_post w body] stands for
    [self.http_client.post("/v1/messages", json=body)], then
    [raise_for_status()] and [json()]; it yields the decoded reply or the
    exception raised, and the next state of the world.  [py_str] is
    Python's [str()] on a JSON value. *)
Context {W : Type}.
Variable http_post : W → dict → (exn + dict) * W.
Variable py_str : value → string.

(** [send_message], as called without extra keyword arguments. *)
Definition send_message (self : ClaudeClient) (w : W) (message : value)
    (system : option string) (tools : option (list value)) : (exn + dict) * W :=
  let messages := VList [VDict [("role", VStr "user"); ("content", message)]] in
  let request_body :=
    [("model", VStr (model self));
     ("max_tokens", VInt (max_tokens self));
     ("messages", messages)] in
  let request_body :=
    if truthy system
    then request_body ++ [("system", VStr (default "" system))] else request_body in
  let request_body :=
    if Tools.list_truthy tools
    then request_body ++ [("tools", VList (default [] tools))] else request_body in
  let request_body := request_body ++ [("temperature", VFloat (temperature self))] in
  http_post w request_body.

(** [_execute_tool] *)
Definition _execute_tool (tool_name tool_input : value) : string :=
  "Tool " +:+ py_str tool_name +:+ " executed with input: " +:+ py_str tool_input.

(** [[block for block in response.get("content", []) if block.get("type")
    == "tool_use"]]: a block that is not a dict has no [get]. *)
Fixpoint select_tool_uses (blocks : list value) : exn + list dict :=
  match blocks with
  | [] => inr []
  | VDict block :: rest =>
      match select_tool_uses rest with
      | inl e =>
          inl e
      | inr found =>
          if is_str (dict_get "type" block) "tool_use"
          then inr (block :: found) else inr found
      end
  | v :: _ =>
      inl (OtherError ("'" +:+ type_name v +:+ "' object has no attribute 'get'"))
  end.

Definition tool_uses_of (response : dict) : exn + list dict :=
  match default (VList []) (dict_get "content" response) with
  | VList blocks => select_tool_uses blocks
  | VStr s =>
      if String.eqb s "" then inr []
      else inl (OtherError "'str' object has no attribute 'get'")
  | VDict d =>
      match d with
      | [] => inr []
      | _ => inl (OtherError "'str' object has no attribute 'get'")
      end
  | v => inl (TypeError ("'" +:+ type_name v +:+ "' object is not iterable"))
  end.

Definition tool_result_of (tool_use : dict) : value :=
  let result :=
    _execute_tool (default VNone (dict_get "name" tool_use))
                  (default (VDict []) (dict_get "input" tool_use)) in
  VDict [("type", VStr "tool_result");
         ("tool_use_id", default VNone (dict_get "id" tool_use));
         ("content", VStr result)].

(** [messages[-1]["content"]] *)
Definition last_content (messages : list dict) : value :=
  default VNone (last messages ≫= dict_get "content").

(** The messages appended after a tool-use reply. *)
Definition tool_turn (response : dict) (tool_uses : list dict) : list dict :=
  [[("role", VStr "assistant");
    ("content", default VNone (dict_get "content" response))];
   [("role", VStr "user");
    ("content", VList (tool_result_of <$> tool_uses))]].

(** [for iteration in range(max_iterations)], with the [raise] that
    follows the loop. *)
Fixpoint tool_loop (self : ClaudeClient) (max_iterations : Z) (remaining : nat)
    (w : W) (messages : list dict) (tools : list value) (system : option string)
    : (exn + dict) * W :=
  match remaining with
  | O =>
      (inl (RuntimeError ("Tool execution loop exceeded max iterations: "
                          +:+ pretty max_iterations)), w)
  | S remaining' =>
      match send_message self w (last_content messages) system (Some tools) with
      | (inl e, w') => (inl e, w')
      | (inr response, w') =>
          if is_str (dict_get "stop_reason" response) "tool_use"
          then
            match tool_uses_of response with
            | inl e => (inl e, w')
            | inr tool_uses =>
                tool_loop self max_iterations remaining' w'
                  (messages ++ tool_turn response tool_uses) tools system
            end
          else (inr response, w')
      end
  end.

Definition execute_with_tools (self : ClaudeClient) (w : W) (message : string)
    (tools : list value) (system : option string) (max_iterations : Z)
    : (exn + dict) * W :=
  let messages := [[("role", VStr "user"); ("content", VStr message)]] in
  tool_loop self max_iterations (Z.to_nat max_iterations) w messages tools system.

(** [k] consecutive tool-use rounds, from world [w] and conversation
    [messages] to world [w'] and conversation [messages']: each request is
    answered by a reply whose stop reason is [tool_use]. *)
Inductive tool_rounds (self : ClaudeClient) (tools : list value)
    (system : option string)
    : nat → W → list dict → W → list dict → Prop :=
| rounds_done w messages :
    tool_rounds self tools system 0 w messages w messages
| rounds_more k w messages response tool_uses w1 w' messages' :
    send_message self w (last_content messages) system (Some tools)
      = (inr response, w1) →
    is_str (dict_get "stop_reason" response) "tool_use" = true →
    tool_uses_of response = inr tool_uses →
    tool_rounds self tools system k w1
      (messages ++ tool_turn response tool_uses) w' messages' →
    tool_rounds self tools system (S k) w messages w' messages'.

End WithTransport.

End Client.

(** ** Scenarios used in the examples below *)

Module Scenarios.
Import Tools.

Definition now : string := "2024-06-01T12:00:00".
Definition later : string := "2024-06-02T09:00:00".

Definition session : option dict :=
  Some [("user_id", VStr "user-1"); ("application_id", VStr "app-1")].

Definition application (status : string) : Application :=
  mkApplication "user-1" status "organic" None "2024-05-01T10:00:00".

Definition field (id module_number : Z) (field_id : string) (v : value) : ModuleField :=
  mkModuleField id "app-1" module_number field_id v "ocr_extracted" (9 # 10)
    "2024-05-01T10:00:00".

Definition document (id status : string) : Document :=
  mkDocument id "app-1" "tax_return" (id +:+ ".pdf") (Some status) None.

Definition five_modules : list ModuleField :=
  [field 1 1 "total_revenue" (VStr "125000");
   field 2 2 "license_number" (VStr "L-77");
   field 3 3 "farm_size_hectares" (VStr "40");
   field 4 4 "water_source" (VStr "well");
   field 5 5 "insurance_provider" (VStr "Acme")].

(** Modules 4 and 5 missing, one pending document, one flagged field. *)
Definition incomplete_store : Store :=
  mkStore {[ "app-1" := application "in_progress" ]}
    [document "doc-1" "pending"]
    [field 1 1 "total_revenue"
       (VDict [("_value", VStr "125000"); ("_audit_flagged", VBool true)]);
     field 2 2 "license_number" (VStr "L-77");
     field 3 3 "farm_size_hectares" (VStr "40")]
    [].

(** Everything in place for certification. *)
Definition complete_store : Store :=
  mkStore {[ "app-1" := application "under_review" ]}
    [document "doc-1" "processed"] five_modules [].

(** The same application with its only document in status [failed]. *)
Definition failed_document_store : Store :=
  mkStore {[ "app-1" := application "under_review" ]}
    [document "doc-1" "failed"] five_modules [].

(** The same application once approved. *)
Definition approved_store : Store :=
  mkStore {[ "app-1" := application "approved" ]}
    [document "doc-1" "processed"] five_modules [].

(** An application without module data yet. *)
Definition empty_store : Store :=
  mkStore {[ "app-1" := application "draft" ]} [] [] [].

(** Clock readings of one registry call. *)
Definition clock : Registry.Clock := Registry.mkClock 100 (201 # 2) now later.

(** A registry holding the certification tool. *)
Definition certify_only : Registry.ToolRegistry :=
  [("certify_application",
    Registry.mkTool Registry.call_certify_application
      Registry.certify_application_definition)].

(** Replies of the model, and two worlds counting the requests served: one
    in which the model asks for a tool every time, one in which it answers
    in plain text on the third request. *)
Definition tool_use_reply : dict :=
  [("stop_reason", VStr "tool_use");
   ("content",
    VList [VDict [("type", VStr "tool_use"); ("id", VStr "toolu_1");
                  ("name", VStr "query_application"); ("input", VDict [])]])].

Definition text_reply : dict :=
  [("stop_reason", VStr "end_turn");
   ("content", VList [VDict [("type", VStr "text"); ("text", VStr "Done.")]])].

Definition always_tool_use (w : nat) (body : dict) : (exn + dict) * nat :=
  (inr tool_use_reply, S w).

Definition text_on_third (w : nat) (body : dict) : (exn + dict) * nat :=
  (inr (if (w <? 2)%nat then tool_use_reply else text_reply), S w).

(** A rendering of values for the stub tool results. *)
Definition show (v : value) : string :=
  match v with
  | VStr s => s
  | VNone => "None"
  | _ => "{}"
  end.

Definition client : Client.ClaudeClient :=
  Client.mkClient Client.DEFAULT_MODEL Client.DEFAULT_MAX_TOKENS
    Client.DEFAULT_TEMPERATURE.

(** A world in which the service answers every request with an HTTP
    error: [raise_for_status()] raises in [send_message]. *)
Definition service_unavailable (w : nat) (body : dict) : (exn + dict) * nat :=
  (inl (OtherError "Server error '503 Service Unavailable' for url 'https://api.anthropic.com/v1/messages'"),
   S w).

End Scenarios.

(** ** Vocabulary of the properties *)

Module Props.
Import Tools.

(** The role that must follow [role]. *)
Definition other_role (role : string) : string :=
  if String.eqb role "user" then "assistant" else "user".

(** [session_context.get("user_id") if session_context else None] *)
Definition caller_id (session_context : option dict) : option string :=
  if dict_truthy session_context then ctx_get "user_id" session_context else None.

(** A call gets past the prologue shared by the handlers: the application
    id resolves to [target], the application exists as [app_row] and the
    caller, if identified, owns it. *)
Definition reaches (application_id : option string) (session_context : option dict)
    (st : Store) (target : string) (app_row : Application) : Prop :=
  resolve_application_id application_id session_context = Some target ∧
  applications st !! target = Some app_row ∧
  not_owner (caller_id session_context) app_row = false.

(** The four validation checks of [certify_application], stated on the
    tables. *)
Definition documents_unprocessed (target : string) (st : Store) : Prop :=
  0 < doc_status_count target "pending" (documents st)
  ∨ 0 < doc_status_count target "processing" (documents st)
  ∨ 0 < doc_status_count target "error" (documents st).

Definition modules_missing (target : string) (st : Store) : Prop :=
  ∃ m, m ∈ required_modules ∧ m ∉ module_numbers target (module_data st).

Definition fields_flagged (target : string) (st : Store) : Prop :=
  0 < flagged_count target (module_data st).

Definition no_documents (target : string) (st : Store) : Prop :=
  total_docs target (documents st) = 0.

(** The payload returned when a check fails. *)
Definition validation_failed_payload (target : string) (app_row : Application)
    (failures : list string) : dict :=
  [("error", VStr "validation_failed");
   ("message", VStr "Application does not meet certification requirements. Please resolve the following issues:");
   ("validation_failures", VList (VStr <$> failures));
   ("application_id", VStr target);
   ("current_status", VStr (app_status app_row))].

(** What certification writes. *)
Definition certified_application (app_row : Application) (now : string) : Application :=
  mkApplication (app_user_id app_row) "approved" (app_certification_type app_row)
    (Some (default "" (app_notes app_row) +:+ LF +:+ LF +:+ "Certified at: " +:+ now))
    now.

Definition certification_entry (target uid : string) (app_row : Application)
    (now : string) : AuditEntry :=
  mkAuditEntry target uid "application_certified" None
    ("Application certified for " +:+ app_certification_type app_row) now.

(** The stored rows under one (application, module, field) key. *)
Definition key_rows (target : string) (module_number : Z) (field_id : string)
    (rows : list ModuleField) : list ModuleField :=
  filter (λ r, has_key target module_number field_id r = true) rows.

(** The uniqueness of the key is an invariant of [update_module]. *)
Definition keys_unique (st : Store) : Prop :=
  ∀ target module_number field_id,
    length (key_rows target module_number field_id (module_data st)) ≤ 1.

(** The [WHERE application_id = $1 AND field_id = $2] of the field loop. *)
Definition targets (target field_id : string) (r : ModuleField) : bool :=
  String.eqb (mf_application_id r) target && String.eqb (mf_field_id r) field_id.

(** What the [ELSE] branch of the field update is written to store for a
    value that is not an object: the original under [_value], with the
    flag, the reason and the timestamp. *)
Definition wrapped (reason now : string) (v : value) : value :=
  VDict [("_value", v);
         ("_audit_flagged", VBool true);
         ("_audit_reason", VStr reason);
         ("_audit_requested_at", VStr now)].

(** The stored value of the first row of an application's field. *)
Definition stored_value (target field_id : string) (st : Store) : option value :=
  mf_value <$> List.find (targets target field_id) (module_data st).

(** The error object of the two failure outcomes built from an exception. *)
Definition exception_error (kind tool_name prefix message : string) : value :=
  VDict [("type", VStr kind);
         ("message", VStr (prefix +:+ tool_name +:+ "': " +:+ message));
         ("details", VStr message)].

(** The exception raised when the loop runs out of iterations. *)
Definition loop_exceeded (max_iterations : Z) : exn :=
  RuntimeError ("Tool execution loop exceeded max iterations: "
                +:+ pretty max_iterations).

End Props.

(** ** Conversation history: summary and cache ([src/conversation/history.py]) *)

Module HistoryMore.
Import History.

(** [self._cache] *)
Abbreviation Cache := (gmap string (list Message)).

Definition cache_history (session_id : string) (messages : list Message)
    (cache : Cache) : Cache :=
  <[session_id := messages]> cache.

Definition get_cached_history (session_id : string) (cache : Cache)
    : option (list Message) :=
  cache !! session_id.

(** [clear_cache]: [pop(session_id, None)] for a truthy id, else [clear()]. *)
Definition clear_cache (session_id : option string) (cache : Cache) : Cache :=
  if truthy session_id then delete (default "" session_id) cache else ∅.

(** [sum(1 for m in old_messages if m.get("role") == "user")] *)
Definition user_message_count (old_messages : list Message) : nat :=
  length (filter (λ m, msg_role m = Some "user") old_messages).

(** [all_text[:200]] *)
Definition excerpt (all_text : string) : string := String.substring 0 200 all_text.

(** The f-string of the summary. *)
Definition summary_text (old_messages : list Message) : string :=
  let user_message_count := user_message_count old_messages in
  let assistant_message_count := (length old_messages - user_message_count)%nat in
  let all_text := join " " (content_or_empty <$> old_messages) in
  "Previous conversation summary (" +:+ pretty (length old_messages) +:+ " messages):" +:+ LF
  +:+ "- User questions: " +:+ pretty user_message_count +:+ LF
  +:+ "- Assistant responses: " +:+ pretty assistant_message_count +:+ LF
  +:+ "- Topics discussed: " +:+ excerpt all_text +:+ "...".

Definition summarize_old_messages (messages : list Message) (summary_threshold : Z)
    : option string * list Message :=
  if (Z.of_nat (length messages) <=? summary_threshold)%Z then (None, messages)
  else
    let old_messages := slice_to (- summary_threshold) messages in
    let recent_messages := slice_from (- summary_threshold) messages in
    (Some (summary_text old_messages), recent_messages).

(** What [format_for_claude] keeps of a message. *)
Definition formatted_message (msg : Message) : Message :=
  mkMessage (msg_role msg) (Some (content_or_empty msg)) None None.

End HistoryMore.

(** ** Tool registry: the read accessors ([src/tools/registry.py]) *)

Module RegistryMore.
Import Tools Registry.

(** [[tool["definition"] for tool in self._tools.values()]] *)
Definition get_tool_definitions (tools : ToolRegistry) : list dict :=
  (λ entry, definition entry.2) <$> tools.

Definition get_tool_definition (tool_name : string) (tools : ToolRegistry)
    : option dict :=
  match get_tool tool_name tools with
  | Some tool => Some (definition tool)
  | None => None
  end.

Definition list_tools (tools : ToolRegistry) : list string := dict_keys tools.

Definition get_tool_count (tools : ToolRegistry) : nat := length tools.

End RegistryMore.

(** ** Vocabulary of the further properties *)

Module MoreProps.
Import Tools Props.

(** The fields of an application that no handler but certification writes. *)
Definition same_application (a b : Application) : Prop :=
  app_user_id a = app_user_id b ∧ app_status a = app_status b
  ∧ app_certification_type a = app_certification_type b
  ∧ app_notes a = app_notes b.

(** The audit-trail row that [request_audit] inserts. *)
Definition audit_requested_entry (target uid : string)
    (field_ids : option (list string)) (reason now : string) : AuditEntry :=
  mkAuditEntry target uid "audit_requested"
    (if list_truthy field_ids then Some (join ", " (default [] field_ids)) else None)
    reason now.

(** The rows that an identified caller adds to the audit trail: one. *)
Definition caller_entries (caller : option string) (entry : string → AuditEntry)
    : list AuditEntry :=
  match caller with
  | Some uid => if truthy caller then [entry uid] else []
  | None => []
  end.

(** Some row of the application carries the field id. *)
Definition field_exists (target : string) (rows : list ModuleField)
    (field_id : string) : bool :=
  existsb (targets target field_id) rows.

(** The row that [extract_fields] reads: the first document with the id
    whose application exists (the [JOIN]). *)
Definition found_document (st : Store) (document_id : string) : option Document :=
  List.find (λ d, String.eqb (doc_id d) document_id
                  && bool_decide (is_Some (applications st !! doc_application_id d)))
            (documents st).

(** The caller, if identified, owns the application of the document. *)
Definition may_access (session_context : option dict) (st : Store)
    (d : Document) : Prop :=
  truthy (caller_id session_context)
  && negb (bool_decide
             (Some (default "" (app_user_id <$> applications st !! doc_application_id d))
              = caller_id session_context)) = false.

(** The documents table after [UPDATE documents SET ocr_status =
    'processing' WHERE id = $1]. *)
Definition mark_processing (document_id : string) (docs : list Document)
    : list Document :=
  (λ d, if String.eqb (doc_id d) document_id
        then mkDocument (doc_id d) (doc_application_id d) (doc_document_type d)
               (doc_file_name d) (Some "processing") (doc_metadata d)
        else d) <$> docs.

End MoreProps.

(** ** Claude client: streaming ([src/claude/client.py]) *)

Module ClientMore.
Import Client.

(** [line[6:]], taken only from a line that starts with the six ASCII
    characters of ['data: ']. *)
Definition data_of (line : string) : string :=
  String.substring 6 (String.length line - 6) line.

Section WithStream.

(** [http_stream w body] stands for [self.http_client.stream("POST",
    "/v1/messages", json=body)] with [raise_for_status()] and
    [aiter_lines()]: the lines of the response, or the exception raised
    before the first line.  [strip] is [str.strip]. *)
Context {W : Type}.
Variable http_stream : W → dict → (exn + list string) * W.
Variable strip : string → string.

(** The [async for line in response.aiter_lines()] loop: the chunks
    yielded, in order. *)
Fixpoint yielded (lines : list string) : list string :=
  match lines with
  | [] => []
  | line :: rest =>
      if truthy (Some (strip line)) then
        if String.prefix ":" line then yielded rest
        else if String.prefix "data: " line then
          let data := data_of line in
          if String.eqb data "[DONE]" then [] else data :: yielded rest
        else yielded rest
      else yielded rest
  end.

(** [stream_message], as called without extra keyword arguments. *)
Definition stream_message (self : ClaudeClient) (w : W) (message : string)
    (system : option string) (tools : option (list value))
    : (exn + list string) * W :=
  let messages := VList [VDict [("role", VStr "user"); ("content", VStr message)]] in
  let request_body :=
    [("model", VStr (model self));
     ("max_tokens", VInt (max_tokens self));
     ("messages", messages);
     ("stream", VBool true)] in
  let request_body :=
    if truthy system
    then request_body ++ [("system", VStr (default "" system))] else request_body in
  let request_body :=
    if Tools.list_truthy tools
    then request_body ++ [("tools", VList (default [] tools))] else request_body in
  let request_body := request_body ++ [("temperature", VFloat (temperature self))] in
  match http_stream w request_body with
  | (inl e, w') => (inl e, w')
  | (inr lines, w') => (inr (yielded lines), w')
  end.

End WithStream.

End ClientMore.

(** ** Message store ([src/database/connection.py]) *)

Module Database.

(** A row of [agfin_ai_bot_messages], with the columns that the queries
    name; [created_at] is a point in time, [NULL] being [None]. *)
Record MessageRow := mkMessageRow {
  row_id : string;
  row_session_id : string;
  row_role : string;
  row_content : string;
  row_created_at : option Z
}.

(** [SELECT created_at ... WHERE id = $1 AND session_id = $2] through
    [fetchval]: the column of the first row, if any. *)
Definition reference_timestamp (session_id message_id : string)
    (table : list MessageRow) : option Z :=
  match List.find (λ r, String.eqb (row_id r) message_id
                        && String.eqb (row_session_id r) session_id) table with
  | Some r => row_created_at r
  | None => None
  end.

(** [session_id = $1 AND created_at > $2] *)
Definition created_after (session_id : string) (timestamp : Z) (r : MessageRow)
    : bool :=
  String.eqb (row_session_id r) session_id
  && match row_created_at r with
     | Some t => (timestamp <? t)%Z
     | None => false
     end.

(** [delete_messages_after]: the count returned and the table left. *)
Definition delete_messages_after (session_id message_id : string)
    (table : list MessageRow) : nat * list MessageRow :=
  match reference_timestamp session_id message_id table with
  | None => (0, table)
  | Some timestamp =>
      (length (List.filter (created_after session_id timestamp) table),
       List.filter (λ r, negb (created_after session_id timestamp r)) table)
  end.

(** [update_message]: whether a row was returned, and the table left. *)
Definition update_message (message_id content : string)
    (table : list MessageRow) : bool * list MessageRow :=
  (existsb (λ r, String.eqb (row_id r) message_id) table,
   (λ r, if String.eqb (row_id r) message_id
         then mkMessageRow (row_id r) (row_session_id r) (row_role r) content
                (row_created_at r)
         else r) <$> table).

End Database.

(** ** Fallback session title ([src/utils/title_generator.py]) *)

Module Title.
Import History.

Section WithText.

(** A Python [str] is a sequence of code points: [char] is the type of
    code points, [is_space] is [str.isspace] on one of them, [space] and
    [dot] are [' '] and ['.']. *)
Context {char : Type} `{EqDecision char}.
Variable is_space : char → bool.
Variables space dot : char.

(** [s.split()]: the maximal runs of characters that are not whitespace;
    [word] is the run being read, last character first. *)
Fixpoint split_from (word : list char) (s : list char) : list (list char) :=
  match s with
  | [] => match word with [] => [] | _ => [reverse word] end
  | c :: s' =>
      if is_space c
      then match word with
           | [] => split_from [] s'
           | _ => reverse word :: split_from [] s'
           end
      else split_from (c :: word) s'
  end.

Definition split (s : list char) : list (list char) := split_from [] s.

(** [" ".join(words)] *)
Fixpoint join_words (words : list (list char)) : list char :=
  match words with
  | [] => []
  | [word] => word
  | word :: rest => word ++ space :: join_words rest
  end.

(** [s.rfind(" ")], for [s] starting at index [i] of the string: the
    highest index of a space, or [-1]. *)
Fixpoint rfind_from (i : Z) (s : list char) : Z :=
  match s with
  | [] => -1
  | c :: s' =>
      let later := rfind_from (i + 1) s' in
      if (later =? -1)%Z then (if bool_decide (c = space) then i else -1)
      else later
  end.

Definition rfind (s : list char) : Z := rfind_from 0 s.

Definition create_fallback_title (user_message : list char) (max_length : Z)
    : list char :=
  let clean_message := join_words (split user_message) in
  if (Z.of_nat (length clean_message) <=? max_length)%Z then clean_message
  else
    let truncated := slice_to (max_length - 3) clean_message in
    let last_space := rfind truncated in
    let truncated :=
      if (last_space >? max_length `div` 2)%Z
      then slice_to last_space truncated else truncated in
    truncated ++ [dot; dot; dot].

End WithText.

End Title.

(** ** Creating an application ([src/tools/create_application.py]) *)

Module CreateApplication.
Import Stdlib.Strings.Ascii.
Import Tools.

(** Regular expressions over characters, as far as the e-mail pattern
    needs them, matched by derivatives. *)
Inductive regex : Type :=
| Void
| Eps
| Class (p : Ascii.ascii → bool)
| Seq (r1 r2 : regex)
| Alt (r1 r2 : regex)
| Star (r : regex).

Fixpoint nullable (r : regex) : bool :=
  match r with
  | Void => false
  | Eps => true
  | Class _ => false
  | Seq r1 r2 => nullable r1 && nullable r2
  | Alt r1 r2 => nullable r1 || nullable r2
  | Star _ => true
  end.

Fixpoint deriv (a : Ascii.ascii) (r : regex) : regex :=
  match r with
  | Void => Void
  | Eps => Void
  | Class p => if p a then Eps else Void
  | Seq r1 r2 =>
      if nullable r1 then Alt (Seq (deriv a r1) r2) (deriv a r2)
      else Seq (deriv a r1) r2
  | Alt r1 r2 => Alt (deriv a r1) (deriv a r2)
  | Star r => Seq (deriv a r) (Star r)
  end.

(** The whole of [s] matches [r]. *)
Fixpoint fullmatch (r : regex) (s : list Ascii.ascii) : bool :=
  match s with
  | [] => nullable r
  | a :: s' => fullmatch (deriv a r) s'
  end.

(** [r+] and [r{2,}] *)
Definition Plus (r : regex) : regex := Seq r (Star r).
Definition TwoOrMore (r : regex) : regex := Seq r (Seq r (Star r)).

Definition in_range (lo hi : nat) (a : Ascii.ascii) : bool :=
  (lo <=? Ascii.nat_of_ascii a)%nat && (Ascii.nat_of_ascii a <=? hi)%nat.

(** [[a-zA-Z]] *)
Definition letter (a : Ascii.ascii) : bool := in_range 97 122 a || in_range 65 90 a.
(** [[a-zA-Z0-9]] *)
Definition alnum (a : Ascii.ascii) : bool := letter a || in_range 48 57 a.
Definition is_char (c : Ascii.ascii) (a : Ascii.ascii) : bool := Ascii.eqb a c.
(** [[a-zA-Z0-9._%+-]] *)
Definition local_char (a : Ascii.ascii) : bool :=
  alnum a || is_char "."%char a || is_char "_"%char a || is_char "%"%char a || is_char "+"%char a
  || is_char "-"%char a.
(** [[a-zA-Z0-9.-]] *)
Definition domain_char (a : Ascii.ascii) : bool :=
  alnum a || is_char "."%char a || is_char "-"%char a.

Definition newline : Ascii.ascii := Ascii.ascii_of_nat 10.

(** [^[a-zA-Z0-9._%+-]+@[a-zA-Z0-9.-]+\.[a-zA-Z]{2,}$]: [re.match]
    anchors the start, and [$] matches at the end of the string and also
    just before a line feed that ends the string. *)
Definition pattern : regex :=
  Seq (Plus (Class local_char))
    (Seq (Class (is_char "@"%char))
       (Seq (Plus (Class domain_char))
          (Seq (Class (is_char "."%char))
             (Seq (TwoOrMore (Class letter))
                (Alt Eps (Class (is_char newline))))))).

(** The classes of the pattern hold ASCII characters only, so matching the
    bytes of the string is matching its code points. *)
Definition validate_email (email : string) : bool :=
  fullmatch pattern (String.list_ascii_of_string email).

Definition valid_cert_types : list string :=
  ["standard"; "organic"; "sustainable"; "gmp"].

(** The exceptions of the [except] clauses, most specific first. *)
Inductive db_exn : Type :=
| UniqueViolationError (msg : string)
| PostgresError (msg : string)
| OtherException (msg : string).

(** The row that [INSERT ... RETURNING] gives back, with [str(id)] and the
    [isoformat()] of the two timestamps. *)
Record NewApplication := mkNewApplication {
  new_id : string;
  new_status : string;
  new_certification_type : string;
  new_created_at : string;
  new_updated_at : string
}.

Definition db_error (e : db_exn) : dict :=
  match e with
  | UniqueViolationError _ =>
      error_payload "duplicate_application"
        "User already has an active application. Please complete or cancel the existing application first."
  | PostgresError msg =>
      error_payload "database_error"
        ("Database error while creating application: " +:+ msg)
  | OtherException msg =>
      error_payload "internal_error" ("Unexpected error: " +:+ msg)
  end.

Definition invalid_email (farmer_email : string) : dict :=
  error_payload "invalid_email"
    ("Invalid email format: " +:+ farmer_email
     +:+ ". Please provide a valid email address.").

Section WithDatabase.

(** The database as an oracle with state: [find_user db email] is [SELECT
    id FROM auth.users WHERE email = $1] ([str(id)] of the row, if any),
    [insert_application db user_id status certification_type notes] is the
    [INSERT INTO applications].  Either may raise; a failure of
    [get_db_client()] counts as a failure of the first query. *)
Context {DB : Type}.
Variable find_user : DB → string → (db_exn + option string) * DB.
Variable insert_application :
  DB → string → string → string → option string → (db_exn + NewApplication) * DB.

(** The [INSERT] and the success payload. *)
Definition insert_and_report (user_id certification_type : string)
    (notes : option string) (db : DB) : dict * DB :=
  match insert_application db user_id "draft" certification_type notes with
  | (inl e, db') => (db_error e, db')
  | (inr application, db') =>
      ([("application_id", VStr (new_id application));
        ("status", VStr (new_status application));
        ("certification_type", VStr (new_certification_type application));
        ("created_at", VStr (new_created_at application));
        ("updated_at", VStr (new_updated_at application));
        ("message",
         VStr ("Successfully created " +:+ certification_type
               +:+ " certification application. Application ID: "
               +:+ new_id application))], db')
  end.

Definition create_application (farmer_name farmer_email farmer_phone : option string)
    (certification_type : string) (notes : option string)
    (session_context : option dict) (db : DB) : dict * DB :=
  if negb (bool_decide (certification_type ∈ valid_cert_types)) then
    (error_payload "invalid_certification_type"
       ("Certification type must be one of: " +:+ join ", " valid_cert_types
        +:+ ". Got: " +:+ certification_type), db)
  else
  let user_id := if dict_truthy session_context
                 then ctx_get "user_id" session_context else None in
  let email := default "" farmer_email in
  let early :=
    if negb (truthy user_id) then
      if negb (truthy farmer_email) then
        Some (error_payload "missing_required_fields"
                "Either user must be logged in (user_id in session) or farmer_email must be provided to create application.")
      else if negb (validate_email email) then Some (invalid_email email)
      else if negb (truthy farmer_name) then
        Some (error_payload "missing_required_fields"
                "farmer_name is required when creating application without logged-in user.")
      else None
    else None in
  match early with
  | Some error => (error, db)
  | None =>
  if truthy farmer_email && negb (validate_email email) then (invalid_email email, db)
  else if negb (truthy user_id) then
    match find_user db email with
    | (inl e, db') => (db_error e, db')
    | (inr (Some existing_user), db') =>
        insert_and_report existing_user certification_type notes db'
    | (inr None, db') =>
        (error_payload "user_not_found"
           ("No user found with email " +:+ email
            +:+ ". User must be created first through the authentication system."),
         db')
    end
  else insert_and_report (default "" user_id) certification_type notes db
  end.

End WithDatabase.

End CreateApplication.

(** ** Vocabulary of the properties of the e-mail check *)

Module EmailProps.
Import Stdlib.Strings.Ascii.
Import CreateApplication.

(** The strings that a regular expression denotes. *)
Inductive lang : regex → list ascii → Prop :=
| lang_eps : lang Eps []
| lang_class p a : p a = true → lang (Class p) [a]
| lang_seq r1 r2 s1 s2 : lang r1 s1 → lang r2 s2 → lang (Seq r1 r2) (s1 ++ s2)
| lang_alt_l r1 r2 s : lang r1 s → lang (Alt r1 r2) s
| lang_alt_r r1 r2 s : lang r2 s → lang (Alt r1 r2) s
| lang_star_nil r : lang (Star r) []
| lang_star_more r s1 s2 : lang r s1 → lang (Star r) s2 → lang (Star r) (s1 ++ s2).

(** All characters of [s] are in the class [p]. *)
Definition all_in (p : ascii → bool) (s : list ascii) : Prop :=
  Forall (λ a, p a = true) s.

(** An address as the pattern reads it: local part, [@], domain, a dot,
    a top-level name of at least two letters, and possibly one final line
    feed. *)
Definition address (s : list ascii) : Prop :=
  ∃ local domain top ending,
    s = local ++ "@"%char :: domain ++ "."%char :: top ++ ending ∧
    local ≠ [] ∧ all_in local_char local ∧
    domain ≠ [] ∧ all_in domain_char domain ∧
    2 ≤ length top ∧ all_in letter top ∧
    (ending = [] ∨ ending = [newline]).

End EmailProps.

(** ** Further scenarios *)

Module MoreScenarios.
Import Stdlib.Strings.Ascii.
Import History Tools Scenarios.

(** A short conversation that ends with the assistant. *)
Definition greeting : list Message :=
  [mkMessage (Some "user") (Some "Hello") (Some "m-1") (Some "2024-06-01T11:58:00");
   mkMessage (Some "assistant") (Some "How can I help?") (Some "m-2")
     (Some "2024-06-01T11:58:05")].

(** ASCII whitespace, and [strip] on strings made of ASCII characters. *)
Definition ascii_space (a : ascii) : bool :=
  (nat_of_ascii a =? 32)%nat
  || ((9 <=? nat_of_ascii a)%nat && (nat_of_ascii a <=? 13)%nat)
  || ((28 <=? nat_of_ascii a)%nat && (nat_of_ascii a <=? 31)%nat).

Fixpoint lstrip (s : list ascii) : list ascii :=
  match s with
  | a :: s' => if ascii_space a then lstrip s' else s
  | [] => []
  end.

Definition strip (s : string) : string :=
  String.string_of_list_ascii
    (reverse (lstrip (reverse (lstrip (String.list_ascii_of_string s))))).

(** A server-sent event stream, and a transport that serves it. *)
Definition sse_lines : list string :=
  ["event: content_block_delta";
   "data: {text: Hel}";
   "";
   ": ping";
   "data: {text: lo}";
   "data: [DONE]";
   "data: late"].

Definition serve_stream (w : nat) (body : dict) : (exn + list string) * nat :=
  (inr sse_lines, S w).

(** A first user message, as code points. *)
Definition first_message : list ascii :=
  String.list_ascii_of_string
    "  Please   help me review my corn yield documentation for 2024  ".

(** A user directory and an application table that numbers its rows. *)
Definition users : list (string * string) :=
  [("farmer@example.com", "user-1")].

Definition find_user (db : nat) (email : string)
    : (CreateApplication.db_exn + option string) * nat :=
  (inr (snd <$> List.find (λ u, String.eqb (fst u) email) users), db).

Definition insert_application (db : nat) (user_id status certification_type : string)
    (notes : option string)
    : (CreateApplication.db_exn + CreateApplication.NewApplication) * nat :=
  (inr (CreateApplication.mkNewApplication ("app-" +:+ pretty (S db)) status
          certification_type now now), S db).

End MoreScenarios.

(** * Properties *)

(** ** Dictionaries *)

Lemma dict_get_set_eq k v d : dict_get k (dict_set k v d) = Some v.
Proof.
  induction d as [|[k' v'] d IH]; simpl.
  - by rewrite String.eqb_refl.
  - destruct (String.eqb k k') eqn:E; simpl; rewrite ?String.eqb_refl, ?E; done.
Qed.

Lemma dict_get_set_ne k k' v d :
  k ≠ k' → dict_get k' (dict_set k v d) = dict_get k' d.
Proof.
  intros Hne. induction d as [|[k0 v0] d IH]; simpl.
  - destruct (String.eqb k' k) eqn:E; [|done].
    apply String.eqb_eq in E. congruence.
  - destruct (String.eqb k k0) eqn:E; simpl.
    + apply String.eqb_eq in E. subst k0.
      destruct (String.eqb k' k) eqn:E'; [|done].
      apply String.eqb_eq in E'. congruence.
    + destruct (String.eqb k' k0); [done|apply IH].
Qed.

(** ** History manager *)

Section HistoryFacts.
Import History Props.
Context (h : ConversationHistory).

Lemma slice_from_neg {A} (k : Z) (l : list A) :
  (1 ≤ k)%Z → slice_from (- k) l = drop (length l - Z.to_nat k) l.
Proof.
  intros Hk. unfold slice_from, slice_bound.
  destruct (Z.ltb_spec (- k) 0); [|lia]. f_equal. lia.
Qed.

Lemma slice_to_neg {A} (k : Z) (l : list A) :
  (1 ≤ k)%Z → slice_to (- k) l = take (length l - Z.to_nat k) l.
Proof.
  intros Hk. unfold slice_to, slice_bound.
  destruct (Z.ltb_spec (- k) 0); [|lia]. f_equal. lia.
Qed.

(** What the prepend loop returns: the accumulator extended by a prefix
    [taken] of the candidates; the first candidate left out, if any, is one
    that would not fit; a fitting accumulator stays fitting. *)
Lemma prepend_older_spec (older truncated : list Message) :
  ∃ taken rest,
    older = taken ++ rest ∧
    prepend_older h older truncated = reverse taken ++ truncated ∧
    (∀ msg rest', rest = msg :: rest' →
       (max_tokens h < estimate_tokens h (msg :: reverse taken ++ truncated))%Z) ∧
    ((estimate_tokens h truncated ≤ max_tokens h)%Z →
     (estimate_tokens h (reverse taken ++ truncated) ≤ max_tokens h)%Z).
Proof.
  revert truncated. induction older as [|msg older IH]; intros truncated.
  - exists [], []. repeat split; [|done]. intros ?? [=].
  - simpl. destruct (Z.leb_spec (estimate_tokens h (msg :: truncated)) (max_tokens h)) as [Hfit|Hover].
    + destruct (IH (msg :: truncated)) as (taken & rest & -> & Hres & Hstop & Hfits).
      exists (msg :: taken), rest.
      rewrite reverse_cons, <- app_assoc. simpl. repeat split; auto.
    + exists [], (msg :: older). repeat split; [|done].
      intros ?? [= <- <-]. done.
Qed.

Lemma truncate_to_fit_unfold (messages : list Message) (keep : Z) :
  (1 ≤ keep)%Z →
  (max_tokens h < estimate_tokens h messages)%Z →
  let n := (length messages - Z.to_nat keep)%nat in
  truncate_to_fit h messages keep =
    prepend_older h (reverse (take n messages)) (drop n messages).
Proof.
  intros Hk Hover n. subst n. unfold truncate_to_fit.
  destruct messages as [|m ms]; [done|].
  set (messages := m :: ms) in *.
  destruct (Z.leb_spec (estimate_tokens h messages) (max_tokens h)); [lia|].
  destruct (Z.gtb_spec (Z.of_nat (length messages)) keep) as [Hlong|Hshort].
  - by rewrite slice_from_neg, slice_to_neg.
  - replace (length messages - Z.to_nat keep)%nat with 0%nat by lia.
    by rewrite take_0, drop_0.
Qed.

(** C5, as the code has it: over budget, the result is a suffix of the
    input that ends with the [keep_most_recent] latest messages; older
    messages are prepended greedily (the message just before the result, if
    any, would not fit); and the result is within the budget provided the
    unconditionally retained window is. *)
Theorem truncate_to_fit_suffix_window (messages : list Message) (keep_most_recent : Z) :
  (1 ≤ keep_most_recent)%Z →
  (max_tokens h < estimate_tokens h messages)%Z →
  let recent := drop (length messages - Z.to_nat keep_most_recent) messages in
  let result := truncate_to_fit h messages keep_most_recent in
  recent `suffix_of` result ∧
  result `suffix_of` messages ∧
  (∀ older msg, messages = older ++ msg :: result →
     (max_tokens h < estimate_tokens h (msg :: result))%Z) ∧
  ((estimate_tokens h recent ≤ max_tokens h)%Z →
   (estimate_tokens h result ≤ max_tokens h)%Z).
Proof.
  intros Hk Hover recent result. subst result.
  rewrite truncate_to_fit_unfold by done. cbv zeta.
  set (n := (length messages - Z.to_nat keep_most_recent)%nat). fold n in recent.
  destruct (prepend_older_spec (reverse (take n messages)) recent)
    as (taken & rest & Hsplit & Hres & Hstop & Hfits).
  subst recent. rewrite Hres.
  assert (messages = reverse rest ++ (reverse taken ++ drop n messages)) as Hmsgs.
  { rewrite app_assoc, <- reverse_app, <- Hsplit, reverse_involutive.
    by rewrite take_drop. }
  repeat split.
  - by eexists.
  - by exists (reverse rest).
  - intros older msg Heq.
    remember (reverse taken ++ drop n messages) as kept eqn:Hkept.
    assert (reverse rest ++ kept = (older ++ [msg]) ++ kept) as Heq'.
    { rewrite <- Hmsgs, <- app_assoc. exact Heq. }
    apply app_inv_tail in Heq'. clear Heq. rename Heq' into Heq.
    destruct rest as [|msg' rest'].
    { destruct older; discriminate. }
    rewrite reverse_cons in Heq. apply app_inj_tail in Heq as [_ ->].
    by eapply Hstop.
  - done.
Qed.

Lemma valid_role_cases (role : option string) :
  valid_role role = true ↔ role = Some "user" ∨ role = Some "assistant".
Proof.
  unfold valid_role. rewrite orb_true_iff, !bool_decide_eq_true. done.
Qed.

(** The validator loop, entered after a message of role [prev], accepts
    exactly the sequences that alternate starting with the other role. *)
Lemma alternation_loop_accepts (messages : list Message) (idx : nat) (prev : string) :
  prev = "user" ∨ prev = "assistant" →
  alternation_loop idx (Some prev) messages = None ↔
  alternates_from (other_role prev) messages.
Proof.
  revert idx prev. induction messages as [|msg rest IH]; intros idx prev Hprev; simpl.
  - done.
  - fold (other_role (other_role prev)).
    destruct (valid_role (msg_role msg)) eqn:Hvalid; simpl.
    + apply valid_role_cases in Hvalid.
      destruct Hprev as [-> | ->], Hvalid as [Hr | Hr]; rewrite Hr; cbn.
      * split; [done|by intros [[=] _]].
      * rewrite (IH (S idx) "assistant") by (by right). cbn. tauto.
      * rewrite (IH (S idx) "user") by (by left). cbn. tauto.
      * split; [done|by intros [[=] _]].
    + split; [done|]. intros [Hrole _].
      assert (valid_role (msg_role msg) = true); [|congruence].
      apply valid_role_cases. rewrite Hrole.
      destruct Hprev as [-> | ->]; [by right|by left].
Qed.

(** [validate_alternation] decides the specification's property. *)
Lemma validate_alternation_correct (messages : list Message) :
  (strictly_alternates messages → validate_alternation messages = (true, None)) ∧
  (¬ strictly_alternates messages →
   ∃ error, validate_alternation messages = (false, Some error)).
Proof.
  unfold strictly_alternates, validate_alternation.
  destruct messages as [|first rest]; [by split; [|intros []]|].
  cbn [alternation_loop alternates_from]. simpl String.eqb. cbv iota.
  destruct (valid_role (msg_role first)) eqn:Hvalid; simpl.
  - apply valid_role_cases in Hvalid.
    pose proof (alternation_loop_accepts rest 1) as Hloop.
    destruct Hvalid as [Hr | Hr]; rewrite Hr.
    + specialize (Hloop "user" (or_introl eq_refl)). cbn in Hloop.
      destruct (alternation_loop 1 (Some "user") rest) as [err|] eqn:Hl.
      * split; [|by eexists]. intros [_ Halt]. apply Hloop in Halt. done.
      * rewrite bool_decide_eq_false_2 by (by intros []).
        split; [done|]. intros Hn. destruct Hn. split; [done|]. by apply Hloop.
    + destruct (alternation_loop 1 (Some "assistant") rest) as [err|].
      * split; [by intros [[=] _]|by eexists].
      * rewrite bool_decide_eq_true_2 by done.
        split; [by intros [[=] _]|by eexists].
  - split; [|by eexists]. intros [Hr _].
    assert (valid_role (msg_role first) = true); [|congruence].
    apply valid_role_cases. by left.
Qed.

Lemma strictly_alternates_dec (messages : list Message) :
  strictly_alternates messages ∨ ¬ strictly_alternates messages.
Proof.
  unfold strictly_alternates. generalize "user" as expected.
  induction messages as [|msg rest IH]; intros expected; simpl; [by left|].
  destruct (decide (msg_role msg = Some expected)) as [Hr|Hr]; [|right; tauto].
  destruct (IH (if String.eqb expected "user" then "assistant" else "user")); tauto.
Qed.

(** C6: the sequence that [prepare_for_api] validates is the truncated,
    formatted history followed by the new user message; it is returned
    unchanged when it strictly alternates from [user], and otherwise the
    call raises [ValueError].  So every returned list alternates. *)
Theorem prepare_for_api_alternation (messages : list Message)
    (new_user_message : option string) (auto_truncate : bool) :
  let sequence :=
    format_for_claude
      (if auto_truncate then truncate_to_fit h messages 10 else messages) false
    ++ (if truthy new_user_message
        then [mkMessage (Some "user") new_user_message None None] else []) in
  (strictly_alternates sequence →
   prepare_for_api h messages new_user_message auto_truncate = inr sequence) ∧
  (¬ strictly_alternates sequence →
   ∃ error, prepare_for_api h messages new_user_message auto_truncate
            = inl (ValueError error)) ∧
  (∀ out, prepare_for_api h messages new_user_message auto_truncate = inr out →
          out = sequence ∧ strictly_alternates out).
Proof.
  intros sequence.
  assert (prepare_for_api h messages new_user_message auto_truncate =
          match validate_alternation sequence with
          | (true, _) => inr sequence
          | (false, error) =>
              inl (ValueError ("Invalid message sequence: " +:+ default "None" error))
          end) as ->.
  { unfold prepare_for_api, sequence.
    destruct (truthy new_user_message); [done|by rewrite app_nil_r]. }
  destruct (validate_alternation_correct sequence) as [Hok Hbad].
  split; [|split].
  - intros Halt. by rewrite Hok.
  - intros Hnalt. destruct (Hbad Hnalt) as [error ->]. by eexists.
  - intros out. destruct (strictly_alternates_dec sequence) as [Halt|Hnalt].
    + rewrite Hok by done. by intros [= <-].
    + destruct (Hbad Hnalt) as [error ->]. done.
Qed.

End HistoryFacts.

(** C5 as stated does not hold: the retained window is kept even when it
    alone is over budget.  Budget 2, one message of twelve characters
    (three estimated tokens): the result is that message. *)
Lemma truncate_to_fit_over_budget :
  let h := History.mkHistory 2 (History.tokens_of_chars History.default_history) in
  let messages := [History.mkMessage (Some "user") (Some "hello world!") None None] in
  (History.max_tokens h < History.estimate_tokens h messages)%Z ∧
  History.truncate_to_fit h messages 10 = messages ∧
  ¬ (History.estimate_tokens h (History.truncate_to_fit h messages 10)
     ≤ History.max_tokens h)%Z.
Proof. vm_compute. repeat split; intros; discriminate || done. Qed.

(** With [keep_most_recent = 0] the slice [messages[-0:]] is the whole
    list, which is returned as it is. *)
Lemma truncate_to_fit_keep_zero :
  let h := History.mkHistory 2 (History.tokens_of_chars History.default_history) in
  let messages :=
    [History.mkMessage (Some "user") (Some "first question") None None;
     History.mkMessage (Some "assistant") (Some "first answer") None None] in
  History.truncate_to_fit h messages 0 = messages.
Proof. reflexivity. Qed.

(** Two consecutive user messages: the stored history ends with a user
    message and a new user message is appended. *)
Lemma prepare_for_api_two_user_messages :
  History.prepare_for_api History.default_history
    [History.mkMessage (Some "user") (Some "hello") (Some "m1") None]
    (Some "are you there?") true
  = inl (ValueError "Invalid message sequence: Non-alternating roles at index 1: user -> user").
Proof. vm_compute. reflexivity. Qed.

(** A history that starts with the assistant is rejected as well. *)
Lemma prepare_for_api_assistant_first :
  History.prepare_for_api History.default_history
    [History.mkMessage (Some "assistant") (Some "welcome") None None]
    (Some "hello") true
  = inl (ValueError "Invalid message sequence: Conversation must start with user message").
Proof. vm_compute. reflexivity. Qed.

(** An alternating history with a new user message passes unchanged. *)
Lemma prepare_for_api_alternating :
  History.prepare_for_api History.default_history
    [History.mkMessage (Some "user") (Some "hello") (Some "m1") None;
     History.mkMessage (Some "assistant") (Some "hi") (Some "m2") None]
    (Some "certify my application") true
  = inr [History.mkMessage (Some "user") (Some "hello") None None;
         History.mkMessage (Some "assistant") (Some "hi") None None;
         History.mkMessage (Some "user") (Some "certify my application") None None].
Proof. vm_compute. reflexivity. Qed.

Lemma truncate_to_fit_suffix_window_witness :
  let h := History.mkHistory 5 (History.tokens_of_chars History.default_history) in
  let messages :=
    [History.mkMessage (Some "user") (Some "first question") None None;
     History.mkMessage (Some "assistant") (Some "first answer") None None;
     History.mkMessage (Some "user") (Some "second question") None None] in
  (1 ≤ 2)%Z ∧
  (History.max_tokens h < History.estimate_tokens h messages)%Z ∧
  History.truncate_to_fit h messages 2 `suffix_of` messages.
Proof.
  intros h messages.
  assert (1 ≤ 2)%Z as Hkeep by lia.
  assert (History.max_tokens h < History.estimate_tokens h messages)%Z as Hover
    by (vm_compute; reflexivity).
  split; [exact Hkeep|]. split; [exact Hover|].
  exact (proj1 (proj2 (truncate_to_fit_suffix_window h messages 2 Hkeep Hover))).
Defined.

(** ** Tool handlers: the common prologue *)

Section ToolsFacts.
Import Tools Props.

Lemma document_failures_nil (target : string) (st : Store) :
  document_failures target st = [] ↔ ¬ documents_unprocessed target st.
Proof.
  unfold document_failures, documents_unprocessed.
  destruct (Nat.ltb_spec 0 (doc_status_count target "pending" (documents st)));
  destruct (Nat.ltb_spec 0 (doc_status_count target "processing" (documents st)));
  destruct (Nat.ltb_spec 0 (doc_status_count target "error" (documents st)));
  simpl; split; try done; try (intros Hn; exfalso; apply Hn; tauto).
  intros _ [?|[?|?]]; lia.
Qed.

Lemma missing_modules_nil (target : string) (st : Store) :
  missing_modules target st = [] ↔ ¬ modules_missing target st.
Proof.
  unfold missing_modules, modules_missing. split.
  - intros Hnil (m & Hreq & Hmiss).
    assert (m ∈ filter (λ m, m ∉ module_numbers target (module_data st))
                       required_modules) as Hin
      by (by apply list_elem_of_filter).
    rewrite Hnil in Hin. by apply not_elem_of_nil in Hin.
  - intros Hn.
    destruct (filter _ required_modules) as [|m ms] eqn:Hf; [done|].
    exfalso. apply Hn. exists m.
    assert (m ∈ filter (λ m, m ∉ module_numbers target (module_data st))
                       required_modules) as Hin
      by (rewrite Hf; left).
    apply list_elem_of_filter in Hin. tauto.
Qed.

Lemma module_failures_nil (target : string) (st : Store) :
  module_failures target st = [] ↔ ¬ modules_missing target st.
Proof.
  rewrite <- missing_modules_nil. unfold module_failures.
  destruct (missing_modules target st); split; done.
Qed.

Lemma flagged_failures_nil (target : string) (st : Store) :
  flagged_failures target st = [] ↔ ¬ fields_flagged target st.
Proof.
  unfold flagged_failures, fields_flagged.
  destruct (Nat.ltb_spec 0 (flagged_count target (module_data st)));
    split; try done; lia.
Qed.

Lemma upload_failures_nil (target : string) (st : Store) :
  upload_failures target st = [] ↔ ¬ no_documents target st.
Proof.
  unfold upload_failures, no_documents.
  destruct (Nat.eqb_spec (total_docs target (documents st)) 0); split; done.
Qed.

Lemma validation_failures_nil (target : string) (st : Store) :
  validation_failures target st = [] ↔
  ¬ documents_unprocessed target st ∧ ¬ modules_missing target st
  ∧ ¬ fields_flagged target st ∧ ¬ no_documents target st.
Proof.
  unfold validation_failures.
  rewrite <- document_failures_nil, <- module_failures_nil,
    <- flagged_failures_nil, <- upload_failures_nil.
  split.
  - intros H. apply app_eq_nil in H as [-> H].
    apply app_eq_nil in H as [-> H]. apply app_eq_nil in H as [-> ->]. done.
  - intros (-> & -> & -> & ->). done.
Qed.

Lemma certify_application_checks now application_id session_context st target app_row :
  reaches application_id session_context st target app_row →
  is_terminal (app_status app_row) = false →
  certify_application now true application_id session_context st =
  match validation_failures target st with
  | [] => certify_application now true application_id session_context st
  | failures => (validation_failed_payload target app_row failures, st)
  end.
Proof.
  intros (Hres & Happ & Hown) Hopen.
  destruct (validation_failures target st) eqn:Hf; [done|].
  unfold certify_application. simpl negb. cbv iota.
  rewrite Hres, Happ. fold (caller_id session_context). rewrite Hown, Hopen, Hf.
  done.
Qed.

(** C1: past the prologue and with the application not terminal, if any of
    the four checks fails, the handler returns the [validation_failed]
    payload whose list holds the message of every failing check, and the
    store is left as it was. *)
Theorem certify_application_reports_every_failure
    now application_id session_context st target app_row :
  reaches application_id session_context st target app_row →
  is_terminal (app_status app_row) = false →
  documents_unprocessed target st ∨ modules_missing target st
  ∨ fields_flagged target st ∨ no_documents target st →
  let pending := doc_status_count target "pending" (documents st) in
  let processing := doc_status_count target "processing" (documents st) in
  let error := doc_status_count target "error" (documents st) in
  let flagged := flagged_count target (module_data st) in
  let failures := validation_failures target st in
  certify_application now true application_id session_context st
    = (validation_failed_payload target app_row failures, st) ∧
  (0 < pending →
   pretty pending +:+ " document(s) still pending processing" ∈ failures) ∧
  (0 < processing →
   pretty processing +:+ " document(s) currently being processed" ∈ failures) ∧
  (0 < error →
   pretty error +:+ " document(s) failed processing" ∈ failures) ∧
  (modules_missing target st →
   "Missing required modules: " +:+
     join ", " ((λ m, "Module " +:+ pretty m +:+ " (" +:+ module_title m +:+ ")")
                  <$> missing_modules target st) ∈ failures) ∧
  (fields_flagged target st →
   pretty flagged
     +:+ " field(s) flagged for audit - must be reviewed before certification"
     ∈ failures) ∧
  (no_documents target st →
   "No documents uploaded - at least one document is required" ∈ failures).
Proof.
  intros Hreach Hopen Hfail pending processing error flagged failures.
  split.
  - rewrite (certify_application_checks _ _ _ _ _ _ Hreach Hopen).
    fold failures. destruct failures eqn:Hf; [|done].
    apply validation_failures_nil in Hf. tauto.
  - subst failures. unfold validation_failures.
    repeat split.
    + intros Hp. apply elem_of_app. left. unfold document_failures.
      fold pending. destruct (Nat.ltb_spec 0 pending); [|lia].
      apply elem_of_app. left. left.
    + intros Hp. apply elem_of_app. left. unfold document_failures.
      fold processing. destruct (Nat.ltb_spec 0 processing); [|lia].
      apply elem_of_app. right. apply elem_of_app. left. left.
    + intros Hp. apply elem_of_app. left. unfold document_failures.
      fold error. destruct (Nat.ltb_spec 0 error); [|lia].
      apply elem_of_app. right. apply elem_of_app. right. left.
    + intros Hm. apply elem_of_app. right. apply elem_of_app. left.
      unfold module_failures.
      destruct (missing_modules target st) eqn:Hmm; [|left].
      apply missing_modules_nil in Hmm. done.
    + intros Hfl. apply elem_of_app. right. apply elem_of_app. right.
      apply elem_of_app. left. unfold flagged_failures. fold flagged.
      unfold fields_flagged in Hfl. fold flagged in Hfl.
      destruct (Nat.ltb_spec 0 flagged); [left|lia].
    + intros Hn. apply elem_of_app. right. apply elem_of_app. right.
      apply elem_of_app. right. unfold upload_failures.
      unfold no_documents in Hn. rewrite Hn. left.
Qed.

(** The handler writes nothing unless it was called with confirmation, got
    past the prologue on a non-terminal application, and found no
    validation failure. *)
Lemma certify_application_writes_only_when_valid
    now confirmed application_id session_context st :
  (certify_application now confirmed application_id session_context st).2 ≠ st →
  confirmed = true ∧
  ∃ target app_row,
    reaches application_id session_context st target app_row ∧
    is_terminal (app_status app_row) = false ∧
    validation_failures target st = [].
Proof.
  unfold certify_application. fold (caller_id session_context).
  destruct confirmed; simpl negb; cbv iota; [|done].
  destruct (resolve_application_id application_id session_context)
    as [target|] eqn:Hres; [|done].
  destruct (applications st !! target) as [app_row|] eqn:Happ; [|done].
  destruct (not_owner (caller_id session_context) app_row) eqn:Hown; [done|].
  destruct (is_terminal (app_status app_row)) eqn:Hterm; [done|].
  destruct (validation_failures target st) eqn:Hf; [|done].
  intros _. split; [done|]. exists target, app_row. by repeat split.
Qed.

(** What a successful certification writes and returns. *)
Lemma certify_application_success
    now application_id session_context st target app_row :
  reaches application_id session_context st target app_row →
  is_terminal (app_status app_row) = false →
  validation_failures target st = [] →
  let out := certify_application now true application_id session_context st in
  applications out.2 = <[target := certified_application app_row now]> (applications st) ∧
  documents out.2 = documents st ∧
  module_data out.2 = module_data st ∧
  audit_trail out.2 =
    audit_trail st ++
    match caller_id session_context with
    | Some uid =>
        if truthy (Some uid) then [certification_entry target uid app_row now] else []
    | None => []
    end ∧
  dict_get "success" out.1 = Some (VBool true) ∧
  dict_get "status" out.1 = Some (VStr "approved") ∧
  dict_get "certified_at" out.1 = Some (VStr now) ∧
  dict_get "pdf_url" out.1
    = Some (VStr ("/api/applications/" +:+ target +:+ "/certificate.pdf")).
Proof.
  intros (Hres & Happ & Hown) Hopen Hvalid out. subst out.
  unfold certify_application. simpl negb. cbv iota.
  rewrite Hres, Happ. fold (caller_id session_context).
  rewrite Hown, Hopen, Hvalid.
  fold (certified_application app_row now).
  destruct (caller_id session_context) as [uid|] eqn:Hcaller.
  - destruct (truthy (Some uid)) eqn:Htruthy;
      split_and!; try done; cbn; by rewrite ?app_nil_r.
  - split_and!; try done; cbn; by rewrite ?app_nil_r.
Qed.

(** C3, as the code has it: when no check fails, the handler
    sets the status to [approved], appends the note with the certification
    timestamp, leaves documents and module fields alone, returns the stub
    certificate location, and writes one audit-trail entry when the session
    identifies the caller (none otherwise); and no call writes anything in
    any other case. *)
Theorem certify_application_certifies
    now application_id session_context st target app_row :
  reaches application_id session_context st target app_row →
  is_terminal (app_status app_row) = false →
  validation_failures target st = [] →
  let out := certify_application now true application_id session_context st in
  applications out.2 = <[target := certified_application app_row now]> (applications st) ∧
  app_status (certified_application app_row now) = "approved" ∧
  app_notes (certified_application app_row now)
    = Some (default "" (app_notes app_row) +:+ LF +:+ LF +:+ "Certified at: " +:+ now) ∧
  documents out.2 = documents st ∧
  module_data out.2 = module_data st ∧
  audit_trail out.2 =
    audit_trail st ++
    match caller_id session_context with
    | Some uid =>
        if truthy (Some uid) then [certification_entry target uid app_row now] else []
    | None => []
    end ∧
  dict_get "success" out.1 = Some (VBool true) ∧
  dict_get "status" out.1 = Some (VStr "approved") ∧
  dict_get "certified_at" out.1 = Some (VStr now) ∧
  dict_get "pdf_url" out.1
    = Some (VStr ("/api/applications/" +:+ target +:+ "/certificate.pdf")) ∧
  (∀ now' confirmed' application_id' session_context' st0,
     (certify_application now' confirmed' application_id' session_context' st0).2 ≠ st0 →
     confirmed' = true ∧
     ∃ target' app_row',
       reaches application_id' session_context' st0 target' app_row' ∧
       is_terminal (app_status app_row') = false ∧
       validation_failures target' st0 = []).
Proof.
  intros Hreach Hopen Hvalid out.
  destruct (certify_application_success now _ _ _ _ _ Hreach Hopen Hvalid)
    as (Happs & Hdocs & Hrows & Htrail & Hsucc & Hstatus & Hat & Hpdf).
  pose proof certify_application_writes_only_when_valid as Honly.
  split_and!; done.
Qed.


(** ** update_module *)

Lemma find_head_filter {A} (p : A → bool) (l : list A) :
  List.find p l = head (filter (λ x, p x = true) l).
Proof.
  induction l as [|x l IH]; [done|]. simpl. rewrite filter_cons.
  destruct (p x) eqn:Hp; [by rewrite decide_True|].
  rewrite decide_False by congruence. done.
Qed.

Lemma key_rows_fmap target module_number field_id (f : ModuleField → ModuleField) rows :
  (∀ r, has_key target module_number field_id (f r)
        = has_key target module_number field_id r) →
  key_rows target module_number field_id (f <$> rows)
  = f <$> key_rows target module_number field_id rows.
Proof.
  intros Hf. unfold key_rows. induction rows as [|r rows IH]; [done|].
  rewrite fmap_cons, !filter_cons, Hf.
  case_decide; [by rewrite fmap_cons, IH|done].
Qed.

Lemma reaches_touch now application_id session_context st rows target app_row :
  reaches application_id session_context st target app_row →
  ∃ app_row',
    reaches application_id session_context
      (touch_application now target (set_module_data rows st)) target app_row' ∧
    app_status app_row' = app_status app_row.
Proof.
  intros (Hres & Happ & Hown).
  exists (mkApplication (app_user_id app_row) (app_status app_row)
            (app_certification_type app_row) (app_notes app_row) now).
  split; [|done]. split; [done|]. split; [|done].
  simpl. by rewrite lookup_alter_eq, Happ.
Qed.

(** One successful call: afterwards the key has exactly one row, holding
    the new value at confidence 1; the payload reports the previous value
    and the data source. *)
Lemma update_module_call now module_number field_id value
    application_id session_context st target app_row :
  is_Some (module_name_of module_number) →
  reaches application_id session_context st target app_row →
  is_terminal (app_status app_row) = false →
  length (key_rows target module_number field_id (module_data st)) ≤ 1 →
  let before := key_rows target module_number field_id (module_data st) in
  let source := match before with [] => "proxy_entered" | _ => "proxy_edited" end in
  let out := update_module now module_number field_id value
               application_id session_context st in
  (∃ app_row', reaches application_id session_context out.2 target app_row'
               ∧ is_terminal (app_status app_row') = false) ∧
  (∃ row, key_rows target module_number field_id (module_data out.2) = [row]
          ∧ mf_value row = VStr value
          ∧ mf_data_source row = source
          ∧ mf_confidence_score row = 1%Q) ∧
  dict_get "old_value" out.1
    = Some (match before with [] => VNone | row :: _ => mf_value row end) ∧
  dict_get "data_source" out.1 = Some (VStr source) ∧
  dict_get "success" out.1 = Some (VBool true).
Proof.
  intros [name Hname] Hreach Hopen Hunique before source out.
  pose proof Hreach as (Hres & Happ & Hown).
  subst out. unfold update_module.
  rewrite Hname, Hres, Happ. fold (caller_id session_context).
  rewrite Hown, Hopen, find_head_filter.
  fold (key_rows target module_number field_id (module_data st)).
  subst source before.
  destruct (key_rows target module_number field_id (module_data st))
    as [|row rest] eqn:Hbefore; simpl head; cbv iota beta.
  - split_and!; try done.
    + destruct (reaches_touch now _ _ st
                  (module_data st ++
                   [mkModuleField (next_id (module_data st)) target module_number
                      field_id (VStr value) "proxy_entered" 1 now])
                  _ _ Hreach) as (app_row' & Hreach' & Hstatus).
      exists app_row'. by rewrite Hstatus.
    + eexists. split.
      * simpl. unfold key_rows. rewrite filter_app.
        fold (key_rows target module_number field_id (module_data st)).
        rewrite Hbefore. simpl. rewrite filter_cons_True; [done|].
        unfold has_key. simpl. by rewrite !String.eqb_refl, Z.eqb_refl.
      * done.
  - destruct rest; [|simpl in Hunique; lia].
    split_and!; try done.
    + destruct (reaches_touch now _ _ st
                  ((λ r, if Z.eqb (mf_id r) (mf_id row)
                         then mkModuleField (mf_id r) (mf_application_id r)
                                (mf_module_number r) (mf_field_id r)
                                (VStr value) "proxy_edited" 1%Q now
                         else r) <$> module_data st)
                  _ _ Hreach) as (app_row' & Hreach' & Hstatus).
      exists app_row'. by rewrite Hstatus.
    + eexists. split.
      * simpl. rewrite key_rows_fmap.
        -- rewrite Hbefore. simpl. by rewrite Z.eqb_refl.
        -- intros r. by destruct (Z.eqb (mf_id r) (mf_id row)).
      * done.
Qed.

(** C7: two calls with the same key on an unlocked application whose store
    respects the uniqueness of the key leave exactly one row for the key,
    holding the second value with source [proxy_edited] and confidence 1;
    the second call reports [proxy_edited] and the first call's value as
    [old_value]; a first write to an absent field reports [proxy_entered]
    and a null [old_value]. *)
Theorem update_module_twice now1 now2 module_number field_id value1 value2
    application_id session_context st target app_row :
  is_Some (module_name_of module_number) →
  reaches application_id session_context st target app_row →
  is_terminal (app_status app_row) = false →
  length (key_rows target module_number field_id (module_data st)) ≤ 1 →
  let out1 := update_module now1 module_number field_id value1
                application_id session_context st in
  let out2 := update_module now2 module_number field_id value2
                application_id session_context out1.2 in
  (∃ row, key_rows target module_number field_id (module_data out2.2) = [row]
          ∧ mf_value row = VStr value2
          ∧ mf_data_source row = "proxy_edited"
          ∧ mf_confidence_score row = 1%Q) ∧
  dict_get "data_source" out2.1 = Some (VStr "proxy_edited") ∧
  dict_get "old_value" out2.1 = Some (VStr value1) ∧
  (key_rows target module_number field_id (module_data st) = [] →
   dict_get "data_source" out1.1 = Some (VStr "proxy_entered") ∧
   dict_get "old_value" out1.1 = Some VNone ∧
   ∃ row, key_rows target module_number field_id (module_data out1.2) = [row]
          ∧ mf_value row = VStr value1
          ∧ mf_data_source row = "proxy_entered"
          ∧ mf_confidence_score row = 1%Q).
Proof.
  intros Hmodule Hreach Hopen Hunique out1 out2.
  destruct (update_module_call now1 module_number field_id value1 _ _ _ _ _
              Hmodule Hreach Hopen Hunique)
    as ((app_row1 & Hreach1 & Hopen1) & (row1 & Hrows1 & Hval1 & Hsrc1 & Hconf1)
        & Hold1 & Hds1 & _).
  fold out1 in Hreach1, Hrows1, Hold1, Hds1.
  assert (length (key_rows target module_number field_id (module_data out1.2)) ≤ 1)
    as Hunique1 by (by rewrite Hrows1).
  destruct (update_module_call now2 module_number field_id value2 _ _ _ _ _
              Hmodule Hreach1 Hopen1 Hunique1)
    as (_ & (row2 & Hrows2 & Hval2 & Hsrc2 & Hconf2) & Hold2 & Hds2 & _).
  fold out2 in Hrows2, Hold2, Hds2.
  rewrite Hrows1 in Hsrc2, Hold2, Hds2. rewrite Hval1 in Hold2.
  split_and!; try done.
  - by exists row2.
  - intros Habsent. rewrite Habsent in Hsrc1, Hold1, Hds1.
    split_and!; try done. by exists row1.
Qed.

Lemma has_key_inj target module_number field_id target' module_number' field_id' row :
  has_key target module_number field_id row = true →
  has_key target' module_number' field_id' row = true →
  target' = target ∧ module_number' = module_number ∧ field_id' = field_id.
Proof.
  unfold has_key. rewrite !andb_true_iff, !String.eqb_eq, !Z.eqb_eq.
  intros [[<- <-] <-] [[<- <-] <-]. done.
Qed.

Lemma update_module_keeps_keys_unique now module_number field_id value
    application_id session_context st :
  keys_unique st →
  keys_unique (update_module now module_number field_id value
                 application_id session_context st).2.
Proof.
  intros Hunique. unfold update_module.
  destruct (module_name_of module_number); [|done].
  destruct (resolve_application_id application_id session_context)
    as [target|]; [|done].
  destruct (applications st !! target) as [app_row|]; [|done].
  destruct (not_owner _ app_row); [done|].
  destruct (is_terminal (app_status app_row)); [done|].
  rewrite find_head_filter.
  fold (key_rows target module_number field_id (module_data st)).
  destruct (key_rows target module_number field_id (module_data st))
    as [|row rest] eqn:Hrows; simpl head; cbv iota beta;
    intros target' module_number' field_id'; simpl.
  - unfold key_rows. rewrite filter_app, length_app.
    fold (key_rows target' module_number' field_id' (module_data st)).
    rewrite filter_cons, filter_nil.
    case_decide as Hkey; simpl; [|specialize (Hunique target' module_number' field_id'); lia].
    assert (has_key target module_number field_id
              (mkModuleField (next_id (module_data st)) target module_number
                 field_id (VStr value) "proxy_entered" 1 now) = true) as Hnew.
    { unfold has_key. simpl. by rewrite !String.eqb_refl, Z.eqb_refl. }
    destruct (has_key_inj _ _ _ _ _ _ _ Hnew Hkey) as (-> & -> & ->).
    by rewrite Hrows.
  - rewrite key_rows_fmap.
    + rewrite length_fmap. apply Hunique.
    + intros r. by destruct (Z.eqb (mf_id r) (mf_id row)).
Qed.

(** A terminal application is locked for [update_module]: past the
    argument and ownership checks, the call returns [application_locked]
    and the store is unchanged. *)
Lemma update_module_locked now module_number field_id value
    application_id session_context st target app_row :
  is_Some (module_name_of module_number) →
  reaches application_id session_context st target app_row →
  is_terminal (app_status app_row) = true →
  let out := update_module now module_number field_id value
               application_id session_context st in
  dict_get "error" out.1 = Some (VStr "application_locked") ∧ out.2 = st.
Proof.
  intros [name Hname] (Hres & Happ & Hown) Hlocked out. subst out.
  unfold update_module. rewrite Hname, Hres, Happ.
  fold (caller_id session_context). by rewrite Hown, Hlocked.
Qed.

(** No call that resolves to a terminal application writes anything. *)
Lemma update_module_terminal_keeps_store now module_number field_id value
    application_id session_context st target app_row :
  resolve_application_id application_id session_context = Some target →
  applications st !! target = Some app_row →
  is_terminal (app_status app_row) = true →
  (update_module now module_number field_id value
     application_id session_context st).2 = st.
Proof.
  intros Hres Happ Hlocked. unfold update_module.
  destruct (module_name_of module_number); [|done].
  rewrite Hres, Happ. destruct (not_owner _ app_row); [done|].
  by rewrite Hlocked.
Qed.

(** Whatever the arguments, [update_module] leaves the store of an
    application that it reports as an error untouched. *)
Lemma update_module_error_keeps_store now module_number field_id value
    application_id session_context st :
  let out := update_module now module_number field_id value
               application_id session_context st in
  dict_has "error" out.1 = true → out.2 = st.
Proof.
  intros out. subst out. unfold update_module.
  destruct (module_name_of module_number); [|done].
  destruct (resolve_application_id application_id session_context)
    as [target|]; [|done].
  destruct (applications st !! target) as [app_row|]; [|done].
  destruct (not_owner _ app_row); [done|].
  destruct (is_terminal (app_status app_row)); [done|].
  destruct (List.find _ (module_data st)); simpl; done.
Qed.

(** ** request_audit *)

(** The field loop raises exactly when one of the names has a row. *)
Lemma flag_fields_cases target rows field_ids :
  (flag_fields target rows field_ids = inr tt
   ∧ ∀ field_id, field_id ∈ field_ids →
       List.find (targets target field_id) rows = None)
  ∨ (flag_fields target rows field_ids = inl update_field_query_error
     ∧ ∃ field_id row, field_id ∈ field_ids
         ∧ List.find (targets target field_id) rows = Some row).
Proof.
  induction field_ids as [|field_id rest IH]; simpl.
  - left. split; [done|]. by intros ? ?%elem_of_nil.
  - fold (targets target field_id).
    destruct (List.find (targets target field_id) rows) as [row|] eqn:Hfind.
    + right. split; [done|]. exists field_id, row. split; [by left|done].
    + destruct IH as [[-> Hnone]|[-> (f & row & Hin & Hrow)]].
      * left. split; [done|]. intros f [->|Hin]%elem_of_cons; [done|by apply Hnone].
      * right. split; [done|]. exists f, row. split; [by right|done].
Qed.

(** The ways a call ends.  An error payload always comes with the store
    untouched.  The success payload comes only from a call that names no
    document and names fields of which none is stored: nothing was flagged,
    and the store has the audit-trail row of an identified caller and the
    new [updated_at]. *)
Lemma request_audit_outcomes now reason application_id document_id field_ids
    session_context st :
  let out := request_audit now reason application_id document_id field_ids
               session_context st in
  (dict_has "error" out.1 = true ∧ dict_get "success" out.1 = None ∧ out.2 = st
   ∧ dict_get "error" out.1 ≠ Some (VStr "application_locked"))
  ∨ (∃ target app_row,
       reaches application_id session_context st target app_row ∧
       truthy document_id = false ∧
       list_truthy field_ids = true ∧
       (∀ field_id, field_id ∈ default [] field_ids →
          List.find (targets target field_id) (module_data st) = None) ∧
       dict_has "error" out.1 = false ∧
       dict_get "success" out.1 = Some (VBool true) ∧
       dict_get "flagged_fields_count" out.1 = Some (VInt 0) ∧
       dict_get "flagged_document" out.1 = Some (VBool false) ∧
       dict_get "details" out.1 = Some (VList []) ∧
       out.2 = touch_application now target
                 (set_audit_trail
                    (audit_trail st ++
                     match caller_id session_context with
                     | Some uid =>
                         if truthy (Some uid)
                         then [mkAuditEntry target uid "audit_requested"
                                 (if list_truthy field_ids
                                  then Some (join ", " (default [] field_ids))
                                  else None) reason now]
                         else []
                     | None => []
                     end) st)).
Proof.
  intros out. subst out. unfold request_audit.
  destruct (resolve_application_id application_id session_context)
    as [target|] eqn:Hres; [|left; by split_and!].
  destruct (negb (truthy document_id) && negb (list_truthy field_ids)) eqn:Hnone;
    [left; by split_and!|].
  fold (caller_id session_context).
  destruct (applications st !! target) as [app_row|] eqn:Happ; [|left; by split_and!].
  destruct (not_owner (caller_id session_context) app_row) eqn:Hown;
    [left; by split_and!|].
  destruct (truthy document_id) eqn:Hdoc.
  { destruct (List.find _ (documents st)); left; by split_and!. }
  simpl in Hnone. apply negb_false_iff in Hnone. rewrite Hnone.
  destruct (flag_fields_cases target (module_data st) (default [] field_ids))
    as [[-> Hfields]|[-> _]]; [|left; by split_and!].
  right. exists target, app_row.
  split_and!; try done.
  destruct (caller_id session_context) as [uid|]; [|by rewrite app_nil_r; destruct st].
  destruct (truthy (Some uid)); [done|by rewrite app_nil_r; destruct st].
Qed.

(** No call changes a document or a module row. *)
Lemma request_audit_tables now reason application_id document_id field_ids
    session_context st :
  let out := request_audit now reason application_id document_id field_ids
               session_context st in
  documents out.2 = documents st ∧ module_data out.2 = module_data st.
Proof.
  intros out.
  destruct (request_audit_outcomes now reason application_id document_id field_ids
              session_context st)
    as [(_ & _ & Hst & _)|(target & app_row & _ & _ & _ & _ & _ & _ & _ & _ & _ & Hst)];
    fold out in Hst; by rewrite Hst.
Qed.

End ToolsFacts.

(** ** Tool handlers on the scenarios *)

Section ToolsScenarios.
Import Tools Props Scenarios.

Lemma reaches_scenario (status : string) docs rows trail :
  reaches None session
    (mkStore {[ "app-1" := application status ]} docs rows trail)
    "app-1" (application status).
Proof. split_and!; [done| |done]. simpl. by rewrite lookup_singleton_eq. Qed.

(** The scenario of the specification: two modules missing, one pending
    document and one flagged field are all reported in one list. *)
Lemma certify_application_reports_every_failure_witness :
  reaches None session incomplete_store "app-1" (application "in_progress") ∧
  is_terminal (app_status (application "in_progress")) = false ∧
  (documents_unprocessed "app-1" incomplete_store
   ∨ modules_missing "app-1" incomplete_store
   ∨ fields_flagged "app-1" incomplete_store
   ∨ no_documents "app-1" incomplete_store) ∧
  certify_application now true None session incomplete_store =
    (validation_failed_payload "app-1" (application "in_progress")
       ["1 document(s) still pending processing";
        "Missing required modules: Module 4 (Sustainability Practices), Module 5 (Risk Management)";
        "1 field(s) flagged for audit - must be reviewed before certification"],
     incomplete_store).
Proof.
  assert (reaches None session incomplete_store "app-1" (application "in_progress"))
    as Hreach by apply reaches_scenario.
  assert (is_terminal (app_status (application "in_progress")) = false)
    as Hopen by reflexivity.
  assert (documents_unprocessed "app-1" incomplete_store
          ∨ modules_missing "app-1" incomplete_store
          ∨ fields_flagged "app-1" incomplete_store
          ∨ no_documents "app-1" incomplete_store) as Hfail.
  { left. left. vm_compute. lia. }
  split_and!; [exact Hreach|exact Hopen|exact Hfail|].
  exact (proj1 (certify_application_reports_every_failure
                  now None session incomplete_store "app-1"
                  (application "in_progress") Hreach Hopen Hfail)).
Defined.

(** C2 on the code: [request_audit] has no lock check.  No call of it
    answers [application_locked]; and against the approved application a
    call that names a field that is not stored reports success, appends an
    audit-trail row for the application and moves its [updated_at]. *)
Lemma request_audit_ignores_lock :
  let out := request_audit now "low OCR confidence" None None
               (Some ["projected_yield"]) session approved_store in
  app_status <$> applications approved_store !! "app-1" = Some "approved" ∧
  dict_get "error" out.1 = None ∧
  dict_get "success" out.1 = Some (VBool true) ∧
  length (audit_trail approved_store) = 0 ∧
  audit_trail out.2
    = [mkAuditEntry "app-1" "user-1" "audit_requested" (Some "projected_yield")
         "low OCR confidence" now] ∧
  app_updated_at <$> applications approved_store !! "app-1"
    = Some "2024-05-01T10:00:00" ∧
  app_updated_at <$> applications out.2 !! "app-1" = Some now ∧
  out.2 ≠ approved_store ∧
  (∀ t reason application_id document_id field_ids session_context st,
     dict_get "error"
       (request_audit t reason application_id document_id field_ids
          session_context st).1 ≠ Some (VStr "application_locked")).
Proof.
  split_and!; try (vm_compute; reflexivity).
  - intros Heq. apply (f_equal (λ st, length (audit_trail st))) in Heq.
    vm_compute in Heq. discriminate.
  - intros t reason application_id document_id field_ids session_context st.
    destruct (request_audit_outcomes t reason application_id document_id field_ids
                session_context st)
      as [(_ & _ & _ & Hlocked)
         |(target & app_row & _ & _ & _ & _ & Herror & _)]; [done|].
    unfold dict_has in Herror.
    destruct (dict_get "error" _); [done|done].
Qed.

(** The sibling handler does check the lock. *)
Lemma update_module_locked_example :
  let out := update_module now 1 "total_revenue" "130000" None session approved_store in
  dict_get "error" out.1 = Some (VStr "application_locked") ∧ out.2 = approved_store.
Proof.
  apply (update_module_locked now 1 "total_revenue" "130000" None session
           approved_store "app-1" (application "approved"));
    [by eexists|apply reaches_scenario|done].
Qed.

(** C3 as stated fails: certification without a caller id in the session
    succeeds and writes no audit-trail entry. *)
Lemma certify_application_without_caller_no_audit_entry :
  let out := certify_application now true (Some "app-1") None complete_store in
  validation_failures "app-1" complete_store = [] ∧
  dict_get "success" out.1 = Some (VBool true) ∧
  app_status <$> applications out.2 !! "app-1" = Some "approved" ∧
  audit_trail out.2 = [] ∧
  ¬ (length (audit_trail out.2) = 1 + length (audit_trail complete_store)).
Proof.
  split_and!; try (vm_compute; reflexivity).
  vm_compute. discriminate.
Qed.

Lemma certify_application_certifies_witness :
  reaches None session complete_store "app-1" (application "under_review") ∧
  is_terminal (app_status (application "under_review")) = false ∧
  validation_failures "app-1" complete_store = [] ∧
  audit_trail (certify_application now true None session complete_store).2
    = [certification_entry "app-1" "user-1" (application "under_review") now] ∧
  dict_get "pdf_url" (certify_application now true None session complete_store).1
    = Some (VStr "/api/applications/app-1/certificate.pdf").
Proof.
  assert (reaches None session complete_store "app-1" (application "under_review"))
    as Hreach by apply reaches_scenario.
  assert (is_terminal (app_status (application "under_review")) = false)
    as Hopen by reflexivity.
  assert (validation_failures "app-1" complete_store = []) as Hvalid
    by (vm_compute; reflexivity).
  pose proof (certify_application_certifies now None session complete_store
                "app-1" (application "under_review") Hreach Hopen Hvalid)
    as (_ & _ & _ & _ & _ & Htrail & _ & _ & _ & Hpdf & _).
  split_and!; [exact Hreach|exact Hopen|exact Hvalid|exact Htrail|exact Hpdf].
Defined.

Lemma update_module_twice_witness :
  is_Some (module_name_of 1) ∧
  reaches None session empty_store "app-1" (application "draft") ∧
  is_terminal (app_status (application "draft")) = false ∧
  length (key_rows "app-1" 1 "total_revenue" (module_data empty_store)) ≤ 1 ∧
  dict_get "old_value"
    (update_module later 1 "total_revenue" "130000" None session
       (update_module now 1 "total_revenue" "125000" None session empty_store).2).1
    = Some (VStr "125000").
Proof.
  assert (is_Some (module_name_of 1)) as Hmodule by (by eexists).
  assert (reaches None session empty_store "app-1" (application "draft"))
    as Hreach by apply reaches_scenario.
  assert (is_terminal (app_status (application "draft")) = false)
    as Hopen by reflexivity.
  assert (length (key_rows "app-1" 1 "total_revenue" (module_data empty_store)) ≤ 1)
    as Hunique by (vm_compute; lia).
  split_and!; [exact Hmodule|exact Hreach|exact Hopen|exact Hunique|].
  pose proof (update_module_twice now later 1 "total_revenue" "125000" "130000"
                None session empty_store "app-1" (application "draft")
                Hmodule Hreach Hopen Hunique) as (_ & _ & Hold & _).
  exact Hold.
Defined.

(** C8 on the code: the field update cannot be prepared, so nothing is
    ever merged into a stored value.  For the field whose stored value is
    the string [125000] the call answers [database_error] and leaves the
    store as it was: the value is still the plain string, without flag,
    reason or timestamp, and the field does not count as flagged.  No call
    at all changes a module row. *)
Lemma request_audit_stores_no_flag :
  let out := request_audit now "low OCR confidence" None None
               (Some ["total_revenue"]) session complete_store in
  stored_value "app-1" "total_revenue" complete_store = Some (VStr "125000") ∧
  dict_get "error" out.1 = Some (VStr "database_error") ∧
  dict_get "success" out.1 = None ∧
  out.2 = complete_store ∧
  stored_value "app-1" "total_revenue" out.2 = Some (VStr "125000") ∧
  stored_value "app-1" "total_revenue" out.2
    ≠ Some (wrapped "low OCR confidence" now (VStr "125000")) ∧
  flagged_count "app-1" (module_data out.2) = 0 ∧
  (∀ t reason application_id document_id field_ids session_context st,
     module_data (request_audit t reason application_id document_id field_ids
                    session_context st).2 = module_data st).
Proof.
  split_and!; try (vm_compute; reflexivity).
  - vm_compute. discriminate.
  - intros. apply request_audit_tables.
Qed.


(** The extraction path reports a document in status [failed] as an OCR
    failure, and certification of the same store goes through. *)
Lemma failed_document_is_ocr_failure_yet_certifiable :
  dict_get "error"
    (extract_fields "doc-1" None session failed_document_store).1
    = Some (VStr "ocr_failed") ∧
  dict_get "success"
    (certify_application now true None session failed_document_store).1
    = Some (VBool true).
Proof. split; vm_compute; reflexivity. Qed.

End ToolsScenarios.

(** ** Tool registry *)

Section RegistryFacts.
Import Tools Registry Props.

(** C4, as the code has it.  [execute_tool] is total: it returns a payload
    for every name, input and context.  Every payload carries the tool name
    and the execution time.  An unregistered name gives [tool_not_found]
    with the registered names, leaves the store alone, and carries no
    timestamp.  For a registered name the payload carries the timestamp,
    and: a returned result is a success exactly when it has no [error] key;
    a [TypeError] gives [invalid_input]; any other exception gives
    [execution_error]. *)
Theorem execute_tool_outcomes (tools : ToolRegistry) (clock : Clock)
    (tool_name : string) (tool_input : dict) (session_context : option dict)
    (st : Store) :
  let out := execute_tool tools clock tool_name tool_input session_context st in
  let passed := if dict_truthy session_context then session_context else None in
  dict_get "tool_name" out.1 = Some (VStr tool_name) ∧
  dict_get "execution_time" out.1
    = Some (VFloat (end_time clock - start_time clock)%Q) ∧
  match get_tool tool_name tools with
  | None =>
      dict_get "success" out.1 = Some (VBool false) ∧
      dict_get "error" out.1
        = Some (VDict [("type", VStr "tool_not_found");
                       ("message",
                        VStr ("Tool '" +:+ tool_name +:+ "' not found in registry"));
                       ("available_tools", VList (VStr <$> dict_keys tools))]) ∧
      dict_get "timestamp" out.1 = None ∧
      out.2 = st
  | Some tool =>
      dict_get "timestamp" out.1 = Some (VStr (utc_now clock)) ∧
      match handler tool (handler_now clock) tool_input passed st with
      | (Returns result, st') =>
          dict_get "success" out.1 = Some (VBool (negb (dict_has "error" result))) ∧
          dict_get "result" out.1 = Some (VDict result) ∧
          dict_get "error" out.1 = None ∧
          out.2 = st'
      | (Raises (TypeError message), st') =>
          dict_get "success" out.1 = Some (VBool false) ∧
          dict_get "error" out.1
            = Some (exception_error "invalid_input" tool_name
                      "Invalid input parameters for tool '" message) ∧
          out.2 = st'
      | (Raises e, st') =>
          dict_get "success" out.1 = Some (VBool false) ∧
          dict_get "error" out.1
            = Some (exception_error "execution_error" tool_name
                      "Unexpected error executing tool '" (exn_message e)) ∧
          out.2 = st'
      end
  end.
Proof.
  intros out passed. subst out passed. unfold execute_tool.
  destruct (get_tool tool_name tools) as [tool|]; [|done].
  destruct (dict_truthy session_context);
    destruct (handler tool _ _ _ _) as [[result|[]] st']; done.
Qed.

End RegistryFacts.

(** ** The registry on a scenario *)

Section RegistryScenarios.
Import Tools Registry Scenarios.

Lemma register_certify_application :
  register_tool "certify_application" call_certify_application
    certify_application_definition [] = inr certify_only.
Proof. reflexivity. Qed.

(** C4 as stated fails on the timestamp: the payload for an unregistered
    name has none. *)
Lemma execute_tool_not_found_has_no_timestamp :
  let out := execute_tool certify_only clock "approve_everything"
               [("certification_confirmed", VBool true)] session complete_store in
  out.1 = [("success", VBool false);
           ("error",
            VDict [("type", VStr "tool_not_found");
                   ("message", VStr "Tool 'approve_everything' not found in registry");
                   ("available_tools", VList [VStr "certify_application"])]);
           ("execution_time", VFloat (1 # 2));
           ("tool_name", VStr "approve_everything")] ∧
  dict_get "timestamp" out.1 = None ∧
  ¬ (∃ t, dict_get "timestamp" out.1 = Some t).
Proof.
  split_and!; [vm_compute; reflexivity|vm_compute; reflexivity|].
  intros [t Ht]. vm_compute in Ht. discriminate.
Qed.

(** A registered tool called without its required argument: [invalid_input]. *)
Lemma execute_tool_missing_argument :
  let out := execute_tool certify_only clock "certify_application" []
               session complete_store in
  dict_get "success" out.1 = Some (VBool false) ∧
  dict_get "error" out.1
    = Some (VDict [("type", VStr "invalid_input");
                   ("message", VStr "Invalid input parameters for tool 'certify_application': certify_application() missing 1 required positional argument: 'certification_confirmed'");
                   ("details", VStr "certify_application() missing 1 required positional argument: 'certification_confirmed'")]) ∧
  dict_get "timestamp" out.1 = Some (VStr later) ∧
  out.2 = complete_store.
Proof. split_and!; vm_compute; reflexivity. Qed.

(** A handler-reported failure is a normal outcome with [success] false. *)
Lemma execute_tool_handler_failure :
  let out := execute_tool certify_only clock "certify_application"
               [("certification_confirmed", VBool true)] session incomplete_store in
  dict_get "success" out.1 = Some (VBool false) ∧
  (∃ result, dict_get "result" out.1 = Some (VDict result)
             ∧ dict_get "error" result = Some (VStr "validation_failed")) ∧
  out.2 = incomplete_store.
Proof.
  split_and!; [vm_compute; reflexivity| |vm_compute; reflexivity].
  eexists. split; vm_compute; reflexivity.
Qed.

End RegistryScenarios.

(** ** The blocking tool loop *)

Section ClientFacts.
Import Client Props.
Context {W : Type}.
Context (http_post : W → dict → (exn + dict) * W) (py_str : value → string).
Context (self : ClaudeClient) (tools : list value) (system : option string).

Local Abbreviation send := (send_message http_post self).
Local Abbreviation loop := (tool_loop http_post py_str self).
Local Abbreviation rounds := (tool_rounds http_post py_str self tools system).

(** [k] tool-use rounds consume [k] iterations of the loop. *)
Lemma tool_loop_rounds max_iterations k remaining w messages w' messages' :
  rounds k w messages w' messages' →
  loop max_iterations (k + remaining) w messages tools system
  = loop max_iterations remaining w' messages' tools system.
Proof.
  induction 1 as [|k w messages response tool_uses w1 w' messages' Hsend Hstop Huses _ IH];
    [done|].
  simpl. by rewrite Hsend, Hstop, Huses.
Qed.

(** An exception leaves the loop either as the iteration-cap error, or
    because the transport raised it, or because a tool-use reply could not
    be read. *)
Lemma tool_loop_errors max_iterations remaining w messages e w' :
  loop max_iterations remaining w messages tools system = (inl e, w') →
  e = loop_exceeded max_iterations ∨
  ∃ k wk messages_k,
    k < remaining ∧ rounds k w messages wk messages_k ∧
    (send wk (last_content messages_k) system (Some tools) = (inl e, w')
     ∨ ∃ response,
         send wk (last_content messages_k) system (Some tools) = (inr response, w')
         ∧ is_str (dict_get "stop_reason" response) "tool_use" = true
         ∧ tool_uses_of response = inl e).
Proof.
  revert w messages. induction remaining as [|remaining IH]; intros w messages; simpl.
  - intros [= <- <-]. by left.
  - destruct (send w (last_content messages) system (Some tools))
      as [[e0|response] w1] eqn:Hsend.
    + intros [= <- <-]. right. exists 0, w, messages.
      split_and!; [lia|constructor|by left].
    + destruct (is_str (dict_get "stop_reason" response) "tool_use") eqn:Hstop; [|done].
      destruct (tool_uses_of response) as [e0|tool_uses] eqn:Huses.
      * intros [= <- <-]. right. exists 0, w, messages.
        split_and!; [lia|constructor|]. right. by exists response.
      * intros Hloop. destruct (IH _ _ Hloop) as [->|(k & wk & mk & Hk & Hrounds & Hcause)];
          [by left|].
        right. exists (S k), wk, mk. split_and!; [lia| |done].
        by econstructor.
Qed.

(** Every run of the loop: some number [k] of tool-use rounds, and then
    the cap, a reply with another stop reason, an exception of the
    transport, or a tool-use reply that cannot be read. *)
Lemma tool_loop_outcome max_iterations remaining w messages :
  ∃ k wk messages_k,
    rounds k w messages wk messages_k ∧
    ((k = remaining
      ∧ loop max_iterations remaining w messages tools system
        = (inl (loop_exceeded max_iterations), wk))
     ∨ (k < remaining ∧
        ∃ w',
          (∃ response,
             send wk (last_content messages_k) system (Some tools) = (inr response, w')
             ∧ is_str (dict_get "stop_reason" response) "tool_use" = false
             ∧ loop max_iterations remaining w messages tools system
               = (inr response, w'))
          ∨ (∃ e,
               send wk (last_content messages_k) system (Some tools) = (inl e, w')
               ∧ loop max_iterations remaining w messages tools system = (inl e, w'))
          ∨ (∃ response e,
               send wk (last_content messages_k) system (Some tools)
                 = (inr response, w')
               ∧ is_str (dict_get "stop_reason" response) "tool_use" = true
               ∧ tool_uses_of response = inl e
               ∧ loop max_iterations remaining w messages tools system
                 = (inl e, w')))).
Proof.
  revert w messages. induction remaining as [|remaining IH]; intros w messages.
  - exists 0, w, messages. split; [constructor|]. by left.
  - simpl.
    destruct (send w (last_content messages) system (Some tools))
      as [[e|response] w1] eqn:Hsend.
    { exists 0, w, messages. split; [constructor|]. right. split; [lia|].
      exists w1. right. left. by exists e. }
    destruct (is_str (dict_get "stop_reason" response) "tool_use") eqn:Hstop.
    2:{ exists 0, w, messages. split; [constructor|]. right. split; [lia|].
        exists w1. left. by exists response. }
    destruct (tool_uses_of response) as [e|tool_uses] eqn:Huses.
    { exists 0, w, messages. split; [constructor|]. right. split; [lia|].
      exists w1. right. right. by exists response, e. }
    destruct (IH w1 (messages ++ tool_turn py_str response tool_uses))
      as (k & wk & messages_k & Hrounds & Hend).
    exists (S k), wk, messages_k. split; [by econstructor|].
    destruct Hend as [[-> Hcap]|[Hk Hend]]; [by left|].
    right. split; [lia|]. exact Hend.
Qed.

(** C9, as the code has it.  Every run of [execute_with_tools] consists of
    some number [k] of tool-use rounds and then ends in one of four ways:
    [k] is the iteration cap and the loop-exceeded error is raised; or [k]
    is below the cap and the next reply, which has another stop reason, is
    returned; or the next request raises in the transport and that
    exception leaves the call; or the next tool-use reply cannot be read
    and that exception leaves the call.  So after [k] rounds the cap gives
    the loop-exceeded error and a reply with another stop reason is
    returned; and the cap error is the only exception that the loop itself
    raises: any other comes from the transport or from reading a reply. *)
Theorem execute_with_tools_cap (w : W) (message : string) (max_iterations : Z) :
  let first := [[("role", VStr "user"); ("content", VStr message)]] in
  let run := execute_with_tools http_post py_str self w message tools system
               max_iterations in
  (∃ k wk messages_k,
     rounds k w first wk messages_k ∧
     ((k = Z.to_nat max_iterations
       ∧ run = (inl (loop_exceeded max_iterations), wk))
      ∨ (k < Z.to_nat max_iterations ∧
         ∃ w',
           (∃ response,
              send wk (last_content messages_k) system (Some tools)
                = (inr response, w')
              ∧ is_str (dict_get "stop_reason" response) "tool_use" = false
              ∧ run = (inr response, w'))
           ∨ (∃ e,
                send wk (last_content messages_k) system (Some tools) = (inl e, w')
                ∧ run = (inl e, w'))
           ∨ (∃ response e,
                send wk (last_content messages_k) system (Some tools)
                  = (inr response, w')
                ∧ is_str (dict_get "stop_reason" response) "tool_use" = true
                ∧ tool_uses_of response = inl e
                ∧ run = (inl e, w'))))) ∧
  (∀ k wk messages_k,
     rounds k w first wk messages_k →
     (k = Z.to_nat max_iterations → run = (inl (loop_exceeded max_iterations), wk)) ∧
     (k < Z.to_nat max_iterations →
      ∀ response w',
        send wk (last_content messages_k) system (Some tools) = (inr response, w') →
        is_str (dict_get "stop_reason" response) "tool_use" = false →
        run = (inr response, w'))) ∧
  (∀ e w', run = (inl e, w') →
     e = loop_exceeded max_iterations ∨
     ∃ j wj messages_j,
       j < Z.to_nat max_iterations ∧ rounds j w first wj messages_j ∧
       (send wj (last_content messages_j) system (Some tools) = (inl e, w')
        ∨ ∃ response,
            send wj (last_content messages_j) system (Some tools) = (inr response, w')
            ∧ is_str (dict_get "stop_reason" response) "tool_use" = true
            ∧ tool_uses_of response = inl e)).
Proof.
  intros first run. subst run. unfold execute_with_tools. fold first.
  split_and!.
  - apply tool_loop_outcome.
  - intros k wk messages_k Hrounds. split.
    + intros <-. rewrite <- (Nat.add_0_r k).
      by rewrite (tool_loop_rounds _ _ _ _ _ _ _ Hrounds).
    + intros Hk response w' Hsend Hstop.
      replace (Z.to_nat max_iterations)
        with (k + S (Z.to_nat max_iterations - S k)) by lia.
      rewrite (tool_loop_rounds _ _ _ _ _ _ _ Hrounds). simpl.
      by rewrite Hsend, Hstop.
  - intros e w'. apply tool_loop_errors.
Qed.

End ClientFacts.

(** ** The tool loop on the scenarios *)

Section ClientScenarios.
Import Client Props Scenarios.

Lemma five_tool_use_rounds :
  ∃ messages,
    tool_rounds always_tool_use show client [] None 5 0
      [[("role", VStr "user"); ("content", VStr "certify my application")]]
      5 messages.
Proof.
  eexists. do 5 (eapply rounds_more; [reflexivity..|]). apply rounds_done.
Defined.

Lemma execute_with_tools_cap_witness :
  ∃ messages,
    tool_rounds always_tool_use show client [] None 5 0
      [[("role", VStr "user"); ("content", VStr "certify my application")]]
      5 messages ∧
    execute_with_tools always_tool_use show client 0 "certify my application"
      [] None 5
    = (inl (RuntimeError "Tool execution loop exceeded max iterations: 5"), 5).
Proof.
  destruct five_tool_use_rounds as [messages Hrounds].
  exists messages. split; [exact Hrounds|].
  exact (proj1 (proj1 (proj2 (execute_with_tools_cap always_tool_use show client
                                [] None 0 "certify my application" 5))
                  5 5 messages Hrounds) eq_refl).
Defined.

(** C9 as stated fails: the iteration cap is not the only error that
    leaves the call.  When the service answers the first request with an
    HTTP error, the exception of [raise_for_status()] leaves
    [execute_with_tools], after no tool-use reply at all. *)
Lemma execute_with_tools_transport_error :
  let run := execute_with_tools service_unavailable show client 0
               "certify my application" [] None 5 in
  run = (inl (OtherError "Server error '503 Service Unavailable' for url 'https://api.anthropic.com/v1/messages'"),
         1) ∧
  run.1 ≠ inl (loop_exceeded 5) ∧
  (∀ reply, run.1 ≠ inr reply).
Proof. split_and!; [reflexivity|vm_compute; discriminate|intros reply; vm_compute; discriminate]. Qed.

(** With a plain-text reply on the third request the loop returns it. *)
Lemma execute_with_tools_returns_text :
  execute_with_tools text_on_third show client 0 "certify my application" [] None 5
  = (inr text_reply, 3).
Proof. reflexivity. Qed.

End ClientScenarios.

(** * Further properties *)

(** ** History manager: formatting, truncation, preparation, summary *)

Section HistoryMoreFacts.
Import History HistoryMore.

(** X1: formatting keeps exactly the messages with a valid role, in order,
    reduced to role and content; so every formatted message has role user
    or assistant and a content, and formatting again changes nothing. *)
Theorem format_for_claude_keeps_valid_roles (messages : list Message) :
  let formatted := format_for_claude messages false in
  formatted = formatted_message
                <$> filter (λ m, valid_role (msg_role m) = true) messages ∧
  (∀ m, m ∈ formatted →
        (msg_role m = Some "user" ∨ msg_role m = Some "assistant")
        ∧ is_Some (msg_content m) ∧ msg_id m = None ∧ msg_created_at m = None) ∧
  length formatted ≤ length messages ∧
  format_for_claude formatted false = formatted.
Proof.
  intros formatted.
  assert (formatted = formatted_message
            <$> filter (λ m, valid_role (msg_role m) = true) messages) as Hchar.
  { subst formatted. induction messages as [|msg rest IH]; [done|].
    simpl. rewrite filter_cons. case_decide as Hvalid.
    - rewrite Hvalid. simpl. by rewrite IH.
    - apply not_true_is_false in Hvalid. rewrite Hvalid. simpl. exact IH. }
  split_and!; [done| | |].
  - intros m Hm. rewrite Hchar in Hm.
    apply list_elem_of_fmap in Hm as (m0 & -> & Hm0).
    apply list_elem_of_filter in Hm0 as [Hvalid _].
    unfold valid_role in Hvalid.
    rewrite orb_true_iff, !bool_decide_eq_true in Hvalid.
    split_and!; [done|by eexists|done|done].
  - rewrite Hchar, length_fmap. apply length_filter.
  - rewrite Hchar. clear Hchar formatted.
    induction messages as [|msg rest IH]; [done|].
    rewrite filter_cons. case_decide as Hvalid; [|done].
    rewrite fmap_cons. simpl. rewrite Hvalid. simpl.
    by rewrite IH.
Qed.

Lemma slice_split {A} (i : Z) (l : list A) : slice_to i l ++ slice_from i l = l.
Proof. unfold slice_to, slice_from. apply take_drop. Qed.

(** X2: whatever [keep_most_recent] is (zero and negative values
    included), truncation returns a suffix of its input; a history within
    the budget is returned as it is; and with [keep_most_recent >= 1] a
    non-empty history is never truncated to nothing. *)
Theorem truncate_to_fit_always_suffix (h : ConversationHistory)
    (messages : list Message) (keep_most_recent : Z) :
  truncate_to_fit h messages keep_most_recent `suffix_of` messages ∧
  ((estimate_tokens h messages ≤ max_tokens h)%Z →
   truncate_to_fit h messages keep_most_recent = messages) ∧
  ((1 ≤ keep_most_recent)%Z → messages ≠ [] →
   truncate_to_fit h messages keep_most_recent ≠ []).
Proof.
  unfold truncate_to_fit.
  destruct messages as [|m ms]; [by split_and!|].
  set (messages := m :: ms).
  destruct (Z.leb_spec (estimate_tokens h messages) (max_tokens h)) as [Hfit|Hover].
  { by split_and!. }
  set (longer := (Z.of_nat (length messages) >? keep_most_recent)%Z).
  set (kept := if longer then slice_from (- keep_most_recent) messages else messages).
  set (remaining := if longer then slice_to (- keep_most_recent) messages else []).
  assert (messages = remaining ++ kept) as Hsplit.
  { subst kept remaining. destruct longer; [|done]. by rewrite slice_split. }
  destruct (prepend_older_spec h (reverse remaining) kept)
    as (taken & rest & Holder & -> & _ & _).
  split_and!.
  - exists (reverse rest).
    rewrite app_assoc, <- reverse_app, <- Holder, reverse_involutive. done.
  - lia.
  - intros Hkeep _ Hnil. apply app_eq_nil in Hnil as [_ Hkept].
    subst kept longer.
    destruct (Z.gtb_spec (Z.of_nat (length messages)) keep_most_recent) as [Hl|Hl];
      [|done].
    unfold slice_from, slice_bound in Hkept.
    destruct (Z.ltb_spec (- keep_most_recent) 0); [|lia].
    apply (f_equal length) in Hkept. rewrite length_drop in Hkept.
    simpl in Hkept, Hl. lia.
Qed.

Lemma alternates_from_roles (expected : string) (messages : list Message) :
  alternates_from expected messages →
  expected = "user" ∨ expected = "assistant" →
  ∀ m, m ∈ messages → msg_role m = Some "user" ∨ msg_role m = Some "assistant".
Proof.
  revert expected. induction messages as [|msg rest IH]; intros expected Halt Hexp m Hm.
  { by apply not_elem_of_nil in Hm. }
  destruct Halt as [Hrole Hrest].
  apply elem_of_cons in Hm as [-> | Hm].
  - rewrite Hrole. destruct Hexp as [-> | ->]; [by left|by right].
  - eapply IH; [exact Hrest| |done].
    destruct Hexp as [-> | ->]; [by right|by left].
Qed.

Lemma alternates_from_last_two (expected : string) (messages : list Message)
    (a b : Message) :
  alternates_from expected (messages ++ [a; b]) → msg_role a ≠ msg_role b.
Proof.
  revert expected. induction messages as [|msg rest IH]; intros expected; simpl.
  - intros (Ha & Hb & _). rewrite Ha, Hb.
    destruct (String.eqb expected "user") eqn:E; [|intros [= ->]; done].
    apply String.eqb_eq in E. subst expected. done.
  - intros [_ Hrest]. by eapply IH.
Qed.

(** X3: with a new user message, preparation fails whenever the formatted
    history ends with a user message; when it succeeds, the result ends
    with the new message and the history before it is empty or ends with an
    assistant message. *)
Theorem prepare_for_api_new_message (h : ConversationHistory)
    (messages : list Message) (new_user_message : option string)
    (auto_truncate : bool) :
  let history :=
    format_for_claude
      (if auto_truncate then truncate_to_fit h messages 10 else messages) false in
  let run := prepare_for_api h messages new_user_message auto_truncate in
  truthy new_user_message = true →
  (∀ m, last history = Some m → msg_role m = Some "user" →
        ∃ error, run = inl (ValueError error)) ∧
  (∀ out, run = inr out →
     out = history ++ [mkMessage (Some "user") new_user_message None None] ∧
     (history = [] ∨
      ∃ m, last history = Some m ∧ msg_role m = Some "assistant")).
Proof.
  intros history run Hnew.
  set (new_message := mkMessage (Some "user") new_user_message None None).
  assert (run = match validate_alternation (history ++ [new_message]) with
                | (true, _) => inr (history ++ [new_message])
                | (false, error) =>
                    inl (ValueError ("Invalid message sequence: "
                                     +:+ default "None" error))
                end) as Hrun.
  { subst run history. unfold prepare_for_api. by rewrite Hnew. }
  destruct (validate_alternation_correct (history ++ [new_message])) as [Hok Hbad].
  split.
  - intros m Hlast Hrole. rewrite Hrun.
    destruct (Hbad) as [error ->]; [|by eexists].
    intros Halt. apply last_Some in Hlast as [before Hbefore].
    rewrite Hbefore, <- app_assoc in Halt. simpl in Halt.
    apply alternates_from_last_two in Halt. by rewrite Hrole in Halt.
  - intros out Hout. rewrite Hrun in Hout.
    destruct (strictly_alternates_dec (history ++ [new_message])) as [Halt|Hnalt].
    2:{ destruct (Hbad Hnalt) as [error Herr]. by rewrite Herr in Hout. }
    rewrite (Hok Halt) in Hout. injection Hout as <-. split; [done|].
    destruct (last history) as [m|] eqn:Hlast.
    + right. exists m. split; [done|].
      pose proof Hlast as Hlast'. apply last_Some in Hlast' as [before Hbefore].
      assert (msg_role m = Some "user" ∨ msg_role m = Some "assistant") as [Hu|Ha].
      { eapply (alternates_from_roles "user"); [exact Halt|by left|].
        rewrite Hbefore. apply elem_of_app. left. apply elem_of_app. right. left. }
      * rewrite Hbefore, <- app_assoc in Halt. simpl in Halt.
        apply alternates_from_last_two in Halt. by rewrite Hu in Halt.
      * done.
    + left. by apply last_None in Hlast.
Qed.

(** X4: summarising never loses a message.  At or below the threshold the
    history comes back whole and without summary; above it the history
    splits into the summarised part and the recent part, which holds
    exactly [summary_threshold] messages when the threshold is positive;
    with threshold zero the summary covers no message at all. *)
Theorem summarize_old_messages_partition (messages : list Message)
    (summary_threshold : Z) :
  let out := summarize_old_messages messages summary_threshold in
  ((Z.of_nat (length messages) ≤ summary_threshold)%Z → out = (None, messages)) ∧
  ((summary_threshold < Z.of_nat (length messages))%Z →
   ∃ old_messages,
     messages = old_messages ++ out.2 ∧
     out.1 = Some (summary_text old_messages) ∧
     ((1 ≤ summary_threshold)%Z → length out.2 = Z.to_nat summary_threshold) ∧
     (summary_threshold = 0%Z → old_messages = [] ∧ out.2 = messages)).
Proof.
  intros out. subst out. unfold summarize_old_messages.
  destruct (Z.leb_spec (Z.of_nat (length messages)) summary_threshold) as [Hle|Hgt].
  - split; [done|lia].
  - split; [lia|]. intros _.
    exists (slice_to (- summary_threshold) messages). simpl.
    split_and!; [by rewrite slice_split|done| |].
    + intros Hpos. unfold slice_from, slice_bound.
      destruct (Z.ltb_spec (- summary_threshold) 0); [|lia].
      rewrite length_drop. lia.
    + intros ->. unfold slice_to, slice_from, slice_bound. simpl.
      by rewrite take_0, drop_0.
Qed.

(** X5: the history cache.  A cached history is read back; caching or
    clearing one session leaves the others alone; clearing without a
    session id, or with the empty id, empties the whole cache. *)
Theorem history_cache_round_trip (cache : Cache) (session_id other : string)
    (messages : list Message) :
  get_cached_history session_id (cache_history session_id messages cache)
    = Some messages ∧
  (other ≠ session_id →
   get_cached_history other (cache_history session_id messages cache)
     = get_cached_history other cache) ∧
  (session_id ≠ "" →
   get_cached_history session_id (clear_cache (Some session_id) cache) = None ∧
   (other ≠ session_id →
    get_cached_history other (clear_cache (Some session_id) cache)
      = get_cached_history other cache)) ∧
  get_cached_history other (clear_cache None cache) = None ∧
  get_cached_history other (clear_cache (Some "") cache) = None.
Proof.
  unfold get_cached_history, cache_history, clear_cache. split_and!.
  - apply lookup_insert_eq.
  - intros Hne. by apply lookup_insert_ne.
  - intros Hid. assert (truthy (Some session_id) = true) as ->.
    { simpl. destruct (String.eqb_spec session_id ""); done. }
    simpl. split; [apply lookup_delete_eq|].
    intros Hne. by apply lookup_delete_ne.
  - done.
  - done.
Qed.

End HistoryMoreFacts.

(** ** Tool registry: registration and lookup *)

Section RegistryMoreFacts.
Import Tools Registry RegistryMore.

Lemma get_tool_store_eq name tool tools :
  get_tool name (store_tool name tool tools) = Some tool.
Proof.
  induction tools as [|[name' tool'] tools IH]; simpl.
  - by rewrite String.eqb_refl.
  - destruct (String.eqb name name') eqn:E; simpl; by rewrite ?String.eqb_refl, ?E.
Qed.

Lemma get_tool_store_ne name other tool tools :
  other ≠ name → get_tool other (store_tool name tool tools) = get_tool other tools.
Proof.
  intros Hne. induction tools as [|[name' tool'] tools IH]; simpl.
  - destruct (String.eqb_spec other name); done.
  - destruct (String.eqb_spec name name') as [<-|Hn]; simpl.
    + destruct (String.eqb_spec other name); done.
    + destruct (String.eqb other name'); [done|apply IH].
Qed.

Lemma get_tool_is_Some name (tools : ToolRegistry) :
  is_Some (get_tool name tools) ↔ name ∈ list_tools tools.
Proof.
  unfold list_tools, dict_keys.
  induction tools as [|[name' tool'] tools IH]; simpl.
  - split; [by intros [? ?]|by intros ?%not_elem_of_nil].
  - rewrite elem_of_cons. destruct (String.eqb_spec name name') as [->|Hne].
    + split; [by left|by eexists].
    + rewrite IH. split; [by right|by intros [?|?]].
Qed.

Lemma list_tools_store name tool (tools : ToolRegistry) :
  list_tools (store_tool name tool tools)
  = if decide (name ∈ list_tools tools) then list_tools tools
    else list_tools tools ++ [name].
Proof.
  unfold list_tools, dict_keys.
  induction tools as [|[name' tool'] tools IH]; [done|].
  cbn [store_tool]. destruct (String.eqb_spec name name') as [<-|Hne].
  - cbn [fmap list_fmap fst]. rewrite decide_True; [done|left].
  - rewrite !fmap_cons. cbn [fst]. rewrite IH.
    destruct (decide (name ∈ tools.*1)) as [Hin|Hnin].
    + rewrite decide_True; [done|by right].
    + rewrite decide_False; [done|].
      intros [?|?]%elem_of_cons; done.
Qed.

(** X6: registration succeeds exactly when the definition carries the
    registry name under [name] and has an [input_schema]; otherwise it
    raises [ValueError]. *)
Theorem register_tool_succeeds_iff (name : string) (h : Handler) (defn : dict)
    (tools : ToolRegistry) :
  ((∃ tools', register_tool name h defn tools = inr tools') ↔
   dict_get "name" defn = Some (VStr name) ∧ dict_has "input_schema" defn = true) ∧
  (∀ e, register_tool name h defn tools = inl e → ∃ message, e = ValueError message).
Proof.
  unfold register_tool, dict_has.
  destruct (dict_get "name" defn) as [[| | | |n| |]|] eqn:Hname;
    destruct (dict_get "input_schema" defn) as [schema|] eqn:Hschema; simpl;
    try (split; [split; [by intros [? ?]|by intros [? ?]]|by intros e [= <-]; eexists]).
  destruct (String.eqb_spec n name) as [->|Hne].
  - split; [split; [done|by eexists]|done].
  - split; [split; [by intros [? ?]|intros [[= ?] _]; done]|by intros e [= <-]; eexists].
Qed.

(** X7: after a successful registration the tool is found under its name
    with the registered definition, every other name resolves as before, a
    name that was already registered keeps its place in the listing (the
    entry is overwritten, not duplicated), a new name is listed last, and
    the names stay pairwise distinct. *)
Theorem register_tool_round_trip (name : string) (h : Handler) (defn : dict)
    (tools tools' : ToolRegistry) :
  register_tool name h defn tools = inr tools' →
  get_tool name tools' = Some (mkTool h defn) ∧
  get_tool_definition name tools' = Some defn ∧
  (∀ other, other ≠ name → get_tool other tools' = get_tool other tools) ∧
  list_tools tools' = (if decide (name ∈ list_tools tools) then list_tools tools
                       else list_tools tools ++ [name]) ∧
  get_tool_count tools' = (if decide (name ∈ list_tools tools) then get_tool_count tools
                           else S (get_tool_count tools)) ∧
  (NoDup (list_tools tools) → NoDup (list_tools tools')).
Proof.
  intros Hreg.
  assert (tools' = store_tool name (mkTool h defn) tools) as ->.
  { unfold register_tool in Hreg.
    destruct (negb (dict_has "name" defn) || negb (dict_has "input_schema" defn));
      [done|].
    destruct (dict_get "name" defn) as [[| | | |n| |]|]; try done.
    destruct (String.eqb n name); [|done]. by injection Hreg as <-. }
  assert (list_tools (store_tool name (mkTool h defn) tools)
          = if decide (name ∈ list_tools tools) then list_tools tools
            else list_tools tools ++ [name]) as Hlist by apply list_tools_store.
  split_and!.
  - apply get_tool_store_eq.
  - unfold get_tool_definition. by rewrite get_tool_store_eq.
  - intros other Hne. by apply get_tool_store_ne.
  - done.
  - apply (f_equal length) in Hlist. unfold list_tools, dict_keys in Hlist.
    rewrite length_fmap in Hlist. unfold get_tool_count. rewrite Hlist.
    unfold list_tools, dict_keys. case_decide; [by rewrite length_fmap|].
    rewrite length_app, length_fmap. simpl. lia.
  - intros Hnodup. rewrite Hlist. case_decide as Hin; [done|].
    apply NoDup_app. split_and!; [done| |apply NoDup_singleton].
    intros x Hx ->%list_elem_of_singleton. done.
Qed.

(** X8: the accessors agree with dispatch: a name has a definition exactly
    when it is listed, [execute_tool] answers [tool_not_found] exactly for
    the names that are not listed, and there is one advertised definition
    per registered entry. *)
Theorem registry_accessors_agree (tools : ToolRegistry) (clock : Clock)
    (tool_name : string) (tool_input : dict) (session_context : option dict)
    (st : Store) :
  let out := execute_tool tools clock tool_name tool_input session_context st in
  (is_Some (get_tool_definition tool_name tools) ↔ tool_name ∈ list_tools tools) ∧
  ((∃ rest, dict_get "error" out.1
            = Some (VDict (("type", VStr "tool_not_found") :: rest)))
   ↔ tool_name ∉ list_tools tools) ∧
  length (get_tool_definitions tools) = get_tool_count tools.
Proof.
  intros out. split_and!.
  - rewrite <- get_tool_is_Some. unfold get_tool_definition.
    destruct (get_tool tool_name tools); split; intros [? ?]; done.
  - rewrite <- get_tool_is_Some. subst out. unfold execute_tool.
    destruct (get_tool tool_name tools) as [tool|].
    + split; [|by intros []].
      intros [rest Hrest]. exfalso.
      destruct (dict_truthy session_context);
        destruct (handler tool _ _ _ _) as [[result|[]] st']; simpl in Hrest;
        discriminate.
    + split; [by intros _ [? ?]|]. intros _. by eexists.
  - unfold get_tool_definitions, get_tool_count. apply length_fmap.
Qed.

End RegistryMoreFacts.

(** ** Tool handlers: what they write and what they leave alone *)

Section ToolsMoreFacts.
Import Tools Props MoreProps.

(** X9: [update_module] answers with an error payload and an untouched
    store, or with a success payload; a module number outside 1..5 is
    rejected as [invalid_module] whatever the other arguments are. *)
Theorem update_module_error_or_success now module_number field_id value
    application_id session_context st :
  let out := update_module now module_number field_id value
               application_id session_context st in
  ((dict_has "error" out.1 = true ∧ dict_get "success" out.1 = None ∧ out.2 = st)
   ∨ (dict_has "error" out.1 = false
      ∧ dict_get "success" out.1 = Some (VBool true)
      ∧ dict_get "new_value" out.1 = Some (VStr value)
      ∧ dict_get "module_name" out.1 = VStr <$> module_name_of module_number)) ∧
  (module_name_of module_number = None →
   dict_get "error" out.1 = Some (VStr "invalid_module")).
Proof.
  intros out. subst out. unfold update_module.
  destruct (module_name_of module_number) as [name|]; [|by split; [left|]].
  split; [|done].
  destruct (resolve_application_id application_id session_context)
    as [target|]; [|by left].
  destruct (applications st !! target) as [app_row|]; [|by left].
  destruct (not_owner _ app_row); [by left|].
  destruct (is_terminal (app_status app_row)); [by left|].
  right. by destruct (List.find _ (module_data st)).
Qed.

Lemma next_id_above (rows : list ModuleField) (row : ModuleField) :
  row ∈ rows → (mf_id row < next_id rows)%Z.
Proof.
  induction rows as [|r rows IH]; [by intros ?%not_elem_of_nil|].
  intros [->|Hin]%elem_of_cons; simpl; [lia|]. specialize (IH Hin). lia.
Qed.

Lemma NoDup_ids_inj (rows : list ModuleField) (x y : ModuleField) :
  NoDup (mf_id <$> rows) → x ∈ rows → y ∈ rows → mf_id x = mf_id y → x = y.
Proof.
  induction rows as [|r rows IH]; [by intros _ ?%not_elem_of_nil|].
  rewrite fmap_cons, NoDup_cons. intros [Hr Hnodup] Hx Hy Hid.
  apply elem_of_cons in Hx as [->|Hx]; apply elem_of_cons in Hy as [->|Hy].
  - done.
  - exfalso. apply Hr. rewrite Hid. by apply list_elem_of_fmap_2.
  - exfalso. apply Hr. rewrite <- Hid. by apply list_elem_of_fmap_2.
  - by apply IH.
Qed.

(** X10: the footprint of [update_module].  Documents and audit trail are
    never touched; every application keeps owner, status, type and notes
    (only [updated_at] of the target moves); no module row is removed and
    at most one is added; row ids stay pairwise distinct; and with distinct
    ids every row stored under another key is left exactly as it was. *)
Theorem update_module_footprint now module_number field_id value
    application_id session_context st :
  let out := update_module now module_number field_id value
               application_id session_context st in
  documents out.2 = documents st ∧
  audit_trail out.2 = audit_trail st ∧
  (∀ id app, applications st !! id = Some app →
     ∃ app', applications out.2 !! id = Some app' ∧ same_application app' app) ∧
  (∀ id, applications st !! id = None → applications out.2 !! id = None) ∧
  length (module_data st) ≤ length (module_data out.2) ≤ S (length (module_data st)) ∧
  (NoDup (mf_id <$> module_data st) →
   NoDup (mf_id <$> module_data out.2) ∧
   ∀ target row,
     resolve_application_id application_id session_context = Some target →
     row ∈ module_data st →
     has_key target module_number field_id row = false →
     row ∈ module_data out.2).
Proof.
  intros out. subst out. unfold update_module.
  assert (∀ id app, applications st !! id = Some app →
            ∃ app', applications st !! id = Some app' ∧ same_application app' app)
    as Hsame by (intros id app ?; by exists app).
  assert (documents st = documents st ∧
          audit_trail st = audit_trail st ∧
          (∀ id app, applications st !! id = Some app →
             ∃ app', applications st !! id = Some app' ∧ same_application app' app) ∧
          (∀ id, applications st !! id = None → applications st !! id = None) ∧
          length (module_data st) ≤ length (module_data st) ≤ S (length (module_data st)) ∧
          (NoDup (mf_id <$> module_data st) →
           NoDup (mf_id <$> module_data st) ∧
           ∀ target row,
             resolve_application_id application_id session_context = Some target →
             row ∈ module_data st →
             has_key target module_number field_id row = false →
             row ∈ module_data st)) as Hunchanged.
  { split_and!; [done|done|exact Hsame|done|lia|lia|]. intros ?. by split. }
  destruct (module_name_of module_number) as [name|]; [|exact Hunchanged].
  destruct (resolve_application_id application_id session_context)
    as [target|] eqn:Hres; [|exact Hunchanged].
  destruct (applications st !! target) as [app_row|] eqn:Happ; [|exact Hunchanged].
  destruct (not_owner _ app_row); [exact Hunchanged|].
  destruct (is_terminal (app_status app_row)); [exact Hunchanged|].
  clear Hunchanged.
  assert (∀ rows id app,
            applications st !! id = Some app →
            ∃ app', applications (touch_application now target
                                    (set_module_data rows st)) !! id = Some app'
                    ∧ same_application app' app) as Happs.
  { intros rows id app Hid. simpl.
    destruct (decide (target = id)) as [<-|Hne].
    - rewrite lookup_alter_eq, Hid. simpl. by eexists.
    - rewrite lookup_alter_ne by done. by exists app. }
  assert (∀ rows id,
            applications st !! id = None →
            applications (touch_application now target
                            (set_module_data rows st)) !! id = None) as Hnone.
  { intros rows id Hid. simpl.
    destruct (decide (target = id)) as [<-|Hne].
    - by rewrite lookup_alter_eq, Hid.
    - by rewrite lookup_alter_ne. }
  destruct (List.find _ (module_data st)) as [found|] eqn:Hfind; cbv iota beta.
  - split_and!; [done|done|apply Happs|apply Hnone| | |].
    + simpl. by rewrite length_fmap.
    + simpl. rewrite length_fmap. lia.
    + intros Hnodup. simpl. split.
      * rewrite <- list_fmap_compose.
        erewrite list_fmap_ext; [exact Hnodup|].
        intros i r _. simpl. by destruct (Z.eqb (mf_id r) (mf_id found)).
      * intros target' row [= <-] Hrow Hkey.
        apply list_elem_of_fmap. exists row. split; [|done].
        destruct (Z.eqb_spec (mf_id row) (mf_id found)) as [Hid|]; [|done].
        apply find_some in Hfind as [Hfound Hfkey].
        apply list_elem_of_In in Hfound.
        rewrite (NoDup_ids_inj _ _ _ Hnodup Hrow Hfound Hid) in Hkey. congruence.
  - split_and!; [done|done|apply Happs|apply Hnone| | |].
    + simpl. rewrite length_app. lia.
    + simpl. rewrite length_app. simpl. lia.
    + intros Hnodup. simpl. split.
      * rewrite fmap_app. apply NoDup_app. split_and!; [done| |apply NoDup_singleton].
        intros x Hx Hx'. simpl in Hx'. apply list_elem_of_singleton in Hx'. subst x.
        apply list_elem_of_fmap in Hx as (r & Hid & Hr).
        apply next_id_above in Hr. lia.
      * intros target' row _ Hrow _. apply elem_of_app. by left.
Qed.

(** *** request_audit *)

Lemma find_field_exists target rows field_id :
  field_exists target rows field_id
  = match List.find (targets target field_id) rows with
    | Some _ => true
    | None => false
    end.
Proof.
  unfold field_exists. induction rows as [|r rows IH]; [done|]. simpl.
  by destruct (targets target field_id r).
Qed.

(** X11: the errors of [request_audit].  A call that reports an error
    has written nothing, and a call without an error reports success.
    Every call that names a document reports an error: the document is
    not in the application, or its update is refused by the database.
    Every call that gets as far as a named field with a stored row ends in
    [database_error]. *)
Theorem request_audit_error_keeps_store now reason application_id document_id
    field_ids session_context st :
  let out := request_audit now reason application_id document_id field_ids
               session_context st in
  (dict_has "error" out.1 = true → out.2 = st) ∧
  (dict_has "error" out.1 = false → dict_get "success" out.1 = Some (VBool true)) ∧
  (truthy document_id = true → dict_has "error" out.1 = true) ∧
  (∀ target app_row d,
     reaches application_id session_context st target app_row →
     truthy document_id = true →
     List.find (λ d, String.eqb (doc_id d) (default "" document_id)
                     && String.eqb (doc_application_id d) target) (documents st)
       = Some d →
     dict_get "error" out.1 = Some (VStr "database_error")) ∧
  (∀ target app_row field_id row,
     reaches application_id session_context st target app_row →
     truthy document_id = false →
     field_id ∈ default [] field_ids →
     List.find (targets target field_id) (module_data st) = Some row →
     dict_get "error" out.1 = Some (VStr "database_error")).
Proof.
  intros out.
  pose proof (request_audit_outcomes now reason application_id document_id field_ids
                session_context st) as Hcases. fold out in Hcases.
  split_and!.
  - destruct Hcases as [(_ & _ & Hst & _)
                       |(target & app_row & _ & _ & _ & _ & Herror & _)];
      [done|]. intros Herror'. congruence.
  - destruct Hcases as [(Herror & _)
                       |(target & app_row & _ & _ & _ & _ & _ & Hsuccess & _)];
      [|done]. intros Herror'. congruence.
  - destruct Hcases as [(Herror & _)|(target & app_row & _ & Hdoc & _)];
      [done|]. intros Hdoc'. congruence.
  - intros target app_row d (Hres & Happ & Hown) Hdoc Hfind.
    subst out. unfold request_audit. rewrite Hres, Hdoc. simpl.
    fold (caller_id session_context). rewrite Happ, Hown, Hfind. done.
  - intros target app_row field_id row (Hres & Happ & Hown) Hdoc Hin Hfind.
    subst out. unfold request_audit. rewrite Hres, Hdoc. simpl.
    destruct (list_truthy field_ids) eqn:Hfields; simpl.
    2:{ destruct field_ids as [[|]|]; try done; by apply elem_of_nil in Hin. }
    fold (caller_id session_context). rewrite Happ, Hown.
    destruct (flag_fields_cases target (module_data st) (default [] field_ids))
      as [[_ Hnone]|[-> _]]; [|done].
    rewrite (Hnone field_id Hin) in Hfind. done.
Qed.

(** X13: a successful call appends exactly one audit-trail row when the
    session identifies the caller, and none otherwise; the rows that were
    there stay. *)
Theorem request_audit_one_trail_row now reason application_id document_id
    field_ids session_context st :
  let out := request_audit now reason application_id document_id field_ids
               session_context st in
  dict_get "success" out.1 = Some (VBool true) →
  ∃ target,
    resolve_application_id application_id session_context = Some target ∧
    audit_trail out.2 =
      audit_trail st ++
      caller_entries (caller_id session_context)
        (λ uid, audit_requested_entry target uid field_ids reason now) ∧
    length (audit_trail out.2) =
      length (audit_trail st) + (if truthy (caller_id session_context) then 1 else 0).
Proof.
  intros out Hsuccess.
  destruct (request_audit_outcomes now reason application_id document_id field_ids
              session_context st)
    as [(_ & Hnone & _)
       |(target & app_row & (Hres & _) & _ & _ & _ & _ & _ & _ & _ & _ & Hst)];
    fold out in Hnone || fold out in Hst; [congruence|].
  exists target. split; [done|]. rewrite Hst. simpl.
  unfold caller_entries, audit_requested_entry.
  destruct (caller_id session_context) as [uid|]; simpl.
  - destruct (negb (String.eqb uid "")); simpl; [|by rewrite app_nil_r, Nat.add_0_r].
    split; [done|]. rewrite length_app. done.
  - by rewrite app_nil_r, Nat.add_0_r.
Qed.

(** X14: when [request_audit] succeeds.  It reports success exactly for
    a call that resolves to an application of the caller, names no
    document, and names at least one field, none of which is stored for
    the application.  The answer then counts no flagged field and no
    flagged document. *)
Theorem request_audit_succeeds_iff now reason application_id document_id
    field_ids session_context st :
  let out := request_audit now reason application_id document_id field_ids
               session_context st in
  (dict_get "success" out.1 = Some (VBool true) ↔
   ∃ target app_row,
     reaches application_id session_context st target app_row ∧
     truthy document_id = false ∧
     list_truthy field_ids = true ∧
     ∀ field_id, field_id ∈ default [] field_ids →
       field_exists target (module_data st) field_id = false) ∧
  (dict_get "success" out.1 = Some (VBool true) →
   dict_get "flagged_fields_count" out.1 = Some (VInt 0) ∧
   dict_get "flagged_document" out.1 = Some (VBool false) ∧
   dict_get "details" out.1 = Some (VList [])).
Proof.
  intros out.
  pose proof (request_audit_outcomes now reason application_id document_id field_ids
                session_context st) as Hcases. fold out in Hcases.
  split.
  - split.
    + intros Hsuccess.
      destruct Hcases as [(_ & Hnone & _)
                         |(target & app_row & Hreach & Hdoc & Hfields & Hnot & _)];
        [congruence|].
      exists target, app_row. split_and!; try done.
      intros field_id Hin. rewrite find_field_exists. by rewrite (Hnot field_id Hin).
    + intros (target & app_row & (Hres & Happ & Hown) & Hdoc & Hfields & Hnot).
      subst out. unfold request_audit. rewrite Hres, Hdoc, Hfields. simpl.
      fold (caller_id session_context). rewrite Happ, Hown.
      destruct (flag_fields_cases target (module_data st) (default [] field_ids))
        as [[-> _]|[_ (f & row & Hin & Hrow)]]; [done|].
      specialize (Hnot f Hin). rewrite find_field_exists, Hrow in Hnot. done.
  - intros Hsuccess.
    destruct Hcases as [(_ & Hnone & _)
                       |(target & app_row & _ & _ & _ & _ & _ & _ & ? & ? & ? & _)];
      [congruence|done].
Qed.

Lemma reaches_after_touch now application_id session_context apps docs rows trail
    (st : Store) target app_row :
  reaches application_id session_context st target app_row →
  apps = applications st →
  ∃ app_row',
    reaches application_id session_context
      (touch_application now target (mkStore apps docs rows trail)) target app_row'
    ∧ same_application app_row' app_row.
Proof.
  intros (Hres & Happ & Hown) ->.
  exists (mkApplication (app_user_id app_row) (app_status app_row)
            (app_certification_type app_row) (app_notes app_row) now).
  split; [|done]. split_and!; [done| |done].
  simpl. by rewrite lookup_alter_eq, Happ.
Qed.

Lemma validation_failures_tables target (st st' : Store) :
  documents st' = documents st → module_data st' = module_data st →
  validation_failures target st' = validation_failures target st.
Proof.
  intros Hdocs Hrows.
  unfold validation_failures, document_failures, module_failures, missing_modules,
    flagged_failures, upload_failures.
  by rewrite Hdocs, Hrows.
Qed.

(** X12: the footprint of [request_audit].  No call changes a document
    or a module row, so nothing is ever flagged: the number of flagged
    fields of every application stays what it was.  Every application
    keeps owner, status, type and notes (only [updated_at] of the target
    moves), and no application appears or disappears. *)
Theorem request_audit_footprint now reason application_id
    document_id field_ids session_context st :
  let out := request_audit now reason application_id document_id field_ids
               session_context st in
  documents out.2 = documents st ∧
  module_data out.2 = module_data st ∧
  (∀ target, flagged_count target (module_data out.2)
             = flagged_count target (module_data st)) ∧
  (∀ id app, applications st !! id = Some app →
     ∃ app', applications out.2 !! id = Some app' ∧ same_application app' app) ∧
  (∀ id, applications st !! id = None → applications out.2 !! id = None).
Proof.
  intros out.
  destruct (request_audit_tables now reason application_id document_id field_ids
              session_context st) as [Hdocs Hrows]. fold out in Hdocs, Hrows.
  split_and!; [done|done|by intros; rewrite Hrows| |].
  - intros id app Hid.
    destruct (request_audit_outcomes now reason application_id document_id field_ids
                session_context st)
      as [(_ & _ & Hst & _)
         |(target & app_row & _ & _ & _ & _ & _ & _ & _ & _ & _ & Hst)];
      fold out in Hst; rewrite Hst.
    + by exists app.
    + simpl. destruct (decide (id = target)) as [->|Hne].
      * rewrite lookup_alter_eq, Hid. simpl. by eexists.
      * rewrite lookup_alter_ne by done. by exists app.
  - intros id Hid.
    destruct (request_audit_outcomes now reason application_id document_id field_ids
                session_context st)
      as [(_ & _ & Hst & _)
         |(target & app_row & _ & _ & _ & _ & _ & _ & _ & _ & _ & Hst)];
      fold out in Hst; rewrite Hst; [done|].
    simpl. destruct (decide (id = target)) as [->|Hne].
    + by rewrite lookup_alter_eq, Hid.
    + by rewrite lookup_alter_ne.
Qed.

(** X15: an audit request never stands in the way of certification.
    After any call of [request_audit] each of the four certification
    checks gives what it gave before; so an application that could be
    certified before the call is certified after it. *)
Theorem request_audit_keeps_certification_checks now later reason application_id
    document_id field_ids session_context st :
  let out := request_audit now reason application_id document_id field_ids
               session_context st in
  (∀ target,
     document_failures target out.2 = document_failures target st ∧
     module_failures target out.2 = module_failures target st ∧
     flagged_failures target out.2 = flagged_failures target st ∧
     upload_failures target out.2 = upload_failures target st ∧
     validation_failures target out.2 = validation_failures target st) ∧
  (∀ target app_row,
     reaches application_id session_context st target app_row →
     is_terminal (app_status app_row) = false →
     validation_failures target st = [] →
     dict_get "success"
       (certify_application later true application_id session_context out.2).1
       = Some (VBool true)).
Proof.
  intros out.
  destruct (request_audit_tables now reason application_id document_id field_ids
              session_context st) as [Hdocs Hrows]. fold out in Hdocs, Hrows.
  split.
  - intros target.
    unfold validation_failures, document_failures, module_failures, missing_modules,
      flagged_failures, upload_failures.
    by rewrite Hdocs, Hrows.
  - intros target app_row Hreach Hopen Hvalid.
    assert (∃ app_row', reaches application_id session_context out.2 target app_row'
                        ∧ same_application app_row' app_row)
      as (app_row' & Hreach' & (_ & Hstatus & _)).
    { destruct (request_audit_outcomes now reason application_id document_id
                  field_ids session_context st)
        as [(_ & _ & Hst & _)
           |(target' & app_row0 & (Hres' & _) & _ & _ & _ & _ & _ & _ & _ & _ & Hst)];
        fold out in Hst; rewrite Hst.
      - by exists app_row.
      - assert (target' = target) as ->
          by (destruct Hreach as (Hres & _); congruence).
        unfold set_audit_trail. by eapply reaches_after_touch. }
    apply (certify_application_success later application_id session_context out.2
             target app_row' Hreach').
    + by rewrite Hstatus.
    + rewrite <- Hvalid. by apply validation_failures_tables.
Qed.

(** X16: certification locks the application.  After a successful
    certification, certifying again answers [already_certified] and
    [update_module] answers [application_locked], for the same caller and
    any valid module; neither writes anything. *)
Theorem certified_application_is_locked now application_id session_context st
    target app_row :
  let st1 := (certify_application now true application_id session_context st).2 in
  reaches application_id session_context st target app_row →
  is_terminal (app_status app_row) = false →
  validation_failures target st = [] →
  (∀ later confirmed,
     let again := certify_application later confirmed application_id
                    session_context st1 in
     again.2 = st1 ∧
     (confirmed = true → dict_get "error" again.1 = Some (VStr "already_certified"))) ∧
  (∀ later module_number field_id value,
     is_Some (module_name_of module_number) →
     let edit := update_module later module_number field_id value application_id
                   session_context st1 in
     dict_get "error" edit.1 = Some (VStr "application_locked") ∧ edit.2 = st1).
Proof.
  intros st1 Hreach Hopen Hvalid.
  destruct (certify_application_success now _ _ _ _ _ Hreach Hopen Hvalid)
    as (Happs & _).
  fold st1 in Happs.
  assert (reaches application_id session_context st1 target
            (certified_application app_row now)) as Hreach1.
  { destruct Hreach as (Hres & Happ & Hown). split_and!; [done| |done].
    by rewrite Happs, lookup_insert_eq. }
  split.
  - intros later confirmed again. subst again.
    destruct Hreach1 as (Hres1 & Happ1 & Hown1).
    unfold certify_application. destruct confirmed; simpl negb; cbv iota; [|done].
    rewrite Hres1, Happ1. fold (caller_id session_context). rewrite Hown1. done.
  - intros later module_number field_id value Hmodule edit.
    by apply (update_module_locked later module_number field_id value
                application_id session_context st1 target
                (certified_application app_row now)).
Qed.

(** X17: the footprint of [certify_application].  No call changes a
    document or a module row, and no call changes an application other
    than the one the call resolves to. *)
Theorem certify_application_footprint now confirmed application_id
    session_context st :
  let out := certify_application now confirmed application_id session_context st in
  documents out.2 = documents st ∧
  module_data out.2 = module_data st ∧
  (∀ id, resolve_application_id application_id session_context ≠ Some id →
         applications out.2 !! id = applications st !! id) ∧
  (dict_has "error" out.1 = true → out.2 = st).
Proof.
  intros out. subst out. unfold certify_application.
  destruct confirmed; simpl negb; cbv iota; [|done].
  destruct (resolve_application_id application_id session_context)
    as [target|]; [|done].
  destruct (applications st !! target) as [app_row|]; [|done].
  destruct (not_owner _ app_row); [done|].
  destruct (is_terminal (app_status app_row)); [done|].
  destruct (validation_failures target st); [|done].
  destruct (if dict_truthy session_context
            then ctx_get "user_id" session_context else None) as [uid|];
    [destruct (truthy (Some uid))|];
    cbn [fst snd]; (split_and!; [done|done| |done]);
    intros id Hid; simpl; apply lookup_insert_ne; congruence.
Qed.

(** *** extract_fields *)

Section ExtractFields.

Lemma find_fmap_same {A} (p : A → bool) (f : A → A) (l : list A) :
  (∀ x, p (f x) = p x) → List.find p (f <$> l) = f <$> List.find p l.
Proof.
  intros Hp. induction l as [|x l IH]; [done|].
  rewrite fmap_cons. simpl. rewrite Hp. by destruct (p x).
Qed.

(** What [extract_fields] writes, case by case. *)
Lemma extract_fields_writes document_id field_hints session_context st :
  let out := extract_fields document_id field_hints session_context st in
  applications out.2 = applications st ∧
  module_data out.2 = module_data st ∧
  audit_trail out.2 = audit_trail st ∧
  (documents out.2 = documents st
   ∨ documents out.2 = mark_processing document_id (documents st)
     ∧ dict_get "action_required" out.1 = Some (VStr "poll_for_completion")) ∧
  (∀ d, d ∈ documents st → doc_id d ≠ document_id → d ∈ documents out.2) ∧
  (dict_has "error" out.1 = true → out.2 = st).
Proof.
  intros out. subst out. unfold extract_fields.
  destruct (List.find _ (documents st)) as [document|];
    [|by split_and!; [done|done|done|left|done|done]].
  destruct (truthy _ && negb _);
    [by split_and!; [done|done|done|left|done|done]|].
  destruct (bool_decide (doc_extraction_status document = Some "completed")
            && text_truthy (doc_metadata document));
    [by split_and!; [done|done|done|left|done|done]|].
  destruct (bool_decide (doc_extraction_status document = Some "processing"));
    [by split_and!; [done|done|done|left|done|done]|].
  destruct (bool_decide (doc_extraction_status document = Some "failed"));
    [destruct (text_truthy (doc_metadata document));
     by split_and!; [done|done|done|left|done|done]|].
  destruct (bool_decide (doc_extraction_status document = Some "pending")
            || bool_decide (doc_extraction_status document = None));
    [|by split_and!; [done|done|done|left|done|done]].
  split_and!; [done|done|done|by right| |done].
  intros d Hd Hid. simpl. apply list_elem_of_fmap. exists d. split; [|done].
  destruct (String.eqb_spec (doc_id d) document_id); done.
Qed.

(** X19: the footprint of [extract_fields].  Applications, module rows and
    audit trail are never touched; the documents are left as they were or
    the documents with the given id are set to [processing], and that
    happens only together with the [poll_for_completion] answer; an error
    answer means nothing was written. *)
Theorem extract_fields_footprint document_id field_hints session_context st :
  let out := extract_fields document_id field_hints session_context st in
  applications out.2 = applications st ∧
  module_data out.2 = module_data st ∧
  audit_trail out.2 = audit_trail st ∧
  (documents out.2 = documents st
   ∨ documents out.2 = mark_processing document_id (documents st)
     ∧ dict_get "action_required" out.1 = Some (VStr "poll_for_completion")) ∧
  (∀ d, d ∈ documents st → doc_id d ≠ document_id → d ∈ documents out.2) ∧
  (dict_has "error" out.1 = true → out.2 = st).
Proof. apply extract_fields_writes. Qed.

Lemma extract_fields_pending document_id field_hints session_context st document :
  found_document st document_id = Some document →
  may_access session_context st document →
  doc_extraction_status document = Some "pending"
  ∨ doc_extraction_status document = None →
  ∃ payload,
    extract_fields document_id field_hints session_context st
      = (payload, set_documents (mark_processing document_id (documents st)) st) ∧
    dict_get "ocr_status" payload = Some (VStr "processing") ∧
    dict_get "action_required" payload = Some (VStr "poll_for_completion").
Proof.
  intros Hfound Haccess Hstatus.
  unfold found_document in Hfound. unfold may_access in Haccess.
  unfold extract_fields. rewrite Hfound.
  fold (caller_id session_context). rewrite Haccess.
  destruct Hstatus as [-> | ->]; simpl; by eexists.
Qed.

Lemma extract_fields_processing document_id field_hints session_context st document :
  found_document st document_id = Some document →
  may_access session_context st document →
  doc_extraction_status document = Some "processing" →
  let out := extract_fields document_id field_hints session_context st in
  out.2 = st ∧
  dict_get "ocr_status" out.1 = Some (VStr "processing") ∧
  dict_get "action_required" out.1 = None ∧
  dict_has "error" out.1 = false.
Proof.
  intros Hfound Haccess Hstatus out. subst out.
  unfold found_document in Hfound. unfold may_access in Haccess.
  unfold extract_fields. rewrite Hfound.
  fold (caller_id session_context). rewrite Haccess, Hstatus. by simpl.
Qed.

(** X18: triggering is idempotent.  For an accessible document that is
    pending or has no status yet, the first call sets it to [processing]
    and asks to poll; a second call reports [processing] and writes
    nothing more. *)
Theorem extract_fields_trigger_once document_id hints1 hints2 session_context st
    document :
  let out1 := extract_fields document_id hints1 session_context st in
  let out2 := extract_fields document_id hints2 session_context out1.2 in
  found_document st document_id = Some document →
  may_access session_context st document →
  doc_extraction_status document = Some "pending"
  ∨ doc_extraction_status document = None →
  dict_get "ocr_status" out1.1 = Some (VStr "processing") ∧
  dict_get "action_required" out1.1 = Some (VStr "poll_for_completion") ∧
  documents out1.2 = mark_processing document_id (documents st) ∧
  dict_get "ocr_status" out2.1 = Some (VStr "processing") ∧
  dict_get "action_required" out2.1 = None ∧
  dict_has "error" out2.1 = false ∧
  out2.2 = out1.2.
Proof.
  intros out1 out2 Hfound Haccess Hstatus.
  destruct (extract_fields_pending document_id hints1 session_context st document
              Hfound Haccess Hstatus) as (payload & Hout1 & Hocr & Haction).
  fold out1 in Hout1.
  set (document' := mkDocument (doc_id document) (doc_application_id document)
                      (doc_document_type document) (doc_file_name document)
                      (Some "processing") (doc_metadata document)).
  assert (found_document out1.2 document_id = Some document') as Hfound'.
  { rewrite Hout1. unfold found_document in *. cbn [snd]. simpl.
    unfold mark_processing. rewrite find_fmap_same.
    2:{ intros d. destruct (String.eqb (doc_id d) document_id) eqn:E; simpl;
          by rewrite ?E. }
    rewrite Hfound. simpl.
    apply find_some in Hfound as [_ Hid]. apply andb_true_iff in Hid as [Hid _].
    by rewrite Hid. }
  assert (may_access session_context out1.2 document') as Haccess'.
  { rewrite Hout1. exact Haccess. }
  destruct (extract_fields_processing document_id hints2 session_context out1.2
              document' Hfound' Haccess' eq_refl) as (Hout2 & Hocr2 & Haction2 & Herr2).
  fold out2 in Hout2, Hocr2, Haction2, Herr2.
  rewrite Hout1 in *. by split_and!.
Qed.

(** X20: the answers of [extract_fields] that come from the status
    column.  For an accessible document it answers [unknown_status]
    exactly when the status is none of [processing], [failed], [pending]
    or missing, and is not [completed] with metadata stored.  So a
    [completed] document without metadata, and the statuses [processed],
    [audited] and [error] used elsewhere, are all unknown to it.  A
    [completed] or [failed] document that has metadata, be it the empty
    object, ends in [internal_error]: the cached results and the stored
    failure message are never returned.  Nothing is written in any of
    these cases. *)
Theorem extract_fields_unknown_status document_id field_hints session_context st
    document :
  let out := extract_fields document_id field_hints session_context st in
  let status := doc_extraction_status document in
  found_document st document_id = Some document →
  may_access session_context st document →
  (dict_get "error" out.1 = Some (VStr "unknown_status") ↔
   (status ≠ Some "processing" ∧ status ≠ Some "failed" ∧
    status ≠ Some "pending" ∧ status ≠ None ∧
    ¬ (status = Some "completed" ∧ is_Some (doc_metadata document)))) ∧
  (status = Some "completed" → doc_metadata document = None →
   dict_get "error" out.1 = Some (VStr "unknown_status")) ∧
  (status = Some "processed" ∨ status = Some "audited" ∨ status = Some "error" →
   dict_get "error" out.1 = Some (VStr "unknown_status")) ∧
  (dict_get "error" out.1 = Some (VStr "internal_error") ↔
   ((status = Some "completed" ∨ status = Some "failed")
    ∧ is_Some (doc_metadata document))) ∧
  (dict_get "error" out.1 = Some (VStr "ocr_failed") ↔
   (status = Some "failed" ∧ doc_metadata document = None)) ∧
  (dict_get "ocr_status" out.1 ≠ Some (VStr "completed")) ∧
  (dict_has "error" out.1 = true → out.2 = st).
Proof.
  intros out status Hfound Haccess. subst out status.
  unfold found_document in Hfound. unfold may_access in Haccess.
  unfold extract_fields. rewrite Hfound.
  fold (caller_id session_context). rewrite Haccess. clear Hfound Haccess.
  generalize (doc_extraction_status document) (doc_metadata document).
  intros status metadata.
  assert (¬ is_Some (@None dict)) as Hnone by (by intros [? ?]).
  assert (∀ d : dict, is_Some (Some d)) as Hsome by (by eexists).
  destruct metadata as [metadata|]; [pose proof (Hsome metadata)|];
    repeat case_bool_decide; simpl;
    (split_and!; try split; intros);
    solve [done | congruence
          | intuition (first [congruence | done | by apply Hsome])].
Qed.

End ExtractFields.

Lemma update_module_audit_trail now module_number field_id value
    application_id session_context st :
  audit_trail (update_module now module_number field_id value application_id
                 session_context st).2 = audit_trail st.
Proof.
  unfold update_module.
  repeat match goal with
         | |- context [match ?x with _ => _ end] => destruct x
         end; done.
Qed.

(** X21: the audit trail is append-only.  None of the four handlers
    removes or rewrites an entry: the trail before a call is a prefix of
    the trail after it, and [update_module] and [extract_fields] never add
    to it. *)
Theorem audit_trail_append_only now st :
  (∀ module_number field_id value application_id session_context,
     audit_trail (update_module now module_number field_id value application_id
                    session_context st).2 = audit_trail st) ∧
  (∀ document_id field_hints session_context,
     audit_trail (extract_fields document_id field_hints session_context st).2
       = audit_trail st) ∧
  (∀ reason application_id document_id field_ids session_context,
     audit_trail st `prefix_of`
       audit_trail (request_audit now reason application_id document_id field_ids
                      session_context st).2) ∧
  (∀ confirmed application_id session_context,
     audit_trail st `prefix_of`
       audit_trail (certify_application now confirmed application_id
                      session_context st).2).
Proof.
  split_and!.
  - intros. apply update_module_audit_trail.
  - intros. apply extract_fields_writes.
  - intros reason application_id document_id field_ids session_context.
    destruct (request_audit_outcomes now reason application_id document_id
                field_ids session_context st)
      as [(_ & _ & -> & _)
         |(target & app_row & _ & _ & _ & _ & _ & _ & _ & _ & _ & ->)];
      [done|].
    simpl. by eexists.
  - intros confirmed application_id session_context.
    unfold certify_application.
    destruct confirmed; simpl negb; cbv iota; [|done].
    destruct (resolve_application_id application_id session_context)
      as [target|]; [|done].
    destruct (applications st !! target) as [app_row|]; [|done].
    destruct (not_owner _ app_row); [done|].
    destruct (is_terminal (app_status app_row)); [done|].
    destruct (validation_failures target st); [|done].
    destruct (if dict_truthy session_context
              then ctx_get "user_id" session_context else None) as [uid|];
      [destruct (truthy (Some uid))|]; simpl; try done. by eexists.
Qed.

End ToolsMoreFacts.

(** ** The orchestrator loop: what a returned reply means *)

Section ClientMoreFacts.
Import Client Props.
Context {W : Type}.
Context (http_post : W → dict → (exn + dict) * W) (py_str : value → string).
Context (self : ClaudeClient) (tools : list value) (system : option string).

Local Abbreviation send := (send_message http_post self).
Local Abbreviation loop := (tool_loop http_post py_str self).
Local Abbreviation rounds := (tool_rounds http_post py_str self tools system).

(** Every tool-use round appends two messages, and from the second
    request on what is sent is the list of tool results of the round
    before: [send_message] only ever gets [messages[-1]["content"]]. *)
Lemma tool_rounds_conversation k w messages w' messages' :
  rounds k w messages w' messages' →
  length messages' = length messages + 2 * k ∧
  (k = 0 ∧ messages' = messages
   ∨ ∃ tool_uses,
       last_content messages' = VList (tool_result_of py_str <$> tool_uses)).
Proof.
  induction 1 as [|k w messages response tool_uses w1 w' messages' _ _ _ _ IH].
  - split; [lia|by left].
  - destruct IH as [Hlen Hlast]. split.
    + rewrite Hlen, length_app. simpl. lia.
    + right. destruct Hlast as [[_ ->]|Hlast]; [|done].
      exists tool_uses. unfold last_content, tool_turn.
      by rewrite last_app.
Qed.

Lemma tool_loop_returns max_iterations remaining w messages response w' :
  loop max_iterations remaining w messages tools system = (inr response, w') →
  is_str (dict_get "stop_reason" response) "tool_use" = false ∧
  ∃ k wk messages_k,
    k < remaining ∧ rounds k w messages wk messages_k ∧
    send wk (last_content messages_k) system (Some tools) = (inr response, w').
Proof.
  revert w messages. induction remaining as [|remaining IH]; intros w messages; simpl.
  - done.
  - destruct (send w (last_content messages) system (Some tools))
      as [[e0|reply] w1] eqn:Hsend; [done|].
    destruct (is_str (dict_get "stop_reason" reply) "tool_use") eqn:Hstop.
    + destruct (tool_uses_of reply) as [e0|tool_uses] eqn:Huses; [done|].
      intros Hloop. destruct (IH _ _ Hloop) as (Hfinal & k & wk & mk & Hk & Hrounds & Hlast).
      split; [done|]. exists (S k), wk, mk. split_and!; [lia| |done].
      by econstructor.
    + intros [= <- <-]. split; [done|].
      exists 0, w, messages. split_and!; [lia|constructor|done].
Qed.

(** X22: a reply returned by [execute_with_tools] never has the stop
    reason [tool_use].  It answers the request that follows [k] tool-use
    rounds, with [k] below the iteration cap; the conversation then holds
    [1 + 2k] messages, and that request carried the user's message if
    [k = 0] and otherwise only the tool results of round [k]. *)
Theorem execute_with_tools_result (w : W) (message : string) (max_iterations : Z)
    (response : dict) (w' : W) :
  let first := [[("role", VStr "user"); ("content", VStr message)]] in
  execute_with_tools http_post py_str self w message tools system max_iterations
    = (inr response, w') →
  is_str (dict_get "stop_reason" response) "tool_use" = false ∧
  ∃ k wk messages_k,
    k < Z.to_nat max_iterations ∧
    rounds k w first wk messages_k ∧
    send wk (last_content messages_k) system (Some tools) = (inr response, w') ∧
    length messages_k = 1 + 2 * k ∧
    (k = 0 ∧ last_content messages_k = VStr message
     ∨ 0 < k ∧ ∃ tool_uses,
         last_content messages_k = VList (tool_result_of py_str <$> tool_uses)).
Proof.
  intros first Hrun. unfold execute_with_tools in Hrun. fold first in Hrun.
  destruct (tool_loop_returns _ _ _ _ _ _ Hrun)
    as (Hstop & k & wk & messages_k & Hk & Hrounds & Hsend).
  split; [done|]. exists k, wk, messages_k.
  destruct (tool_rounds_conversation _ _ _ _ _ Hrounds) as [Hlen Hlast].
  split_and!; [done|done|done|done|].
  destruct Hlast as [[-> ->]|Hlast]; [by left|].
  destruct k as [|k]; [|right; split; [lia|done]].
  left. inversion Hrounds; by subst.
Qed.

End ClientMoreFacts.

(** ** Streaming: what [stream_message] yields *)

Section StreamFacts.
Import Client ClientMore.
Context {W : Type}.
Context (http_stream : W → dict → (exn + list string) * W) (strip : string → string).

Lemma substring_whole (s : string) : String.substring 0 (String.length s) s = s.
Proof. induction s as [|a s IH]; [done|]. simpl. by rewrite IH. Qed.

Lemma substring_split (n : nat) (s : string) :
  String.substring 0 n s +:+ String.substring n (String.length s - n) s = s.
Proof.
  revert n. induction s as [|a s IH]; intros [|n]; simpl; try done.
  - by rewrite substring_whole.
  - change (String a (String.substring 0 n s
                      +:+ String.substring n (String.length s - n) s) = String a s).
    by rewrite IH.
Qed.

Lemma prefix_data (line : string) :
  String.prefix "data: " line = true → line = "data: " +:+ data_of line.
Proof.
  intros Hprefix%String.prefix_correct. unfold data_of.
  rewrite <- (substring_split 6 line) at 1. by rewrite <- Hprefix.
Qed.

Lemma yielded_chunk (lines : list string) (data : string) :
  data ∈ yielded strip lines → data ≠ "[DONE]" ∧ ("data: " +:+ data) ∈ lines.
Proof.
  induction lines as [|line rest IH]; cbn [yielded]; [by intros ?%elem_of_nil|].
  assert (data ∈ yielded strip rest →
          data ≠ "[DONE]" ∧ "data: " +:+ data ∈ line :: rest) as Hrest.
  { intros [? ?]%IH. split; [done|by right]. }
  destruct (truthy (Some (strip line))); [|exact Hrest].
  destruct (String.prefix ":" line); [exact Hrest|].
  destruct (String.prefix "data: " line) eqn:Hdata; [|exact Hrest].
  destruct (String.eqb_spec (data_of line) "[DONE]") as [|Hdone];
    [by intros ?%elem_of_nil|].
  intros [->|?]%elem_of_cons; [|by apply Hrest].
  split; [done|]. rewrite <- (prefix_data _ Hdata). by left.
Qed.

Lemma yielded_data_lines (lines : list string) :
  yielded strip (List.filter (String.prefix "data: ") lines) = yielded strip lines.
Proof.
  induction lines as [|line rest IH]; [done|]. cbn [yielded List.filter].
  destruct (String.prefix "data: " line) eqn:Hdata; cbn [yielded].
  - by rewrite Hdata, IH.
  - rewrite IH. destruct (truthy (Some (strip line))); [|done].
    by destruct (String.prefix ":" line).
Qed.

Lemma yielded_until_done (before after : list string) :
  truthy (Some (strip "data: [DONE]")) = true →
  yielded strip (before ++ "data: [DONE]" :: after) = yielded strip before.
Proof.
  intros Hstrip. induction before as [|line before IH].
  - cbn [app yielded]. by rewrite Hstrip.
  - cbn [app yielded]. by rewrite IH.
Qed.

(** X23: when the request goes through, [stream_message] has asked for a
    stream, and what it yields is read off the lines of the answer: every
    chunk is the rest of a line that starts with [data: ], and is never the
    end marker; only such lines matter; and nothing is yielded from the
    first line [data: [DONE]] on. *)
Theorem stream_message_chunks (self : ClaudeClient) (w w' : W) (message : string)
    (system : option string) (tools : option (list value)) (chunks : list string) :
  stream_message http_stream strip self w message system tools = (inr chunks, w') →
  ∃ request_body lines,
    http_stream w request_body = (inr lines, w') ∧
    dict_get "stream" request_body = Some (VBool true) ∧
    chunks = yielded strip lines ∧
    (∀ data, data ∈ chunks → data ≠ "[DONE]" ∧ ("data: " +:+ data) ∈ lines) ∧
    yielded strip (List.filter (String.prefix "data: ") lines) = chunks ∧
    (∀ before after,
       lines = before ++ "data: [DONE]" :: after →
       truthy (Some (strip "data: [DONE]")) = true →
       chunks = yielded strip before).
Proof.
  unfold stream_message.
  match goal with
  | |- context [http_stream w ?body] => set (request_body := body)
  end.
  destruct (http_stream w request_body) as [[e|lines] w1] eqn:Hstream; [done|].
  intros [= <- <-]. exists request_body, lines. split_and!; [done| |done| | |].
  - subst request_body. by destruct (truthy system), (Tools.list_truthy tools).
  - apply yielded_chunk.
  - apply yielded_data_lines.
  - intros before after -> Hstrip. by apply yielded_until_done.
Qed.

End StreamFacts.

(** ** The message store: deleting after a message, editing a message *)

Section DatabaseFacts.
Import Database.

Lemma find_filter_kept {A} (p q : A → bool) (l : list A) (x : A) :
  List.find p l = Some x → q x = true → List.find p (List.filter q l) = Some x.
Proof.
  induction l as [|y l IH]; [done|]. simpl.
  destruct (p y) eqn:Hp.
  - intros [= ->] Hq. rewrite Hq. simpl. by rewrite Hp.
  - intros Hfind Hq. destruct (q y); [simpl; rewrite Hp|]; by apply IH.
Qed.

Lemma filter_negb_twice {A} (p : A → bool) (l : list A) :
  List.filter p (List.filter (λ x, negb (p x)) l) = []
  ∧ List.filter (λ x, negb (p x)) (List.filter (λ x, negb (p x)) l)
    = List.filter (λ x, negb (p x)) l.
Proof.
  induction l as [|x l [IH1 IH2]]; [done|]. simpl.
  destruct (p x) eqn:Hp; simpl; [done|]. rewrite Hp. simpl. by rewrite IH2.
Qed.

Lemma filter_sublist_of {A} (p : A → bool) (l : list A) :
  List.filter p l `sublist_of` l.
Proof.
  induction l as [|x l IH]; simpl; [constructor|].
  destruct (p x); by constructor.
Qed.

Lemma filter_split_length {A} (p : A → bool) (l : list A) :
  length (List.filter p l) + length (List.filter (λ x, negb (p x)) l) = length l.
Proof.
  induction l as [|x l IH]; [done|]. simpl. destruct (p x); simpl; lia.
Qed.

Lemma filter_fmap_same {A} (p : A → bool) (f : A → A) (l : list A) :
  (∀ x, p (f x) = p x) → List.filter p (f <$> l) = f <$> List.filter p l.
Proof.
  intros Hp. induction l as [|x l IH]; [done|].
  rewrite fmap_cons. simpl. rewrite Hp, IH. by destruct (p x).
Qed.

(** X24: what [delete_messages_after] removes.  The count returned is
    the number of rows gone; the rows left keep their order; rows of other
    sessions stay; with a reference message found, a row goes exactly when
    it belongs to the session and is strictly later than the reference, so
    the reference and the rows of the same instant stay; without one
    nothing is deleted; and deleting again deletes nothing. *)
Theorem delete_messages_after_effect (session_id message_id : string)
    (table : list MessageRow) :
  let out := delete_messages_after session_id message_id table in
  out.1 + length out.2 = length table ∧
  out.2 `sublist_of` table ∧
  (∀ r, r ∈ table → row_session_id r ≠ session_id → r ∈ out.2) ∧
  (∀ timestamp,
     reference_timestamp session_id message_id table = Some timestamp →
     ∀ r, r ∈ table →
       (r ∈ out.2 ↔
        ¬ (row_session_id r = session_id
           ∧ ∃ t, row_created_at r = Some t ∧ (timestamp < t)%Z))) ∧
  (reference_timestamp session_id message_id table = None → out = (0, table)) ∧
  delete_messages_after session_id message_id out.2 = (0, out.2).
Proof.
  intros out. subst out. unfold delete_messages_after.
  destruct (reference_timestamp session_id message_id table) as [timestamp|] eqn:Href.
  2:{ cbn [fst snd]. rewrite Href. by split_and!. }
  cbn [fst snd].
  assert (∀ r, r ∈ table →
            (r ∈ List.filter (λ r, negb (created_after session_id timestamp r)) table
             ↔ ¬ (row_session_id r = session_id
                  ∧ ∃ t, row_created_at r = Some t ∧ (timestamp < t)%Z))) as Hkept.
  { intros r Hr. rewrite list_elem_of_In, filter_In, <- list_elem_of_In.
    unfold created_after.
    destruct (String.eqb_spec (row_session_id r) session_id) as [Hs|Hs]; simpl.
    - destruct (row_created_at r) as [t|].
      + destruct (Z.ltb_spec timestamp t); simpl.
        * split; [by intros [_ ?]|]. intros Hn. destruct Hn. split; [done|by exists t].
        * split; [|done]. intros _ [_ (t' & [= <-] & ?)]. lia.
      + split; [|done]. by intros _ [_ (t' & ? & _)].
    - split; [|done]. by intros _ [? _]. }
  split_and!.
  - apply filter_split_length.
  - apply filter_sublist_of.
  - intros r Hr Hs. apply Hkept; [done|]. by intros [? _].
  - intros ? [= <-]. exact Hkept.
  - done.
  - unfold reference_timestamp in *.
    destruct (List.find _ table) as [reference|] eqn:Hfind; [|done].
    rewrite (find_filter_kept _ _ _ _ Hfind).
    2:{ unfold created_after. rewrite Href.
        by rewrite Z.ltb_irrefl, andb_false_r. }
    rewrite Href.
    destruct (filter_negb_twice (created_after session_id timestamp) table)
      as [-> ->].
    done.
Qed.

(** X25: editing a message and deleting after a message commute:
    [update_message] changes no id, session or time, so it does not change
    what [delete_messages_after] removes, nor the count. *)
Theorem update_then_delete (edited content session_id message_id : string)
    (table : list MessageRow) :
  let deleted := delete_messages_after session_id message_id table in
  delete_messages_after session_id message_id (update_message edited content table).2
  = (deleted.1, (update_message edited content deleted.2).2).
Proof.
  intros deleted. subst deleted.
  unfold delete_messages_after, reference_timestamp, update_message. cbn [snd].
  set (edit := λ r : MessageRow,
         if String.eqb (row_id r) edited
         then mkMessageRow (row_id r) (row_session_id r) (row_role r) content
                (row_created_at r)
         else r).
  assert (∀ r, row_id (edit r) = row_id r ∧ row_session_id (edit r) = row_session_id r
               ∧ row_created_at (edit r) = row_created_at r) as Hedit.
  { intros r. unfold edit. by destruct (String.eqb (row_id r) edited). }
  rewrite find_fmap_same.
  2:{ intros r. destruct (Hedit r) as (-> & -> & _). done. }
  destruct (List.find _ table) as [reference|]; simpl; [|done].
  destruct (Hedit reference) as (_ & _ & ->).
  destruct (row_created_at reference) as [timestamp|]; [|done].
  cbn [fst snd]. f_equal.
  - rewrite filter_fmap_same, length_fmap; [done|].
    intros r. unfold created_after. destruct (Hedit r) as (_ & -> & ->). done.
  - apply filter_fmap_same.
    intros r. unfold created_after. destruct (Hedit r) as (_ & -> & ->). done.
Qed.

End DatabaseFacts.

(** ** The fallback title *)

Section TitleFacts.
Import History Title.
Context {char : Type} `{EqDecision char}.
Context (is_space : char → bool) (space dot : char).

Lemma rfind_from_spec (i : Z) (s : list char) :
  (0 ≤ i)%Z →
  rfind_from space i s = (-1)%Z
  ∨ (i ≤ rfind_from space i s < i + Z.of_nat (length s))%Z
    ∧ s !! Z.to_nat (rfind_from space i s - i) = Some space.
Proof.
  revert i. induction s as [|c s IH]; intros i Hi; [by left|].
  cbn [rfind_from length].
  destruct (IH (i + 1)%Z) as [Hnone|[Hrange Hat]]; [lia| |].
  - rewrite Hnone, Z.eqb_refl. cbv beta iota zeta.
    case_bool_decide as Hc; [|by left].
    right. split; [lia|]. rewrite Z.sub_diag. simpl. by rewrite Hc.
  - destruct (Z.eqb_spec (rfind_from space (i + 1) s) (-1)); [lia|].
    right. split; [lia|].
    replace (Z.to_nat (rfind_from space (i + 1) s - i))
      with (S (Z.to_nat (rfind_from space (i + 1) s - (i + 1)))) by lia.
    done.
Qed.

Lemma slice_to_prefix {A} (n : Z) (l : list A) : slice_to n l `prefix_of` l.
Proof. exists (drop (slice_bound n (length l)) l). symmetry. apply take_drop. Qed.

Lemma slice_to_length {A} (n : Z) (l : list A) :
  (0 ≤ n ≤ Z.of_nat (length l))%Z → length (slice_to n l) = Z.to_nat n.
Proof.
  intros Hn. unfold slice_to, slice_bound.
  destruct (Z.ltb_spec n 0); [lia|]. rewrite length_take. lia.
Qed.

Lemma split_from_words (word s : list char) :
  Forall (λ c, is_space c = false) word →
  Forall (λ w, w ≠ [] ∧ Forall (λ c, is_space c = false) w)
         (split_from is_space word s).
Proof.
  revert word. induction s as [|c s IH]; intros word Hword; simpl.
  - destruct word as [|c' word]; constructor; [|done].
    split; [|by apply Forall_reverse].
    intros Hnil%(f_equal length). rewrite length_reverse in Hnil. done.
  - destruct (is_space c) eqn:Hc.
    + destruct word as [|c' word]; [by apply IH|].
      constructor; [|by apply IH].
      split; [|by apply Forall_reverse].
      intros Hnil%(f_equal length). rewrite length_reverse in Hnil. done.
    + apply IH. by constructor.
Qed.

(** X26: for a length limit of at least three, the fallback title is
    never longer than the limit. *)
Theorem create_fallback_title_length (user_message : list char) (max_length : Z) :
  (3 ≤ max_length)%Z →
  (Z.of_nat (length (create_fallback_title is_space space dot user_message max_length))
   ≤ max_length)%Z.
Proof.
  intros Hmax. unfold create_fallback_title.
  set (clean_message := join_words space (split is_space user_message)).
  destruct (Z.leb_spec (Z.of_nat (length clean_message)) max_length) as [|Hlong];
    [done|].
  assert (length (slice_to (max_length - 3) clean_message)
          = Z.to_nat (max_length - 3)) as Htruncated
    by (apply slice_to_length; lia).
  rewrite length_app. cbn [length].
  destruct (_ >? _)%Z.
  - pose proof (prefix_length _ _
                  (slice_to_prefix (rfind space (slice_to (max_length - 3) clean_message))
                     (slice_to (max_length - 3) clean_message))).
    lia.
  - lia.
Qed.

(** X27: the shape of the fallback title.  The words of the message
    are non-empty and free of whitespace; joined by single spaces they
    form the clean message, which is the title when it fits.  Otherwise the
    title is a prefix of the clean message followed by three dots; for a
    limit of at least three the prefix has [max_length - 3] characters, or
    it is shorter, longer than half the limit, and ends just before a
    space. *)
Theorem create_fallback_title_shape (user_message : list char) (max_length : Z) :
  let words := split is_space user_message in
  let clean_message := join_words space words in
  let title := create_fallback_title is_space space dot user_message max_length in
  Forall (λ w, w ≠ [] ∧ Forall (λ c, is_space c = false) w) words ∧
  ((Z.of_nat (length clean_message) ≤ max_length)%Z → title = clean_message) ∧
  ((max_length < Z.of_nat (length clean_message))%Z →
   ∃ kept,
     title = kept ++ [dot; dot; dot] ∧
     kept `prefix_of` clean_message ∧
     ((3 ≤ max_length)%Z →
      Z.of_nat (length kept) = (max_length - 3)%Z
      ∨ (max_length `div` 2 < Z.of_nat (length kept) < max_length - 3)%Z
        ∧ clean_message !! length kept = Some space)).
Proof.
  intros words clean_message title. subst title. unfold create_fallback_title.
  fold words. fold clean_message.
  split_and!.
  - by apply split_from_words.
  - intros Hfits. by destruct (Z.leb_spec (Z.of_nat (length clean_message)) max_length);
      [|lia].
  - intros Hlong.
    destruct (Z.leb_spec (Z.of_nat (length clean_message)) max_length); [lia|].
    set (truncated := slice_to (max_length - 3) clean_message).
    assert (truncated `prefix_of` clean_message) as Hprefix by apply slice_to_prefix.
    destruct (Z.gtb_spec (rfind space truncated) (max_length `div` 2)) as [Hcut|Hcut].
    + exists (slice_to (rfind space truncated) truncated). split_and!; [done| |].
      * etrans; [apply slice_to_prefix|done].
      * intros Hmax. right.
        assert (length truncated = Z.to_nat (max_length - 3)) as Htruncated
          by (apply slice_to_length; lia).
        assert (0 ≤ max_length `div` 2)%Z by (apply Z.div_pos; lia).
        destruct (rfind_from_spec 0 truncated) as [Hnone|[Hrange Hat]];
          [done|unfold rfind in Hcut; lia|].
        fold (rfind space truncated) in Hrange, Hat.
        rewrite slice_to_length by lia. split; [lia|].
        rewrite Z.sub_0_r in Hat.
        destruct Hprefix as [rest Hrest]. rewrite Hrest.
        by apply lookup_app_l_Some.
    + exists truncated. split_and!; [done|done|].
      intros Hmax. left. unfold truncated. rewrite slice_to_length; lia.
Qed.

End TitleFacts.

(** ** The e-mail check of [create_application] *)

Section EmailFacts.
Import Stdlib.Strings.Ascii.
Import CreateApplication EmailProps.

Lemma nullable_lang (r : regex) : nullable r = true ↔ lang r [].
Proof.
  induction r as [| |p|r1 IH1 r2 IH2|r1 IH1 r2 IH2|r IH]; simpl.
  - split; [done|]. inversion 1.
  - split; [constructor|done].
  - split; [done|]. inversion 1.
  - rewrite andb_true_iff, IH1, IH2. split.
    + intros [H1 H2]. by apply (lang_seq _ _ [] []).
    + inversion 1 as [| |? ? s1 s2 H1 H2 [Hr1 Hr2] Hnil| | | |]; subst.
      apply app_eq_nil in Hnil as [-> ->]. done.
  - rewrite orb_true_iff, IH1, IH2. split.
    + intros [?|?]; [by apply lang_alt_l|by apply lang_alt_r].
    + inversion 1; subst; [by left|by right].
  - split; [constructor|done].
Qed.

Lemma deriv_sound (a : ascii) (r : regex) (s : list ascii) :
  lang (deriv a r) s → lang r (a :: s).
Proof.
  revert s. induction r as [| |p|r1 IH1 r2 IH2|r1 IH1 r2 IH2|r IH]; intros s; simpl.
  - inversion 1.
  - inversion 1.
  - destruct (p a) eqn:Hp; inversion 1; subst. by constructor.
  - assert (lang (Seq (deriv a r1) r2) s → lang (Seq r1 r2) (a :: s)) as Hleft.
    { inversion 1 as [| |? ? s1 s2 H1 H2| | | |]; subst.
      apply (lang_seq _ _ (a :: s1) s2); [by apply IH1|done]. }
    destruct (nullable r1) eqn:Hnull; [|done].
    inversion 1; subst; [by apply Hleft|].
    apply (lang_seq _ _ [] (a :: s)); [by apply nullable_lang|by apply IH2].
  - inversion 1; subst; [apply lang_alt_l; by apply IH1|apply lang_alt_r; by apply IH2].
  - inversion 1 as [| |? ? s1 s2 H1 H2| | | |]; subst.
    apply (lang_star_more _ (a :: s1) s2); [by apply IH|done].
Qed.

Lemma deriv_complete (a : ascii) (r : regex) (s : list ascii) :
  lang r (a :: s) → lang (deriv a r) s.
Proof.
  intros Hlang. remember (a :: s) as s' eqn:Hs'. revert s Hs'.
  induction Hlang as [|p b Hp|r1 r2 s1 s2 H1 IH1 H2 IH2|r1 r2 s0 H1 IH1|r1 r2 s0 H2 IH2
                      | |r s1 s2 H1 IH1 H2 IH2]; intros s Hs'; simpl.
  - done.
  - injection Hs' as -> <-. rewrite Hp. constructor.
  - destruct s1 as [|b s1].
    + simpl in Hs'. subst s2. apply nullable_lang in H1. rewrite H1.
      apply lang_alt_r. by apply IH2.
    + injection Hs' as -> <-.
      assert (lang (Seq (deriv a r1) r2) (s1 ++ s2)) as Hseq
        by (constructor; [by apply IH1|done]).
      destruct (nullable r1); [by apply lang_alt_l|done].
  - apply lang_alt_l. by apply IH1.
  - apply lang_alt_r. by apply IH2.
  - done.
  - destruct s1 as [|b s1].
    + simpl in Hs'. by apply IH2.
    + injection Hs' as -> <-. constructor; [by apply IH1|done].
Qed.

Lemma fullmatch_lang (r : regex) (s : list ascii) :
  fullmatch r s = true ↔ lang r s.
Proof.
  revert r. induction s as [|a s IH]; intros r; simpl.
  - apply nullable_lang.
  - rewrite IH. split; [apply deriv_sound|apply deriv_complete].
Qed.

Lemma lang_star_class (p : ascii → bool) (s : list ascii) :
  lang (Star (Class p)) s ↔ all_in p s.
Proof.
  split.
  - intros Hlang. remember (Star (Class p)) as r eqn:Hr.
    induction Hlang as [| | | | | |r s1 s2 H1 _ H2 IH2]; try done.
    + constructor.
    + injection Hr as ->. inversion H1; subst. constructor; [done|by apply IH2].
  - induction 1 as [|a s Ha _ IH]; [constructor|].
    apply (lang_star_more _ [a] s); [by constructor|done].
Qed.

Lemma lang_plus_class (p : ascii → bool) (s : list ascii) :
  lang (Plus (Class p)) s ↔ s ≠ [] ∧ all_in p s.
Proof.
  unfold Plus. split.
  - inversion 1 as [| |? ? s1 s2 H1 H2| | | |]; subst.
    inversion H1; subst. split; [done|].
    constructor; [done|by apply lang_star_class].
  - intros [Hne Hall]. destruct Hall as [|a s Ha Hall]; [done|].
    apply (lang_seq _ _ [a] s); [by constructor|by apply lang_star_class].
Qed.

Lemma lang_two_or_more (p : ascii → bool) (s : list ascii) :
  lang (TwoOrMore (Class p)) s ↔ 2 ≤ length s ∧ all_in p s.
Proof.
  unfold TwoOrMore. split.
  - inversion 1 as [| |? ? s1 s2 H1 H2| | | |]; subst.
    inversion H1; subst. apply lang_plus_class in H2 as [Hne Hall].
    split; [destruct s2; [done|simpl; lia]|by constructor].
  - intros [Hlen Hall]. destruct Hall as [|a s Ha Hall]; [simpl in Hlen; lia|].
    apply (lang_seq _ _ [a] s); [by constructor|].
    apply lang_plus_class. split; [|done]. destruct s; [simpl in Hlen; lia|done].
Qed.

Lemma lang_char (c : ascii) (s : list ascii) :
  lang (Class (is_char c)) s ↔ s = [c].
Proof.
  split.
  - inversion 1 as [|? a Ha| | | | |]; subst. unfold is_char in Ha.
    by apply Ascii.eqb_eq in Ha as ->.
  - intros ->. constructor. unfold is_char. apply Ascii.eqb_refl.
Qed.

Lemma lang_pattern (s : list ascii) : lang pattern s ↔ address s.
Proof.
  unfold pattern, address. split.
  - inversion 1 as [| |? ? local s1 Hlocal H1| | | |]; subst.
    inversion H1 as [| |? ? at_sign s2 Hat H2| | | |]; subst.
    inversion H2 as [| |? ? domain s3 Hdomain H3| | | |]; subst.
    inversion H3 as [| |? ? dot_sign s4 Hdot H4| | | |]; subst.
    inversion H4 as [| |? ? top ending Htop Hending| | | |]; subst.
    apply lang_plus_class in Hlocal as [? ?].
    apply lang_char in Hat as ->. apply lang_plus_class in Hdomain as [? ?].
    apply lang_char in Hdot as ->. apply lang_two_or_more in Htop as [? ?].
    exists local, domain, top, ending. split_and!; try done.
    inversion Hending as [| | |? ? ? Heps|? ? ? Hnl| |]; subst.
    + inversion Heps. by left.
    + apply lang_char in Hnl. by right.
  - intros (local & domain & top & ending & -> & ? & ? & ? & ? & ? & ? & Hending).
    constructor; [by apply lang_plus_class|].
    apply (lang_seq _ _ ["@"%char]); [by apply lang_char|].
    constructor; [by apply lang_plus_class|].
    apply (lang_seq _ _ ["."%char]); [by apply lang_char|].
    constructor; [by apply lang_two_or_more|].
    destruct Hending as [->| ->];
      [apply lang_alt_l; constructor|apply lang_alt_r; by apply lang_char].
Qed.

(** X28: [validate_email] accepts exactly the strings of the form
    local part, [@], domain, dot, top-level name, with the characters that
    the pattern allows in each part, and with at most one line feed after
    the name. *)
Theorem validate_email_address (email : string) :
  validate_email email = true ↔ address (String.list_ascii_of_string email).
Proof. unfold validate_email. rewrite fullmatch_lang. apply lang_pattern. Qed.

Lemma list_ascii_of_string_app (s1 s2 : string) :
  String.list_ascii_of_string (s1 +:+ s2)
  = String.list_ascii_of_string s1 ++ String.list_ascii_of_string s2.
Proof.
  induction s1 as [|a s1 IH]; [done|].
  change (a :: String.list_ascii_of_string (s1 +:+ s2)
          = a :: String.list_ascii_of_string s1 ++ String.list_ascii_of_string s2).
  by rewrite IH.
Qed.

Lemma filter_none_in {A} (p q : A → bool) (s : list A) :
  Forall (λ a, p a = true) s → (∀ a, p a = true → q a = false) →
  List.filter q s = [].
Proof.
  intros Hall Hpq. induction Hall as [|a s Ha _ IH]; [done|].
  simpl. by rewrite (Hpq a Ha).
Qed.

Lemma local_char_not_at (a : ascii) :
  local_char a = true → is_char "@"%char a = false.
Proof.
  intros Hlocal. unfold is_char.
  destruct (Ascii.eqb_spec a "@"%char) as [->|]; [|done].
  by vm_compute in Hlocal.
Qed.

Lemma domain_char_local (a : ascii) : domain_char a = true → local_char a = true.
Proof.
  unfold domain_char, local_char.
  destruct (alnum a), (is_char "."%char a), (is_char "-"%char a); try done.
  intros _. by rewrite !orb_true_r.
Qed.

Lemma letter_local (a : ascii) : letter a = true → local_char a = true.
Proof. unfold local_char, alnum. by intros ->. Qed.

(** X29: what an accepted address looks like, and the line feed.  An
    accepted string has exactly one [@]; each of its characters is one the
    local part allows, the [@], or the final line feed, so it holds no
    blank and no character outside ASCII; and an accepted string that does
    not end in a line feed is still accepted with a line feed added. *)
Theorem validate_email_accepted (email : string) :
  let chars := String.list_ascii_of_string email in
  validate_email email = true →
  length (List.filter (is_char "@"%char) chars) = 1 ∧
  (∀ a, a ∈ chars → local_char a = true ∨ a = "@"%char ∨ a = newline) ∧
  (last chars ≠ Some newline → validate_email (email +:+ LF) = true).
Proof.
  intros chars Hvalid.
  assert (address chars) as Haddress.
  { unfold validate_email in Hvalid. by apply lang_pattern, fullmatch_lang. }
  destruct Haddress
    as (local & domain & top & ending & Hchars & Hl & Hlocal & Hd & Hdomain & Ht
        & Htop & Hending).
  assert (all_in local_char domain) as Hdomain'
    by (eapply Forall_impl; [exact Hdomain|apply domain_char_local]).
  assert (all_in local_char top) as Htop'
    by (eapply Forall_impl; [exact Htop|apply letter_local]).
  split_and!.
  - rewrite Hchars.
    rewrite List.filter_app. cbn [List.filter].
    rewrite List.filter_app. cbn [List.filter].
    rewrite List.filter_app.
    rewrite (filter_none_in _ _ local Hlocal local_char_not_at).
    rewrite (filter_none_in _ _ domain Hdomain' local_char_not_at).
    rewrite (filter_none_in _ _ top Htop' local_char_not_at).
    destruct Hending as [->| ->]; done.
  - intros a. rewrite Hchars.
    rewrite elem_of_app, elem_of_cons, elem_of_app, elem_of_cons, elem_of_app.
    intros [Ha|[->|[Ha|[->|[Ha|Ha]]]]].
    + left. by eapply Forall_forall in Hlocal.
    + right. by left.
    + left. by eapply Forall_forall in Hdomain'.
    + left. done.
    + left. by eapply Forall_forall in Htop'.
    + destruct Hending as [->| ->]; [by apply elem_of_nil in Ha|].
      apply list_elem_of_singleton in Ha. right. by right.
  - intros Hlast. unfold validate_email.
    apply fullmatch_lang, lang_pattern.
    rewrite list_ascii_of_string_app. fold chars.
    destruct Hending as [->| ->].
    + exists local, domain, top, [newline]. split_and!; try done; [|by right].
      rewrite Hchars, app_nil_r.
      change (String.list_ascii_of_string LF) with [newline].
      rewrite <- app_assoc. simpl. by rewrite <- app_assoc.
    + destruct Hlast. rewrite Hchars.
      replace (local ++ "@"%char :: domain ++ "."%char :: top ++ [newline])
        with ((local ++ "@"%char :: domain ++ "."%char :: top) ++ [newline])
        by (rewrite <- app_assoc; simpl; by rewrite <- app_assoc).
      apply last_snoc.
Qed.

End EmailFacts.

(** ** Creating an application *)

Section CreateApplicationFacts.
Import Tools Props CreateApplication.
Context {DB : Type}.
Context (find_user : DB → string → (db_exn + option string) * DB).
Context (insert_application :
  DB → string → string → string → option string → (db_exn + NewApplication) * DB).

Lemma insert_and_report_success user_id certification_type notes db :
  let out := insert_and_report insert_application user_id certification_type notes db in
  dict_has "error" out.1 = false →
  ∃ application,
    insert_application db user_id "draft" certification_type notes
      = (inr application, out.2) ∧
    dict_get "application_id" out.1 = Some (VStr (new_id application)) ∧
    dict_get "status" out.1 = Some (VStr (new_status application)).
Proof.
  intros out. subst out. unfold insert_and_report.
  destruct (insert_application db user_id "draft" certification_type notes)
    as [[e|application] db'].
  - by destruct e.
  - intros _. by exists application.
Qed.

(** X30: an answer of [create_application] without an error means that
    the certification type is one of the four known ones, that an e-mail
    address given with the call passed [validate_email], and that one
    application was inserted in status [draft]: for the caller of the
    session if there is one, else for the user found by the e-mail
    address, which then had to come with a name.  The answer carries the
    id and status of the inserted row. *)
Theorem create_application_success farmer_name farmer_email farmer_phone
    certification_type notes session_context (db : DB) :
  let out := create_application find_user insert_application farmer_name
               farmer_email farmer_phone certification_type notes
               session_context db in
  let email := default "" farmer_email in
  dict_has "error" out.1 = false →
  certification_type ∈ valid_cert_types ∧
  (truthy farmer_email = true → validate_email email = true) ∧
  ∃ user_id db1 application,
    (truthy (caller_id session_context) = true
     ∧ caller_id session_context = Some user_id ∧ db1 = db
     ∨ truthy (caller_id session_context) = false
       ∧ truthy farmer_email = true ∧ truthy farmer_name = true
       ∧ find_user db email = (inr (Some user_id), db1)) ∧
    insert_application db1 user_id "draft" certification_type notes
      = (inr application, out.2) ∧
    dict_get "application_id" out.1 = Some (VStr (new_id application)) ∧
    dict_get "status" out.1 = Some (VStr (new_status application)).
Proof.
  intros out email. subst out. unfold create_application.
  fold (caller_id session_context). fold email.
  case_bool_decide as Htype; simpl negb; cbv iota; [|done].
  destruct (truthy (caller_id session_context)) eqn:Hcaller; simpl negb; cbv iota.
  - destruct (truthy farmer_email) eqn:Hemail; simpl.
    + destruct (validate_email email) eqn:Hvalid; simpl; [|done].
      intros (application & Hinsert & Hid & Hstatus)%insert_and_report_success.
      split_and!; [done|done|].
      destruct (caller_id session_context) as [user_id|] eqn:Hid'; [|done].
      exists user_id, db, application. split_and!; try done. by left.
    + intros (application & Hinsert & Hid & Hstatus)%insert_and_report_success.
      split_and!; [done|done|].
      destruct (caller_id session_context) as [user_id|] eqn:Hid'; [|done].
      exists user_id, db, application. split_and!; try done. by left.
  - destruct (truthy farmer_email) eqn:Hemail; simpl; [|done].
    destruct (validate_email email) eqn:Hvalid; simpl; [|done].
    destruct (truthy farmer_name) eqn:Hname; simpl; [|done].
    destruct (find_user db email) as [[e|[existing_user|]] db1] eqn:Hfind.
    + by destruct e.
    + intros (application & Hinsert & Hid & Hstatus)%insert_and_report_success.
      split_and!; [done|done|].
      exists existing_user, db1, application. split_and!; try done. by right.
    + done.
Qed.

End CreateApplicationFacts.

(** ** The further properties on the scenarios *)

Section HistoryMoreScenarios.
Import History HistoryMore Scenarios MoreScenarios.

Lemma prepare_for_api_new_message_witness :
  truthy (Some "Which documents are missing?") = true ∧
  ∀ out,
    prepare_for_api default_history greeting (Some "Which documents are missing?") true
      = inr out →
    out = format_for_claude (truncate_to_fit default_history greeting 10) false
          ++ [mkMessage (Some "user") (Some "Which documents are missing?") None None].
Proof.
  assert (truthy (Some "Which documents are missing?") = true) as Hnew by reflexivity.
  split; [exact Hnew|].
  intros out Hout.
  exact (proj1 (proj2 (prepare_for_api_new_message default_history greeting
                         (Some "Which documents are missing?") true Hnew) out Hout)).
Defined.

End HistoryMoreScenarios.

Section RegistryMoreScenarios.
Import Tools Registry RegistryMore Scenarios.

Lemma register_tool_round_trip_witness :
  register_tool "certify_application" call_certify_application
    certify_application_definition [] = inr certify_only ∧
  get_tool_definition "certify_application" certify_only
    = Some certify_application_definition.
Proof.
  assert (register_tool "certify_application" call_certify_application
            certify_application_definition [] = inr certify_only) as Hregistered
    by reflexivity.
  split; [exact Hregistered|].
  exact (proj1 (proj2 (register_tool_round_trip "certify_application"
                         call_certify_application certify_application_definition
                         [] certify_only Hregistered))).
Defined.

End RegistryMoreScenarios.

Section ToolsMoreScenarios.
Import Tools Props MoreProps Scenarios.

Lemma request_audit_one_trail_row_witness :
  dict_get "success"
    (request_audit now "low OCR confidence" None None (Some ["projected_yield"])
       session complete_store).1 = Some (VBool true) ∧
  length (audit_trail
            (request_audit now "low OCR confidence" None None (Some ["projected_yield"])
               session complete_store).2)
  = length (audit_trail complete_store) + 1.
Proof.
  assert (dict_get "success"
            (request_audit now "low OCR confidence" None None (Some ["projected_yield"])
               session complete_store).1 = Some (VBool true)) as Hsuccess
    by (vm_compute; reflexivity).
  split; [exact Hsuccess|].
  destruct (request_audit_one_trail_row now "low OCR confidence" None None
              (Some ["projected_yield"]) session complete_store Hsuccess)
    as (target & _ & _ & Hlength).
  exact Hlength.
Defined.

Lemma certified_application_is_locked_witness :
  reaches None session complete_store "app-1" (application "under_review") ∧
  is_terminal (app_status (application "under_review")) = false ∧
  validation_failures "app-1" complete_store = [] ∧
  dict_get "error"
    (update_module later 1 "total_revenue" "130000" None session
       (certify_application now true None session complete_store).2).1
    = Some (VStr "application_locked").
Proof.
  assert (reaches None session complete_store "app-1" (application "under_review"))
    as Hreach by apply reaches_scenario.
  assert (is_terminal (app_status (application "under_review")) = false)
    as Hopen by reflexivity.
  assert (validation_failures "app-1" complete_store = []) as Hvalid
    by (vm_compute; reflexivity).
  assert (is_Some (module_name_of 1)) as Hmodule by (by eexists).
  split_and!; [exact Hreach|exact Hopen|exact Hvalid|].
  exact (proj1 (proj2 (certified_application_is_locked now None session
                         complete_store "app-1" (application "under_review")
                         Hreach Hopen Hvalid)
                  later 1%Z "total_revenue" "130000" Hmodule)).
Defined.

Lemma extract_fields_trigger_once_witness :
  found_document incomplete_store "doc-1" = Some (document "doc-1" "pending") ∧
  may_access session incomplete_store (document "doc-1" "pending") ∧
  dict_get "action_required"
    (extract_fields "doc-1" None session incomplete_store).1
    = Some (VStr "poll_for_completion") ∧
  dict_get "action_required"
    (extract_fields "doc-1" None session
       (extract_fields "doc-1" None session incomplete_store).2).1 = None.
Proof.
  assert (found_document incomplete_store "doc-1" = Some (document "doc-1" "pending"))
    as Hfound by (vm_compute; reflexivity).
  assert (may_access session incomplete_store (document "doc-1" "pending"))
    as Haccess by (vm_compute; reflexivity).
  pose proof (extract_fields_trigger_once "doc-1" None None session
                incomplete_store (document "doc-1" "pending") Hfound Haccess
                (or_introl eq_refl)) as (_ & Hfirst & _ & _ & Hsecond & _).
  split_and!; [exact Hfound|exact Haccess|exact Hfirst|exact Hsecond].
Defined.

Lemma extract_fields_unknown_status_witness :
  found_document complete_store "doc-1" = Some (document "doc-1" "processed") ∧
  may_access session complete_store (document "doc-1" "processed") ∧
  dict_get "error" (extract_fields "doc-1" None session complete_store).1
    = Some (VStr "unknown_status").
Proof.
  assert (found_document complete_store "doc-1" = Some (document "doc-1" "processed"))
    as Hfound by (vm_compute; reflexivity).
  assert (may_access session complete_store (document "doc-1" "processed"))
    as Haccess by (vm_compute; reflexivity).
  pose proof (extract_fields_unknown_status "doc-1" None session complete_store
                (document "doc-1" "processed") Hfound Haccess)
    as (_ & _ & Hstatus & _).
  split_and!; [exact Hfound|exact Haccess|].
  exact (Hstatus (or_introl eq_refl)).
Defined.

End ToolsMoreScenarios.

Section ClientMoreScenarios.
Import Client ClientMore Scenarios.

Lemma execute_with_tools_result_witness :
  execute_with_tools text_on_third show client 0 "certify my application" [] None 5
    = (inr text_reply, 3) ∧
  is_str (dict_get "stop_reason" text_reply) "tool_use" = false.
Proof.
  assert (execute_with_tools text_on_third show client 0 "certify my application"
            [] None 5 = (inr text_reply, 3)) as Hrun by reflexivity.
  split; [exact Hrun|].
  exact (proj1 (execute_with_tools_result text_on_third show client [] None 0
                  "certify my application" 5 text_reply 3 Hrun)).
Defined.

Lemma stream_message_chunks_witness :
  stream_message MoreScenarios.serve_stream MoreScenarios.strip client 0 "Hello"
    None None = (inr ["{text: Hel}"; "{text: lo}"], 1) ∧
  ∃ request_body lines,
    MoreScenarios.serve_stream 0 request_body = (inr lines, 1) ∧
    dict_get "stream" request_body = Some (VBool true) ∧
    ["{text: Hel}"; "{text: lo}"] = yielded MoreScenarios.strip lines.
Proof.
  assert (stream_message MoreScenarios.serve_stream MoreScenarios.strip client 0
            "Hello" None None = (inr ["{text: Hel}"; "{text: lo}"], 1)) as Hrun
    by (vm_compute; reflexivity).
  split; [exact Hrun|].
  destruct (stream_message_chunks MoreScenarios.serve_stream MoreScenarios.strip
              client 0 1 "Hello" None None ["{text: Hel}"; "{text: lo}"] Hrun)
    as (request_body & lines & Hserved & Hstream & Hchunks & _).
  exists request_body, lines.
  split_and!; [exact Hserved|exact Hstream|exact Hchunks].
Defined.

End ClientMoreScenarios.

Section TitleScenarios.
Import Stdlib.Strings.Ascii.
Import Title MoreScenarios.

Lemma create_fallback_title_length_witness :
  (3 ≤ 20)%Z ∧
  (Z.of_nat (length (create_fallback_title ascii_space " "%char "."%char
                       first_message 20)) ≤ 20)%Z.
Proof.
  assert (3 ≤ 20)%Z as Hlimit by lia.
  split; [exact Hlimit|].
  exact (create_fallback_title_length ascii_space " "%char "."%char
           first_message 20 Hlimit).
Defined.

End TitleScenarios.

Section CreateApplicationScenarios.
Import Stdlib.Strings.Ascii.
Import CreateApplication MoreScenarios.

Lemma validate_email_accepted_witness :
  validate_email "farmer@example.com" = true ∧
  length (List.filter (is_char "@"%char)
            (String.list_ascii_of_string "farmer@example.com")) = 1.
Proof.
  assert (validate_email "farmer@example.com" = true) as Hvalid
    by (vm_compute; reflexivity).
  split; [exact Hvalid|].
  exact (proj1 (validate_email_accepted "farmer@example.com" Hvalid)).
Defined.

Lemma create_application_success_witness :
  dict_has "error"
    (create_application find_user insert_application (Some "Jo Farmer")
       (Some "farmer@example.com") None "organic" None None 0).1 = false ∧
  "organic" ∈ valid_cert_types.
Proof.
  assert (dict_has "error"
            (create_application find_user insert_application (Some "Jo Farmer")
               (Some "farmer@example.com") None "organic" None None 0).1 = false)
    as Hcreated by (vm_compute; reflexivity).
  split; [exact Hcreated|].
  exact (proj1 (create_application_success find_user insert_application
                  (Some "Jo Farmer") (Some "farmer@example.com") None "organic"
                  None None 0 Hcreated)).
Defined.

End CreateApplicationScenarios.
